(** * csv2sql: a shallow embedding of [csv2sql.go] and its properties

    The program loads CSV files into SQLite tables and runs queries
    against them.  This development embeds the program's functions
    ([sqlNameFromString], [mapStrings], [asStrings], the two output
    writers, [createTableFromReader], [createTableFromCSV],
    [readSQLFile], [executeQuery] and the argument loop of [main]) and
    proves the properties of the written specification about them.

    Layout: models of the Go library functions the program calls, the
    interfaces of the external components (Unicode range tables, the CSV
    codec, the SQL engine), the program itself, a reference SQL engine,
    and then the theorems. *)

From Stdlib Require Import ZArith Ascii String List Bool Lia.
From stdpp Require Import gmap strings list fin_maps.

Open Scope Z_scope.

(** ** Go values *)

(** A Go [string] is a sequence of bytes. *)
Abbreviation gostring := (list ascii).

Definition str (s : string) : gostring := list_ascii_of_string s.
Coercion str : string >-> list.

(** A [rune] is an [int32] code point; the values that occur here are
    all within [0, 0x10FFFF], so no wrap-around is involved. *)
Abbreviation rune := Z.

Definition byteval (b : ascii) : Z := Z.of_N (N_of_ascii b).
Definition mkbyte (z : Z) : ascii := ascii_of_N (Z.to_N z).

(** [err.Error()]: the text of an error value. *)
Abbreviation error := (list ascii).

(** Go's [(value, err)] results. *)
Inductive Try (A : Type) : Type :=
| Val (a : A)
| Err (e : error).
Arguments Val {A} a.
Arguments Err {A} e.

(** ** Package [unicode/utf8] *)

Module GoUtf8.

Definition RuneError : rune := 0xFFFD.
Definition MaxRune : rune := 0x10FFFF.
Definition RuneSelf : rune := 0x80.

(** Continuation bytes: [locb <= b <= hicb]. *)
Definition isCont (b : Z) : bool := (0x80 <=? b) && (b <=? 0xBF).

(** [acceptRanges]: the bounds of the second byte, by first byte. *)
Definition acceptLo (b0 : Z) : Z :=
  if b0 =? 0xE0 then 0xA0 else if b0 =? 0xF0 then 0x90 else 0x80.
Definition acceptHi (b0 : Z) : Z :=
  if b0 =? 0xED then 0x9F else if b0 =? 0xF4 then 0x8F else 0xBF.
Definition accepts (b0 b1 : Z) : bool :=
  (acceptLo b0 <=? b1) && (b1 <=? acceptHi b0).

Definition rune2 (b0 b1 : Z) : rune :=
  Z.lor (Z.shiftl (Z.land b0 0x1F) 6) (Z.land b1 0x3F).
Definition rune3 (b0 b1 b2 : Z) : rune :=
  Z.lor (Z.lor (Z.shiftl (Z.land b0 0x0F) 12)
               (Z.shiftl (Z.land b1 0x3F) 6))
        (Z.land b2 0x3F).
Definition rune4 (b0 b1 b2 b3 : Z) : rune :=
  Z.lor (Z.lor (Z.lor (Z.shiftl (Z.land b0 0x07) 18)
                      (Z.shiftl (Z.land b1 0x3F) 12))
               (Z.shiftl (Z.land b2 0x3F) 6))
        (Z.land b3 0x3F).

(** The runes a [for _, c := range s] loop yields: repeated
    [DecodeRuneInString], where every byte that does not start a
    well-formed sequence yields [RuneError] and is one byte wide. *)
Fixpoint decodeRunes (s : gostring) : list rune :=
  match s with
  | [] => []
  | c0 :: t0 =>
    let b0 := byteval c0 in
    let invalid := RuneError :: decodeRunes t0 in
    if b0 <? RuneSelf then b0 :: decodeRunes t0
    else if (0xC2 <=? b0) && (b0 <=? 0xDF) then
      match t0 with
      | c1 :: t1 =>
        if accepts b0 (byteval c1)
        then rune2 b0 (byteval c1) :: decodeRunes t1
        else invalid
      | _ => invalid
      end
    else if (0xE0 <=? b0) && (b0 <=? 0xEF) then
      match t0 with
      | c1 :: c2 :: t2 =>
        if accepts b0 (byteval c1) && isCont (byteval c2)
        then rune3 b0 (byteval c1) (byteval c2) :: decodeRunes t2
        else invalid
      | _ => invalid
      end
    else if (0xF0 <=? b0) && (b0 <=? 0xF4) then
      match t0 with
      | c1 :: c2 :: c3 :: t3 =>
        if accepts b0 (byteval c1) && isCont (byteval c2)
           && isCont (byteval c3)
        then rune4 b0 (byteval c1) (byteval c2) (byteval c3)
             :: decodeRunes t3
        else invalid
      | _ => invalid
      end
    else invalid
  end.

Definition encode3 (r : rune) : gostring :=
  [ mkbyte (Z.lor 0xE0 (Z.shiftr r 12));
    mkbyte (Z.lor 0x80 (Z.land (Z.shiftr r 6) 0x3F));
    mkbyte (Z.lor 0x80 (Z.land r 0x3F)) ].

Definition encode4 (r : rune) : gostring :=
  [ mkbyte (Z.lor 0xF0 (Z.shiftr r 18));
    mkbyte (Z.lor 0x80 (Z.land (Z.shiftr r 12) 0x3F));
    mkbyte (Z.lor 0x80 (Z.land (Z.shiftr r 6) 0x3F));
    mkbyte (Z.lor 0x80 (Z.land r 0x3F)) ].

(** [AppendRune] on an empty slice: the UTF-8 encoding of [r];
    negative runes, surrogates and values above [MaxRune] are encoded
    as [RuneError]. *)
Definition EncodeRune (r : rune) : gostring :=
  if (0 <=? r) && (r <? RuneSelf) then [mkbyte r]
  else if (0 <=? r) && (r <=? 0x7FF) then
    [ mkbyte (Z.lor 0xC0 (Z.shiftr r 6));
      mkbyte (Z.lor 0x80 (Z.land r 0x3F)) ]
  else if (r <? 0) || (MaxRune <? r) || ((0xD800 <=? r) && (r <=? 0xDFFF))
  then encode3 RuneError
  else if r <=? 0xFFFF then encode3 r
  else encode4 r.

(** The code points [DecodeRuneInString] can return. *)
Definition ValidRune (r : rune) : Prop :=
  (0 <= r < 0xD800) \/ (0xE000 <= r <= MaxRune).

End GoUtf8.

(** ** Package [unicode] *)

(** [unicode.IsLetter], [unicode.IsNumber] and [unicode.IsDigit] answer
    from the Latin-1 [properties] table for runes up to [MaxLatin1] and
    search the range tables [Letter], [Number] and [Digit] above it.
    The Latin-1 part is written out; the range tables are an interface. *)
Class RangeTables : Type := {
  inLetter : rune -> bool;   (* isExcludingLatin(Letter, r) *)
  inNumber : rune -> bool;   (* isExcludingLatin(Number, r) *)
  inDigit : rune -> bool     (* isExcludingLatin(Digit, r) *)
}.

Module GoUnicode.

Definition MaxLatin1 : rune := 0xFF.

Definition between (lo hi r : Z) : bool := (lo <=? r) && (r <=? hi).

(** Entries of [properties] with a letter bit ([pLmask]). *)
Definition latin1Letter (r : rune) : bool :=
  between 0x41 0x5A r || between 0x61 0x7A r
  || (r =? 0xAA) || (r =? 0xB5) || (r =? 0xBA)
  || between 0xC0 0xD6 r || between 0xD8 0xF6 r || between 0xF8 0xFF r.

(** Entries of [properties] with the number bit ([pN]). *)
Definition latin1Number (r : rune) : bool :=
  between 0x30 0x39 r
  || (r =? 0xB2) || (r =? 0xB3) || (r =? 0xB9) || between 0xBC 0xBE r.

Section Tables.
Context {T : RangeTables}.

Definition IsLetter (r : rune) : bool :=
  if between 0 MaxLatin1 r then latin1Letter r else inLetter r.

Definition IsNumber (r : rune) : bool :=
  if between 0 MaxLatin1 r then latin1Number r else inNumber r.

Definition IsDigit (r : rune) : bool :=
  if r <=? MaxLatin1 then between 0x30 0x39 r else inDigit r.
End Tables.

End GoUnicode.

(** ** Package [strings] *)

Module GoStrings.

(** [len(s) >= len(prefix) && s[:len(prefix)] == prefix] *)
Definition HasPrefix (s prefix : gostring) : bool :=
  (length prefix <=? length s)%nat
  && bool_decide (take (length prefix) s = prefix).

(** [len(s) >= len(suffix) && s[len(s)-len(suffix):] == suffix] *)
Definition HasSuffix (s suffix : gostring) : bool :=
  (length suffix <=? length s)%nat
  && bool_decide (drop (length s - length suffix) s = suffix).

Definition TrimSuffix (s suffix : gostring) : gostring :=
  if HasSuffix s suffix then take (length s - length suffix) s else s.

(** [Index]: the first position at which [substr] occurs ([None] for
    Go's [-1]). *)
Fixpoint Index (s substr : gostring) : option nat :=
  if HasPrefix s substr then Some 0%nat
  else match s with
       | [] => None
       | _ :: t => S <$> Index t substr
       end.

Definition Contains (s substr : gostring) : bool :=
  bool_decide (is_Some (Index s substr)).

(** [genSplit(s, sep, 0, -1)] for a non-empty separator: cut at each
    occurrence found from the left.  Go bounds the loop by
    [Count(s, sep)]; [fuel] plays that part, and [len(s)] is enough. *)
Fixpoint genSplit (fuel : nat) (s sep : gostring) : list gostring :=
  match fuel with
  | O => [s]
  | S fuel' =>
    match Index s sep with
    | None => [s]
    | Some m => take m s :: genSplit fuel' (drop (m + length sep) s) sep
    end
  end.

Definition Split (s sep : gostring) : list gostring :=
  genSplit (length s) s sep.

(** [Join]: the first element, then separator and element in turn. *)
Definition Join (elems : list gostring) (sep : gostring) : gostring :=
  match elems with
  | [] => []
  | e :: rest => fold_left (fun b s => b ++ sep ++ s) rest e
  end.

Fixpoint Repeat (s : gostring) (count : nat) : gostring :=
  match count with
  | O => []
  | S n => s ++ Repeat s n
  end.

(** [TrimRight] with an ASCII cutset works on bytes. *)
Definition inCutset (cutset : gostring) (c : ascii) : bool :=
  bool_decide (c ∈ cutset).

Fixpoint dropWhile (p : ascii -> bool) (s : gostring) : gostring :=
  match s with
  | [] => []
  | c :: t => if p c then dropWhile p t else s
  end.

Definition TrimRight (s cutset : gostring) : gostring :=
  rev (dropWhile (inCutset cutset) (rev s)).

(** [Map]: every rune of [s] is replaced by the encoding of its image;
    negative images are dropped. *)
Definition Map (mapping : rune -> rune) (s : gostring) : gostring :=
  flat_map (fun c => let r := mapping c in
                     if 0 <=? r then GoUtf8.EncodeRune r else [])
           (GoUtf8.decodeRunes s).

End GoStrings.

Import GoStrings.

(** ** The name sanitizer *)

Section Sanitizer.
Context {T : RangeTables}.

(** The function literal passed to [strings.Map]. *)
Definition alnumOrUnderscore (r : rune) : rune :=
  if GoUnicode.IsLetter r || GoUnicode.IsNumber r then r else 0x5F.

Definition sqlNameFromString (path : gostring) : gostring :=
  let path := TrimSuffix path ".csv" in
  (* get the last part of the path *)
  let parts := Split path "/" in
  let path := nth (length parts - 1) parts [] in
  (* replace all non-alphanumeric characters with underscores *)
  Map alnumOrUnderscore path.

Definition mapStrings (ss : list gostring) (f : gostring -> gostring)
  : list gostring :=
  map f ss.

End Sanitizer.

(** *** The sanitizer as the specification words it

    "Strip a trailing conversion extension, take the last path segment,
    replace every character that is not a letter or digit with an
    underscore."  These definitions follow that sentence, not the code;
    [keep] is the class of characters left alone. *)

Module SpecWords.

(** [s] without one trailing [.csv]. *)
Fixpoint stripCsv (s : gostring) : gostring :=
  match s with
  | [] => []
  | c :: t => if bool_decide (s = str ".csv") then [] else c :: stripCsv t
  end.

Definition slash : ascii := "/"%char.

(** What follows the last [/] of [s]; all of [s] when it has none. *)
Fixpoint lastSegment (s : gostring) : gostring :=
  match s with
  | [] => []
  | _ :: t => if bool_decide (slash ∈ s) then lastSegment t else s
  end.

(** Every character outside [keep] becomes an underscore. *)
Definition replaceUnless (keep : rune -> bool) (s : gostring) : gostring :=
  flat_map (fun c => GoUtf8.EncodeRune (if keep c then c else 0x5F))
           (GoUtf8.decodeRunes s).

Definition sanitize (keep : rune -> bool) (s : gostring) : gostring :=
  replaceUnless keep (lastSegment (stripCsv s)).

Section Classes.
Context {T : RangeTables}.

(** "a letter or a digit" *)
Definition letterOrDigit (r : rune) : bool :=
  GoUnicode.IsLetter r || GoUnicode.IsDigit r.

(** a letter or a number: Unicode categories L and N *)
Definition letterOrNumber (r : rune) : bool :=
  GoUnicode.IsLetter r || GoUnicode.IsNumber r.
End Classes.

End SpecWords.

(** Range tables with nothing above Latin-1: enough to run the
    sanitizer on Latin-1 text. *)
Definition Latin1Only : RangeTables :=
  {| inLetter := fun _ => false;
     inNumber := fun _ => false;
     inDigit := fun _ => false |}.

(** The two bytes of U+00BD, VULGAR FRACTION ONE HALF: a number
    (category No) that is not a digit. *)
Definition oneHalf : gostring := ["194"; "189"]%char.

(** ** External components *)

(** [sql.NullString] as [rows.Scan] fills it: the text, and whether the
    column was non-NULL. *)
Record NullString : Type := mkNullString {
  NString : gostring;   (* the field [String] *)
  Valid : bool
}.

(** The cursor [db.Query] returns: what [rows.Columns()] answers, and
    what each successive [rows.Scan] delivers while [rows.Next()]
    holds. *)
Record Rows : Type := mkRows {
  Columns : Try (list gostring);
  scans : list (Try (list NullString))
}.

(** Package [encoding/csv]. *)
Class CsvCodec : Type := {
  (** [csv.NewReader(input)] with [FieldsPerRecord = -1],
      [TrimLeadingSpace] and [LazyQuotes], then [ReadAll()], on the
      bytes the reader delivers. *)
  ReadAll : gostring -> Try (list (list gostring));
  (** The bytes the [Write] method of [csv.Writer] emits for one record. *)
  csvRecord : list gostring -> gostring
}.

(** Package [database/sql] over the SQLite driver.  A database is a
    value of [DB]; a statement maps it to a new one. *)
Class SqlEngine : Type := {
  DB : Type;
  (** A database that has just been created. *)
  emptyDB : DB;
  (** [db.Exec(query, args...)]; an argument is a string or [nil]. *)
  Exec : DB -> gostring -> list (option gostring) -> DB * option error;
  (** [db.Query(query)]. *)
  Query : DB -> gostring -> DB * Try Rows
}.

(** ** Process state and control *)

(** The messages of the [log.Fatalf] and [log.Printf] calls, one
    constructor per format string. *)
Inductive LogMsg : Type :=
| MsgDbRequiresArgument            (* "--db requires an argument" *)
| MsgTableRequiresArgument         (* "--table requires an argument" *)
| MsgUnknownArgument (arg : gostring)
                                   (* "unknown argument: %s" *)
| MsgReadSQLFile (fileName : gostring) (e : error)
                                   (* "error reading SQL file %s: %v" *)
| MsgQuery (query : gostring) (e : error)
                         (* "error executing query %#v database: %v" *)
| MsgColumns (query : gostring) (e : error)
                         (* "error getting columns from query %#v: %v" *)
| MsgScan (e : error)              (* "error scanning rows: %v" *)
| MsgOpenCSV (fileName : gostring) (e : error)
                                   (* "error opening the CSV file %s: %v" *)
| MsgReadCSV (fileName : gostring) (e : error)
                         (* "failed to read all of CSV from %s: %v" *)
| MsgDropTable (tableName : gostring) (e : error)
                                   (* "error dropping table %s: %v" *)
| MsgTableExists (tableName : gostring)
                                   (* "table %s already exists" *)
| MsgCreateTable (tableName : gostring) (e : error)
                                   (* "error creating table %s: %v" *)
| MsgInsert (e : error).           (* "error inserting record: %v" *)

Inductive RuntimeError : Type :=
| IndexOutOfRange (index len : nat).
                         (* "index out of range [index] with length len" *)

(** How a call ends: it returns, or the process is terminated by
    [log.Fatalf] (message printed, [os.Exit(1)]), or by a run-time
    panic (exit status 2). *)
Inductive Result (S A : Type) : Type :=
| Returns (a : A) (σ : S)
| Fatal (m : LogMsg) (σ : S)
| Panics (p : RuntimeError) (σ : S).
Arguments Returns {S A} a σ.
Arguments Fatal {S A} m σ.
Arguments Panics {S A} p σ.

Definition exitStatus {S A} (r : Result S A) : Z :=
  match r with
  | Returns _ _ => 0
  | Fatal _ _ => 1
  | Panics _ _ => 2
  end.

Definition finalState {S A} (r : Result S A) : S :=
  match r with
  | Returns _ σ | Fatal _ σ | Panics _ σ => σ
  end.

Declare Scope go_scope.
Delimit Scope go_scope with go.

Section Process.
Context {T : RangeTables} {C : CsvCodec} {E : SqlEngine}.

(** What the process can read and change: the file system, the
    standard streams, the databases by data source name, and the
    package-level variables. *)
Record State : Type := mkState {
  files : gmap gostring gostring;
  stdin : gostring;
  stdout : gostring;
  logged : list LogMsg;
  databases : gmap gostring DB;
  HeadersOn : bool;
  Replacing : bool;
  WritePlainText : bool
}.

Definition M (A : Type) : Type := State -> Result State A.

Definition ret {A} (a : A) : M A := fun σ => Returns a σ.

Definition bind {A B} (m : M A) (k : A -> M B) : M B :=
  fun σ => match m σ with
           | Returns a σ' => k a σ'
           | Fatal msg σ' => Fatal msg σ'
           | Panics p σ' => Panics p σ'
           end.

Definition Fatalf {A} (m : LogMsg) : M A := fun σ => Fatal m σ.

Definition panic {A} (p : RuntimeError) : M A := fun σ => Panics p σ.

Definition Printf (m : LogMsg) : M unit := fun σ =>
  Returns tt (mkState (files σ) (stdin σ) (stdout σ) (logged σ ++ [m])
                      (databases σ) (HeadersOn σ) (Replacing σ)
                      (WritePlainText σ)).

Definition get {A} (f : State -> A) : M A := fun σ => Returns (f σ) σ.

Definition setHeadersOn (b : bool) : M unit := fun σ =>
  Returns tt (mkState (files σ) (stdin σ) (stdout σ) (logged σ)
                      (databases σ) b (Replacing σ) (WritePlainText σ)).

Definition setReplacing (b : bool) : M unit := fun σ =>
  Returns tt (mkState (files σ) (stdin σ) (stdout σ) (logged σ)
                      (databases σ) (HeadersOn σ) b (WritePlainText σ)).

Definition setWritePlainText (b : bool) : M unit := fun σ =>
  Returns tt (mkState (files σ) (stdin σ) (stdout σ) (logged σ)
                      (databases σ) (HeadersOn σ) (Replacing σ) b).

Definition setDatabase (dsn : gostring) (d : DB) (σ : State) : State :=
  mkState (files σ) (stdin σ) (stdout σ) (logged σ)
          (<[dsn := d]> (databases σ)) (HeadersOn σ) (Replacing σ)
          (WritePlainText σ).

(** The database behind a handle; a data source that was never
    written to is a fresh database. *)
Definition database (dsn : gostring) (σ : State) : DB :=
  default emptyDB (databases σ !! dsn).

(** [db.Exec] and [db.Query] on the handle opened for [dsn]. *)
Definition dbExec (dsn query : gostring) (args : list (option gostring))
  : M (option error) := fun σ =>
  let '(d, e) := Exec (database dsn σ) query args in
  Returns e (setDatabase dsn d σ).

Definition dbQuery (dsn query : gostring) : M (Try Rows) := fun σ =>
  let '(d, r) := Query (database dsn σ) query in
  Returns r (setDatabase dsn d σ).

(** Reading [os.Stdin] to its end. *)
Definition readStdin : M gostring := fun σ =>
  Returns (stdin σ)
          (mkState (files σ) [] (stdout σ) (logged σ) (databases σ)
                   (HeadersOn σ) (Replacing σ) (WritePlainText σ)).

Definition writeStdout (bytes : gostring) : M unit := fun σ =>
  Returns tt (mkState (files σ) (stdin σ) (stdout σ ++ bytes) (logged σ)
                      (databases σ) (HeadersOn σ) (Replacing σ)
                      (WritePlainText σ)).

(** [os.Open] and [os.ReadFile]: the contents of an existing file. *)
Definition readFile (fileName : gostring) : M (Try gostring) := fun σ =>
  Returns match files σ !! fileName with
          | Some contents => Val contents
          | None => Err (str "open " ++ fileName
                         ++ str ": no such file or directory")
          end σ.

End Process.

Notation "'do' x <- m ;; k" := (bind m (fun x => k))
  (at level 10, x name, m at level 99, k at level 200) : go_scope.

Open Scope go_scope.

(** ** The program *)

(** *** Output writers *)

Definition tab : gostring := ["009"%char].
Definition newline : gostring := ["010"%char].

(** An [OutputWriter] is one of the two implementations, each with the
    bytes it has buffered. *)
Inductive OutputWriter : Type :=
| CSVWriter (buffered : gostring)
| PlainTextWriter (buffered : gostring).

(** [fmt.Fprintln(w, s)]: the operand and a newline. *)
Definition Fprintln (s : gostring) : gostring := s ++ newline.

Definition PlainTextWriter_Write (buffered : gostring) (ss : list gostring)
  : gostring :=
  buffered ++ Fprintln (Join ss tab).

Definition CSVWriter_Write `{CsvCodec} (buffered : gostring)
    (ss : list gostring) : gostring :=
  buffered ++ csvRecord ss.

Definition Write `{CsvCodec} (w : OutputWriter) (ss : list gostring)
  : OutputWriter :=
  match w with
  | CSVWriter b => CSVWriter (CSVWriter_Write b ss)
  | PlainTextWriter b => PlainTextWriter (PlainTextWriter_Write b ss)
  end.

Definition buffer (w : OutputWriter) : gostring :=
  match w with
  | CSVWriter b | PlainTextWriter b => b
  end.

Definition NewCSVWriter : OutputWriter := CSVWriter [].
Definition NewPlainTextWriter : OutputWriter := PlainTextWriter [].

Definition asStrings (ss : list NullString) : list gostring :=
  map NString ss.

(** The plain-text row as the specification words it: the fields with a
    single tab between neighbours, then a newline, the fields
    themselves untouched. *)
Fixpoint tabSeparated (fields : list gostring) : gostring :=
  match fields with
  | [] => []
  | [f] => f
  | f :: rest => f ++ tab ++ tabSeparated rest
  end.

Definition plainTextRow (fields : list gostring) : gostring :=
  tabSeparated fields ++ newline.

Section Program.
Context {T : RangeTables} {C : CsvCodec} {E : SqlEngine}.

(** [Flush]: the buffered bytes reach standard output. *)
Definition Flush (w : OutputWriter) : M unit := writeStdout (buffer w).

Definition getWriter : M OutputWriter :=
  do plain <- get WritePlainText ;;
  if plain then ret NewPlainTextWriter else ret NewCSVWriter.

Definition readSQLFile (fileName : gostring) : M gostring :=
  do r <- readFile fileName ;;
  match r with
  | Err e => Fatalf (MsgReadSQLFile fileName e)
  | Val contents => ret contents
  end.

(** The loop over [rows.Next()]: scan, then write the row. *)
Fixpoint writeRows (writer : OutputWriter)
    (pending : list (Try (list NullString))) : M OutputWriter :=
  match pending with
  | [] => ret writer
  | Err e :: _ => Fatalf (MsgScan e)
  | Val values :: pending' =>
    writeRows (Write writer (asStrings values)) pending'
  end.

(** [executeQuery].  The deferred [writer.Flush()] runs when the
    function returns; [log.Fatalf] exits without it. *)
Definition executeQuery (db query : gostring) : M unit :=
  do r <- dbQuery db query ;;
  match r with
  | Err e => Fatalf (MsgQuery query e)
  | Val rows =>
    match Columns rows with
    | Err e => Fatalf (MsgColumns query e)
    | Val columns =>
      do writer <- getWriter ;;
      do headersOn <- get HeadersOn ;;
      let writer := if headersOn then Write writer columns else writer in
      do writer <- writeRows writer (scans rows) ;;
      Flush writer
    end
  end.

(** The values of one insert: the fields of the record, then [nil]
    for every column from [len(record)] up to [fieldCount]. *)
Definition insertValues (fieldCount : nat) (record : list gostring)
  : list (option gostring) :=
  let values := fold_left (fun vs v => vs ++ [Some v]) record [] in
  fold_left (fun vs _ => vs ++ [None])
            (seq (length record) (fieldCount - length record)) values.

Definition dropTableStmt (tableName : gostring) : gostring :=
  str "drop table if exists " ++ tableName.

Definition createTableStmt (tableName : gostring)
    (fieldNames : list gostring) : gostring :=
  str "create table " ++ tableName ++ str " ("
  ++ Join fieldNames (str ", ") ++ str ")".

Definition insertStmt (tableName : gostring) (fieldNames : list gostring)
    (fieldCount : nat) : gostring :=
  str "insert into " ++ tableName ++ str " ("
  ++ Join fieldNames (str ", ") ++ str ") values ("
  ++ TrimRight (Repeat (str "?, ") fieldCount) (str ", ") ++ str ")".

(** The loop over [records[1:]]. *)
Fixpoint insertRecords (db stmt : gostring) (fieldCount : nat)
    (records : list (list gostring)) : M unit :=
  match records with
  | [] => ret tt
  | record :: records' =>
    do err <- dbExec db stmt (insertValues fieldCount record) ;;
    match err with
    | Some e => Fatalf (MsgInsert e)
    | None => insertRecords db stmt fieldCount records'
    end
  end.

(** [createTableFromReader]; [input] is what the reader delivers. *)
Definition createTableFromReader (db tableName input fileName : gostring)
  : M unit :=
  match ReadAll input with
  | Err e => Fatalf (MsgReadCSV fileName e)
  | Val records =>
    match records !! 0%nat with
    | None => panic (IndexOutOfRange 0 (length records))
    | Some header =>
      let fieldNames := mapStrings header sqlNameFromString in
      let fieldCount := length fieldNames in
      do replacing <- get Replacing ;;
      do _ <- (if replacing then
                 do err <- dbExec db (dropTableStmt tableName) [] ;;
                 match err with
                 | Some e => Fatalf (MsgDropTable tableName e)
                 | None => ret tt
                 end
               else ret tt) ;;
      do err <- dbExec db (createTableStmt tableName fieldNames) [] ;;
      do _ <- match err with
              | Some e =>
                if Contains e (str "already exists")
                then Printf (MsgTableExists tableName)
                else Fatalf (MsgCreateTable tableName e)
              | None => ret tt
              end ;;
      insertRecords db (insertStmt tableName fieldNames fieldCount)
                    fieldCount (drop 1 records)
    end
  end.

Definition createTableFromCSV (db tableName fileName : gostring) : M unit :=
  do r <- readFile fileName ;;
  match r with
  | Err e => Fatalf (MsgOpenCSV fileName e)
  | Val csvFile => createTableFromReader db tableName csvFile fileName
  end.

Definition eqs (a : gostring) (b : string) : bool :=
  bool_decide (a = str b).

(** The argument loop of [main], from [os.Args[i]] on; [db] is the
    data source name of the open handle.  [sql.Open] itself does not
    touch the database and does not fail for a registered driver.
    The result is the values of [db] and [tableName] when the loop
    ends. *)
Fixpoint mainLoop (args : list gostring) (db tableName : gostring)
  : M (gostring * gostring) :=
  match args with
  | [] => ret (db, tableName)
  | arg :: rest =>
    if eqs arg "--plain-text" || eqs arg "--plain" || eqs arg "--text"
    then
      do _ <- setWritePlainText true ;; mainLoop rest db tableName
    else if eqs arg "--replace" then
      do _ <- setReplacing true ;; mainLoop rest db tableName
    else if eqs arg "--db" then
      match rest with
      | [] => Fatalf MsgDbRequiresArgument
      | dbName :: rest' =>
        let dbName := if HasSuffix dbName (str ".db") then dbName
                      else dbName ++ str ".db" in
        mainLoop rest' dbName tableName
      end
    else if eqs arg "--table" then
      match rest with
      | [] => Fatalf MsgTableRequiresArgument
      | name :: rest' => mainLoop rest' db name
      end
    else if eqs arg "--no-headers" || eqs arg "--no-header" then
      do _ <- setHeadersOn false ;; mainLoop rest db tableName
    else if eqs arg "--headers" then
      do _ <- setHeadersOn true ;; mainLoop rest db tableName
    else if HasSuffix arg (str ".csv") then
      let fileName := arg in
      let tableName := if bool_decide (tableName = [])
                       then sqlNameFromString fileName else tableName in
      do _ <- createTableFromCSV db tableName fileName ;;
      mainLoop rest db [] (* reset table name *)
    else if HasSuffix arg (str ".sql") then
      do query <- readSQLFile arg ;;
      do _ <- executeQuery db query ;;
      mainLoop rest db tableName
    else if eqs arg "stdin" then
      let tableName := if bool_decide (tableName = [])
                       then str "stdin" else tableName in
      do input <- readStdin ;;
      do _ <- createTableFromReader db tableName input (str "stdin") ;;
      mainLoop rest db tableName
    else if HasPrefix arg (str "select") then
      do _ <- executeQuery db arg ;;
      mainLoop rest db tableName
    else Fatalf (MsgUnknownArgument arg)
  end.

Definition main (osArgs : list gostring) : M unit :=
  do _ <- mainLoop (drop 1 osArgs) (str "file::memory:") [] ;;
  ret tt.

(** The state a process starts in. *)
Definition initialState (fs : gmap gostring gostring) (input : gostring)
    (dbs : gmap gostring DB) : State :=
  mkState fs input [] [] dbs true false false.

End Program.

(** ** Reference components

    Small executable stand-ins for the external components: a CSV
    codec for input without quoted fields, and an SQL engine that
    understands the statements the program issues and
    [select * from <table>], with SQLite's treatment of names
    (compared without regard to ASCII case) and go-sqlite3's treatment
    of arguments (too few are an error, surplus ones are ignored). *)

Module Reference.

(** *** CSV *)

Definition dquote : ascii := "034"%char.
Definition isBlank (c : ascii) : bool :=
  bool_decide (c = " "%char) || bool_decide (c = "009"%char).

Definition stripCR (line : gostring) : gostring := TrimSuffix line ["013"%char].

Definition readAll (input : gostring) : Try (list (list gostring)) :=
  if bool_decide (dquote ∈ input)
  then Err (str "reference reader: quoted field")
  else
    let lines := map stripCR (Split input newline) in
    let lines := List.filter (fun l => negb (bool_decide (l = []))) lines in
    Val (map (fun l => map (dropWhile isBlank) (Split l (str ","))) lines).

Definition needsQuotes (field : gostring) : bool :=
  match field with
  | [] => false
  | c :: _ =>
    isBlank c
    || existsb (fun b => bool_decide (b ∈ [","%char; dquote; "010"%char;
                                           "013"%char])) field
  end.

Definition quoted (field : gostring) : gostring :=
  [dquote]
  ++ flat_map (fun b => if bool_decide (b = dquote) then [dquote; dquote]
                        else [b]) field
  ++ [dquote].

Definition writeRecord (fields : list gostring) : gostring :=
  Join (map (fun f => if needsQuotes f then quoted f else f) fields)
       (str ",")
  ++ newline.

Definition csv : CsvCodec :=
  {| ReadAll := readAll; csvRecord := writeRecord |}.

(** *** SQL: tokens and statements *)

Inductive Token : Type :=
| TWord (w : gostring)
| TSym (c : ascii).

(** Bytes that continue a word: letters, digits, [_], [$], and all
    bytes from 0x80 up. *)
Definition isIdChar (c : ascii) : bool :=
  let b := byteval c in
  GoUnicode.between 0x30 0x39 b || GoUnicode.between 0x41 0x5A b
  || GoUnicode.between 0x61 0x7A b || (b =? 0x5F) || (b =? 0x24)
  || (0x80 <=? b).

Definition isSpace (c : ascii) : bool :=
  let b := byteval c in
  (b =? 0x20) || GoUnicode.between 0x09 0x0D b.

Definition flush (word : gostring) : list Token :=
  match word with
  | [] => []
  | _ => [TWord word]
  end.

(** [word] is the word being read. *)
Fixpoint tokens (word : gostring) (s : gostring) : list Token :=
  match s with
  | [] => flush word
  | c :: t =>
    if isIdChar c then tokens (word ++ [c]) t
    else flush word ++ (if isSpace c then [] else [TSym c]) ++ tokens [] t
  end.

Definition lowerByte (c : ascii) : ascii :=
  if GoUnicode.between 0x41 0x5A (byteval c) then mkbyte (byteval c + 32)
  else c.

Definition lower (s : gostring) : gostring := map lowerByte s.

Definition isKeyword (w : gostring) (k : string) : bool :=
  bool_decide (lower w = str k).

Definition reserved : list string :=
  [ "add"; "all"; "alter"; "and"; "as"; "between"; "by"; "case"; "check";
    "collate"; "commit"; "constraint"; "create"; "default"; "delete";
    "distinct"; "drop"; "else"; "escape"; "except"; "exists"; "foreign";
    "from"; "group"; "having"; "in"; "index"; "insert"; "intersect";
    "into"; "is"; "isnull"; "join"; "limit"; "not"; "notnull"; "null";
    "on"; "or"; "order"; "primary"; "references"; "select"; "set";
    "table"; "then"; "to"; "transaction"; "union"; "unique"; "update";
    "using"; "values"; "when"; "where" ]%string.

(** A word that can name a table or a column. *)
Definition isName (w : gostring) : bool :=
  match w with
  | [] => false
  | c :: _ =>
    negb (GoUnicode.between 0x30 0x39 (byteval c))
    && negb (existsb (isKeyword w) reserved)
  end.

Definition isSym (t : Token) (c : ascii) : bool :=
  match t with
  | TSym d => bool_decide (d = c)
  | TWord _ => false
  end.

Inductive Stmt : Type :=
| DropTableIfExists (table : gostring)
| CreateTable (table : gostring) (columns : list gostring)
| InsertInto (table : gostring) (columns : list gostring) (params : nat)
| SelectAllFrom (table : gostring).

(** [name , name , ... )] *)
Fixpoint parseNames (ts : list Token) : option (list gostring * list Token) :=
  match ts with
  | TWord n :: sep :: rest =>
    if negb (isName n) then None
    else if isSym sep ")" then Some ([n], rest)
    else if isSym sep "," then
      match parseNames rest with
      | Some (ns, rest') => Some (n :: ns, rest')
      | None => None
      end
    else None
  | _ => None
  end.

(** [? , ? , ... )] *)
Fixpoint parseParams (ts : list Token) : option nat :=
  match ts with
  | q :: sep :: rest =>
    if negb (isSym q "?") then None
    else if isSym sep ")" then
      match rest with [] => Some 1%nat | _ => None end
    else if isSym sep "," then S <$> parseParams rest
    else None
  | _ => None
  end.

Definition parse (ts : list Token) : option Stmt :=
  match ts with
  | [TWord k1; TWord k2; TWord k3; TWord k4; TWord t] =>
    if isKeyword k1 "drop" && isKeyword k2 "table" && isKeyword k3 "if"
       && isKeyword k4 "exists" && isName t
    then Some (DropTableIfExists t) else None
  | [TWord k1; TSym star; TWord k2; TWord t] =>
    if isKeyword k1 "select" && bool_decide (star = "*"%char)
       && isKeyword k2 "from" && isName t
    then Some (SelectAllFrom t) else None
  | TWord k1 :: TWord k2 :: TWord t :: TSym open :: rest =>
    if negb (bool_decide (open = "("%char) && isName t) then None
    else if isKeyword k1 "create" && isKeyword k2 "table" then
      match parseNames rest with
      | Some (cols, []) => Some (CreateTable t cols)
      | _ => None
      end
    else if isKeyword k1 "insert" && isKeyword k2 "into" then
      match parseNames rest with
      | Some (cols, TWord k3 :: TSym open' :: rest') =>
        if isKeyword k3 "values" && bool_decide (open' = "("%char)
        then InsertInto t cols <$> parseParams rest'
        else None
      | _ => None
      end
    else None
  | _ => None
  end.

(** *** SQL: tables *)

Record Table : Type := mkTable {
  columns : list gostring;
  rows : list (list (option gostring))
}.

Definition position (name : gostring) (names : list gostring) : option nat :=
  fst <$> list_find (fun n => lower n = lower name) names.

(** The row an insert stores: for each column of the table, the
    argument bound to that column, NULL when the statement does not
    name it. *)
Definition storedRow (tcols cols : list gostring)
    (args : list (option gostring)) : list (option gostring) :=
  map (fun c => match position c cols with
                | Some i => default None (args !! i)
                | None => None
                end) tcols.

Definition hasDuplicates (names : list gostring) : bool :=
  negb (bool_decide (NoDup (map lower names))).

Definition run (d : gmap gostring Table) (s : Stmt)
    (args : list (option gostring)) : gmap gostring Table * option error :=
  match s with
  | DropTableIfExists t => (delete (lower t) d, None)
  | CreateTable t cols =>
    match d !! lower t with
    | Some _ => (d, Some (str "table " ++ t ++ str " already exists"))
    | None =>
      if hasDuplicates cols
      then (d, Some (str "duplicate column name"))
      else (<[lower t := mkTable cols []]> d, None)
    end
  | InsertInto t cols params =>
    match d !! lower t with
    | None => (d, Some (str "no such table: " ++ t))
    | Some tb =>
      if negb (length cols =? params)%nat
      then (d, Some (str "values for columns: count mismatch"))
      else if negb (forallb (fun c => bool_decide
                               (is_Some (position c (columns tb)))) cols)
      then (d, Some (str "table " ++ t ++ str " has no column named"))
      else if (length args <? params)%nat
      then (d, Some (str "not enough args to execute query"))
      else (<[lower t := mkTable (columns tb)
                           (rows tb ++ [storedRow (columns tb) cols args])]> d,
            None)
    end
  | SelectAllFrom _ => (d, Some (str "not an exec statement"))
  end.

Definition syntaxError (d : gmap gostring Table)
  : gmap gostring Table * option error :=
  (d, Some (str "syntax error")).

Definition exec (d : gmap gostring Table) (query : gostring)
    (args : list (option gostring)) : gmap gostring Table * option error :=
  match parse (tokens [] query) with
  | None => syntaxError d
  | Some s => run d s args
  end.

Definition scanned (v : option gostring) : NullString :=
  match v with
  | Some s => mkNullString s true
  | None => mkNullString [] false
  end.

Definition query (d : gmap gostring Table) (q : gostring)
  : gmap gostring Table * Try Rows :=
  match parse (tokens [] q) with
  | Some (SelectAllFrom t) =>
    match d !! lower t with
    | Some tb => (d, Val (mkRows (Val (columns tb))
                                 (map (fun r => Val (map scanned r))
                                      (rows tb))))
    | None => (d, Err (str "no such table: " ++ t))
    end
  | _ => (d, Err (str "reference engine: unsupported query"))
  end.

Definition sql : SqlEngine :=
  {| DB := gmap gostring Table; emptyDB := ∅;
     Exec := exec; Query := query |}.

(** The rows an ingestion adds to a table with columns [tcols]: one
    per record, from the values of its insert. *)
Definition ingested (tcols names : list gostring) (fieldCount : nat)
    (records : list (list gostring)) : list (list (option gostring)) :=
  map (fun r => storedRow tcols names (insertValues fieldCount r)) records.

(** The records as rows of [fieldCount] values: the fields of each,
    padded with NULL or cut at [fieldCount]. *)
Definition paddedRows (fieldCount : nat) (records : list (list gostring))
  : list (list (option gostring)) :=
  map (fun r => take fieldCount (insertValues fieldCount r)) records.

(** A table name written as a bare identifier. *)
Definition isIdentifier (name : gostring) : bool :=
  forallb isIdChar name && isName name.

(** A column list the parser accepts. *)
Definition okNames (names : list gostring) : bool :=
  match names with
  | [] => false
  | _ => forallb isName names
  end.

(** The tokens of a column list and its closing parenthesis. *)
Fixpoint namesTokens (names : list gostring) : list Token :=
  match names with
  | [] => [TSym ")"]
  | [n] => flush n ++ [TSym ")"]
  | n :: rest => flush n ++ [TSym ","] ++ namesTokens rest
  end.

End Reference.

(** *** Output as the specification words it *)

(** The bytes one [Write] adds to the buffer. *)
Definition rowBytes `{CsvCodec} (w : OutputWriter) (ss : list gostring)
  : gostring :=
  match w with
  | CSVWriter _ => csvRecord ss
  | PlainTextWriter _ => plainTextRow ss
  end.

(** The rows a query puts out: the column names first when header
    emission is on, then the data rows in cursor order. *)
Definition outputRows (headersOn : bool) (columns : list gostring)
    (values : list (list NullString)) : list (list gostring) :=
  if headersOn then columns :: map asStrings values
  else map asStrings values.

(** *** A recording engine

    An engine on which every statement succeeds and whose database is
    the list of the statements executed so far, with their arguments:
    running the program on it shows what the program sends. *)

Module Recorder.

Definition sql : SqlEngine :=
  {| DB := list (gostring * list (option gostring));
     emptyDB := [];
     Exec := fun d query args => (d ++ [(query, args)], None);
     Query := fun d _ => (d, Err (str "recorder: no result sets")) |}.

End Recorder.

(** *** Notions used by the properties *)

(** The text [sub] occurs in [s]. *)
Definition hasSubstring (s sub : gostring) : Prop :=
  exists before after, s = before ++ sub ++ after.

(** The state in which [createTableFromReader] issues [create table]:
    the initial one, or the one a successful drop leaves in replace
    mode; [None] when the drop fails. *)
Definition stateAtCreate `{SqlEngine} (db tableName : gostring) (σ : State)
  : option State :=
  if Replacing σ then
    match Exec (database db σ) (dropTableStmt tableName) [] with
    | (d, None) => Some (setDatabase db d σ)
    | (_, Some _) => None
    end
  else Some σ.

Definition logWarning `{SqlEngine} (m : LogMsg) (σ : State) : State :=
  mkState (files σ) (stdin σ) (stdout σ) (logged σ ++ [m]) (databases σ)
          (HeadersOn σ) (Replacing σ) (WritePlainText σ).

(** The state after the [create table] step, by its result: an error
    that lets the ingestion go on has been logged as a warning. *)
Definition afterCreate `{SqlEngine} (tableName : gostring)
    (err : option error) (σ : State) : State :=
  match err with
  | None => σ
  | Some _ => logWarning (MsgTableExists tableName) σ
  end.

(** A token that matches no rule of the dispatcher: not a recognized
    flag, not ending in [.csv] or [.sql], not [stdin], not starting
    with [select]. *)
Definition matchesNoRule (arg : gostring) : bool :=
  negb (eqs arg "--plain-text" || eqs arg "--plain" || eqs arg "--text"
        || eqs arg "--replace" || eqs arg "--db" || eqs arg "--table"
        || eqs arg "--no-headers" || eqs arg "--no-header"
        || eqs arg "--headers"
        || HasSuffix arg (str ".csv") || HasSuffix arg (str ".sql")
        || eqs arg "stdin" || HasPrefix arg (str "select")).

(** *** Classes of bytes *)

(** A byte that is an ASCII letter, an ASCII digit or an underscore. *)
Definition wordByte (c : ascii) : bool :=
  let b := byteval c in
  GoUnicode.between 0x30 0x39 b || GoUnicode.between 0x41 0x5A b
  || GoUnicode.between 0x61 0x7A b || (b =? 0x5F).

(** A byte a sanitized name can hold: a [wordByte], or a byte of the
    encoding of a rune outside ASCII. *)
Definition nameByte (c : ascii) : bool :=
  wordByte c || (0x80 <=? byteval c).

(** *** What an action leaves alone *)

(** The action [m] leaves the component [f] of the state as it was,
    however it ends. *)
Definition keeps {E : SqlEngine} {X A : Type} (f : State -> X) (m : M A)
  : Prop :=
  forall σ, f (finalState (m σ)) = f σ.

(** The replace flag and the plain-text flag, where set in [σ], are
    set in [σ']. *)
Definition flagsKept {E : SqlEngine} (σ σ' : State) : bool :=
  implb (Replacing σ) (Replacing σ')
  && implb (WritePlainText σ) (WritePlainText σ').

(** The state with the header flag at [b]. *)
Definition withHeadersOn {E : SqlEngine} (b : bool) (σ : State) : State :=
  mkState (files σ) (stdin σ) (stdout σ) (logged σ) (databases σ) b
          (Replacing σ) (WritePlainText σ).

(** An outcome with its state changed by [g]. *)
Definition mapState {S A : Type} (g : S -> S) (r : Result S A)
  : Result S A :=
  match r with
  | Returns a σ => Returns a (g σ)
  | Fatal m σ => Fatal m (g σ)
  | Panics p σ => Panics p (g σ)
  end.

(** The fields of a record as a row of [fieldCount] columns: padded
    with empty fields, or cut. *)
Definition paddedFields (fieldCount : nat) (record : list gostring)
  : list gostring :=
  take fieldCount (record ++ repeat [] (fieldCount - length record)).

(** *** Tables as the specification words them *)

(** The table a statement names on the reference engine when
    [tableName] is written into it: the one word [tableName] consists
    of (blanks around it apart), if that word can name a table. *)
Definition tableWord (tableName : gostring) : option gostring :=
  match Reference.tokens [] tableName with
  | [Reference.TWord w] => if Reference.isName w then Some w else None
  | _ => None
  end.

(** A record as a stored row of [fieldCount] values: the value at
    position [i] is field [i] of the record, NULL where the record has
    no such field. *)
Definition rowOf (fieldCount : nat) (record : list gostring)
  : list (option gostring) :=
  map (fun i => record !! i) (seq 0 fieldCount).

(** A record as a row of a table with the columns [tcols], under a
    header [names]: the value of a column is the field of the record
    at the position of that column's name in the header, NULL when
    the header does not name the column or the record has no such
    field. *)
Definition rowInto (tcols names : list gostring) (record : list gostring)
  : list (option gostring) :=
  map (fun c => match Reference.position c names with
                | Some i => record !! i
                | None => None
                end) tcols.

(** *** An engine with SQLite's temporary schema

    The reference engine with two schemas.  SQLite looks an
    unqualified table name up in the temporary schema first, then in
    the main one; [create table] makes a table of the main schema and
    fails when the main schema has one of that name;
    [create temp table] makes a table of the temporary schema.
    [db.Query] runs whatever statement it is given. *)

Module Shadowed.
Import Reference.

Record Schemas : Type := mkSchemas {
  tempSchema : gmap gostring Table;
  mainSchema : gmap gostring Table
}.

(** [create temp table name (column, ...)] *)
Definition parseCreateTemp (ts : list Token)
  : option (gostring * list gostring) :=
  match ts with
  | TWord k1 :: TWord k2 :: TWord k3 :: TWord t :: TSym open :: rest =>
    if isKeyword k1 "create" && isKeyword k2 "temp" && isKeyword k3 "table"
       && bool_decide (open = "("%char) && isName t
    then match parseNames rest with
         | Some (cols, []) => Some (t, cols)
         | _ => None
         end
    else None
  | _ => None
  end.

Definition exec (d : Schemas) (query : gostring)
    (args : list (option gostring)) : Schemas * option error :=
  match parse (tokens [] query) with
  | Some (DropTableIfExists t) =>
    match tempSchema d !! lower t with
    | Some _ => (mkSchemas (delete (lower t) (tempSchema d)) (mainSchema d), None)
    | None => (mkSchemas (tempSchema d) (delete (lower t) (mainSchema d)), None)
    end
  | Some (CreateTable t cols) =>
    let '(m, e) := run (mainSchema d) (CreateTable t cols) args in
    (mkSchemas (tempSchema d) m, e)
  | Some (InsertInto t cols params) =>
    match tempSchema d !! lower t with
    | Some _ =>
      let '(tm, e) := run (tempSchema d) (InsertInto t cols params) args in
      (mkSchemas tm (mainSchema d), e)
    | None =>
      let '(m, e) := run (mainSchema d) (InsertInto t cols params) args in
      (mkSchemas (tempSchema d) m, e)
    end
  | Some (SelectAllFrom _) => (d, Some (str "not an exec statement"))
  | None => (d, Some (str "syntax error"))
  end.

Definition query (d : Schemas) (q : gostring) : Schemas * Try Rows :=
  match parseCreateTemp (tokens [] q) with
  | Some (t, cols) =>
    match tempSchema d !! lower t with
    | Some _ => (d, Err (str "table " ++ t ++ str " already exists"))
    | None =>
      if hasDuplicates cols then (d, Err (str "duplicate column name"))
      else (mkSchemas (<[lower t := mkTable cols []]> (tempSchema d)) (mainSchema d),
            Val (mkRows (Val []) []))
    end
  | None => (d, snd (Reference.query (tempSchema d ∪ mainSchema d) q))
  end.

Definition sql : SqlEngine :=
  {| DB := Schemas; emptyDB := mkSchemas ∅ ∅;
     Exec := exec; Query := query |}.

End Shadowed.

(** *** An engine whose result sets fail

    By the text of the query: the column names cannot be had, or the
    second of three rows fails to scan, or the query is rejected. *)

Module Faulty.

Definition query (d : unit) (q : gostring) : unit * Try Rows :=
  if bool_decide (q = str "select columns")
  then (d, Val (mkRows (Err (str "no columns")) []))
  else if bool_decide (q = str "select rows")
  then (d, Val (mkRows (Val [str "a"])
                       [Val [mkNullString (str "1") true];
                        Err (str "bad row");
                        Val [mkNullString (str "3") true]]))
  else (d, Err (str "rejected")).

Definition sql : SqlEngine :=
  {| DB := unit; emptyDB := tt;
     Exec := fun d _ _ => (d, None); Query := query |}.

End Faulty.

(* ===================================================================== *)
(** * Properties *)
(* ===================================================================== *)

(** ** Bytes and bit arithmetic *)

Lemma byteval_range c : 0 <= byteval c < 256.
Proof.
  unfold byteval. pose proof (N_ascii_bounded c). lia.
Qed.

Lemma byteval_mkbyte z : 0 <= z < 256 -> byteval (mkbyte z) = z.
Proof.
  intros Hz. unfold byteval, mkbyte.
  rewrite N_ascii_embedding by lia. lia.
Qed.

Lemma mkbyte_byteval c : mkbyte (byteval c) = c.
Proof.
  unfold byteval, mkbyte. rewrite N2Z.id. apply ascii_N_embedding.
Qed.

Lemma byteval_inj c d : byteval c = byteval d -> c = d.
Proof.
  intros H. rewrite <- (mkbyte_byteval c), <- (mkbyte_byteval d).
  now rewrite H.
Qed.

Lemma lor_shiftl_add hi lo n :
  0 <= n -> 0 <= hi -> 0 <= lo < 2 ^ n ->
  Z.lor (Z.shiftl hi n) lo = hi * 2 ^ n + lo.
Proof.
  intros Hn Hhi Hlo.
  assert (Hdisj : Z.land (Z.shiftl hi n) lo = 0).
  { apply Z.bits_inj'. intros i Hi.
    rewrite Z.land_spec, Z.bits_0.
    destruct (Z_lt_le_dec i n) as [Hlt|Hge].
    - rewrite Z.shiftl_spec_low by lia. reflexivity.
    - destruct (Z.eq_dec lo 0) as [->|Hne].
      + rewrite Z.bits_0. apply andb_false_r.
      + rewrite (Z.bits_above_log2 lo i); [apply andb_false_r| lia |].
        apply Z.log2_lt_pow2; [lia|].
        apply Z.lt_le_trans with (2 ^ n); [lia|].
        apply Z.pow_le_mono_r; lia. }
  rewrite <- Z.lxor_lor by exact Hdisj.
  rewrite <- Z.add_nocarry_lxor by exact Hdisj.
  rewrite Z.shiftl_mul_pow2 by lia. reflexivity.
Qed.

Lemma land_low z n : 0 <= n -> Z.land z (Z.ones n) = z mod 2 ^ n.
Proof. intros. apply Z.land_ones. lia. Qed.

Ltac divmod := Z.to_euclidean_division_equations; lia.

Lemma lor_add_low a b n :
  0 <= n -> 0 <= a -> a mod 2 ^ n = 0 -> 0 <= b < 2 ^ n ->
  Z.lor a b = a + b.
Proof.
  intros Hn Ha Hmod Hb.
  assert (H2 : 0 < 2 ^ n) by (apply Z.pow_pos_nonneg; lia).
  assert (Hdiv : a = a / 2 ^ n * 2 ^ n).
  { pose proof (Z.div_mod a (2 ^ n)). lia. }
  rewrite Hdiv at 1. rewrite <- Z.shiftl_mul_pow2 by lia.
  rewrite lor_shiftl_add; [lia | lia | | lia].
  apply Z.div_pos; lia.
Qed.

Ltac bits_to_arith :=
  rewrite ?Z.shiftl_mul_pow2, ?Z.shiftr_div_pow2 by lia;
  change (2 ^ 6) with 64; change (2 ^ 12) with 4096;
  change (2 ^ 18) with 262144.

(** Masking and shifting, read as arithmetic on the accepted ranges. *)
Lemma rune2_arith b0 b1 :
  0xC0 <= b0 <= 0xDF -> 0x80 <= b1 <= 0xBF ->
  GoUtf8.rune2 b0 b1 = (b0 - 0xC0) * 64 + (b1 - 0x80).
Proof.
  intros H0 H1. unfold GoUtf8.rune2.
  change 0x1F with (Z.ones 5). change 0x3F with (Z.ones 6).
  rewrite !land_low by lia. change (2 ^ 5) with 32. bits_to_arith.
  rewrite (lor_add_low _ _ 6); [ divmod | lia | divmod | divmod | divmod ].
Qed.

Lemma rune3_arith b0 b1 b2 :
  0xE0 <= b0 <= 0xEF -> 0x80 <= b1 <= 0xBF -> 0x80 <= b2 <= 0xBF ->
  GoUtf8.rune3 b0 b1 b2
  = (b0 - 0xE0) * 4096 + (b1 - 0x80) * 64 + (b2 - 0x80).
Proof.
  intros H0 H1 H2. unfold GoUtf8.rune3.
  change 0x0F with (Z.ones 4). change 0x3F with (Z.ones 6).
  rewrite !land_low by lia. change (2 ^ 4) with 16. bits_to_arith.
  rewrite (lor_add_low (_ * 4096) _ 12);
    [ | lia | divmod | divmod | divmod ].
  rewrite (lor_add_low _ _ 6); [ divmod | lia | divmod | divmod | divmod ].
Qed.

Lemma rune4_arith b0 b1 b2 b3 :
  0xF0 <= b0 <= 0xF7 -> 0x80 <= b1 <= 0xBF -> 0x80 <= b2 <= 0xBF ->
  0x80 <= b3 <= 0xBF ->
  GoUtf8.rune4 b0 b1 b2 b3
  = (b0 - 0xF0) * 262144 + (b1 - 0x80) * 4096 + (b2 - 0x80) * 64
    + (b3 - 0x80).
Proof.
  intros H0 H1 H2 H3. unfold GoUtf8.rune4.
  change 0x07 with (Z.ones 3). change 0x3F with (Z.ones 6).
  rewrite !land_low by lia. change (2 ^ 3) with 8. bits_to_arith.
  rewrite (lor_add_low (_ * 262144) _ 18);
    [ | lia | divmod | divmod | divmod ].
  rewrite (lor_add_low _ (_ * 64) 12);
    [ | lia | divmod | divmod | divmod ].
  rewrite (lor_add_low _ _ 6); [ divmod | lia | divmod | divmod | divmod ].
Qed.

(** ** UTF-8: decoding yields valid runes, and undoes encoding *)

Ltac zbool :=
  repeat match goal with
  | |- context [?a <? ?b] => destruct (Z.ltb_spec a b); try lia
  | |- context [?a <=? ?b] => destruct (Z.leb_spec a b); try lia
  | |- context [?a =? ?b] => destruct (Z.eqb_spec a b); try lia
  end.

Lemma accepts_range b0 b1 :
  GoUtf8.accepts b0 b1 = true ->
  0x80 <= b1 <= 0xBF
  /\ (b0 = 0xE0 -> 0xA0 <= b1) /\ (b0 = 0xF0 -> 0x90 <= b1)
  /\ (b0 = 0xED -> b1 <= 0x9F) /\ (b0 = 0xF4 -> b1 <= 0x8F).
Proof.
  unfold GoUtf8.accepts, GoUtf8.acceptLo, GoUtf8.acceptHi.
  rewrite andb_true_iff, !Z.leb_le. zbool.
Qed.

Lemma isCont_range b : GoUtf8.isCont b = true -> 0x80 <= b <= 0xBF.
Proof.
  unfold GoUtf8.isCont. rewrite andb_true_iff, !Z.leb_le. lia.
Qed.

Lemma RuneError_valid : GoUtf8.ValidRune GoUtf8.RuneError.
Proof. unfold GoUtf8.ValidRune, GoUtf8.RuneError, GoUtf8.MaxRune. lia. Qed.

(** One decoding step: a valid rune and a strictly shorter rest. *)
Lemma decodeRunes_step c0 t0 :
  exists r t',
    GoUtf8.decodeRunes (c0 :: t0) = r :: GoUtf8.decodeRunes t'
    /\ GoUtf8.ValidRune r /\ (length t' <= length t0)%nat.
Proof.
  pose proof (byteval_range c0) as Hb0.
  assert (Hinv : exists r t',
             GoUtf8.RuneError :: GoUtf8.decodeRunes t0
             = r :: GoUtf8.decodeRunes t'
             /\ GoUtf8.ValidRune r /\ (length t' <= length t0)%nat).
  { exists GoUtf8.RuneError, t0. auto using RuneError_valid. }
  cbn [GoUtf8.decodeRunes].
  destruct (Z.ltb_spec (byteval c0) GoUtf8.RuneSelf) as [Hlt|Hge].
  { exists (byteval c0), t0. split; [reflexivity|]. split; [|lia].
    left. unfold GoUtf8.RuneSelf in Hlt. lia. }
  unfold GoUtf8.RuneSelf in Hge.
  destruct ((0xC2 <=? byteval c0) && (byteval c0 <=? 0xDF)) eqn:H2.
  { apply andb_true_iff in H2 as [Hlo Hhi].
    apply Z.leb_le in Hlo, Hhi.
    destruct t0 as [|c1 t1]; [exact Hinv|].
    destruct (GoUtf8.accepts _ _) eqn:Hacc; [|exact Hinv].
    apply accepts_range in Hacc as (Hc1 & _).
    exists (GoUtf8.rune2 (byteval c0) (byteval c1)), t1.
    split; [reflexivity|]. split; [|simpl; lia].
    rewrite rune2_arith by lia. left. lia. }
  destruct ((0xE0 <=? byteval c0) && (byteval c0 <=? 0xEF)) eqn:H3.
  { apply andb_true_iff in H3 as [Hlo Hhi].
    apply Z.leb_le in Hlo, Hhi.
    destruct t0 as [|c1 [|c2 t2]]; [exact Hinv..|].
    destruct (GoUtf8.accepts _ _ && _) eqn:Hacc; [|exact Hinv].
    apply andb_true_iff in Hacc as [Hacc Hc2].
    apply accepts_range in Hacc as (Hc1 & HE0 & _ & HED & _).
    apply isCont_range in Hc2.
    exists (GoUtf8.rune3 (byteval c0) (byteval c1) (byteval c2)), t2.
    split; [reflexivity|]. split; [|simpl; lia].
    rewrite rune3_arith by lia. unfold GoUtf8.ValidRune, GoUtf8.MaxRune.
    destruct (Z.eq_dec (byteval c0) 0xED) as [E|E]; [specialize (HED E)|];
      lia. }
  destruct ((0xF0 <=? byteval c0) && (byteval c0 <=? 0xF4)) eqn:H4.
  { apply andb_true_iff in H4 as [Hlo Hhi].
    apply Z.leb_le in Hlo, Hhi.
    destruct t0 as [|c1 [|c2 [|c3 t3]]]; [exact Hinv..|].
    destruct (GoUtf8.accepts _ _ && _ && _) eqn:Hacc; [|exact Hinv].
    apply andb_true_iff in Hacc as [Hacc Hc3].
    apply andb_true_iff in Hacc as [Hacc Hc2].
    apply accepts_range in Hacc as (Hc1 & _ & HF0 & _ & HF4).
    apply isCont_range in Hc2, Hc3.
    exists (GoUtf8.rune4 (byteval c0) (byteval c1) (byteval c2)
                         (byteval c3)), t3.
    split; [reflexivity|]. split; [|simpl; lia].
    rewrite rune4_arith by lia. unfold GoUtf8.ValidRune, GoUtf8.MaxRune.
    destruct (Z.eq_dec (byteval c0) 0xF0) as [E|E]; [specialize (HF0 E)|];
      destruct (Z.eq_dec (byteval c0) 0xF4) as [E'|E'];
      [specialize (HF4 E')| |specialize (HF4 E')|]; lia. }
  exact Hinv.
Qed.

Lemma decodeRunes_valid s : Forall GoUtf8.ValidRune (GoUtf8.decodeRunes s).
Proof.
  remember (length s) as n eqn:Hn.
  revert s Hn. induction n as [n IH] using lt_wf_ind. intros s Hn.
  destruct s as [|c0 t0]; [constructor|].
  destruct (decodeRunes_step c0 t0) as (r & t' & -> & Hr & Hlen).
  constructor; [exact Hr|].
  apply (IH (length t')); [simpl in Hn; lia | reflexivity].
Qed.

(** Encoding, read as arithmetic. *)
Lemma lor_const_low k n x :
  0 <= n -> 0 <= k -> k mod 2 ^ n = 0 -> 0 <= x < 2 ^ n ->
  Z.lor k x = k + x.
Proof. intros. now apply (lor_add_low k x n). Qed.

Lemma cont_byte_arith x :
  0 <= x -> byteval (mkbyte (Z.lor 0x80 (Z.land x 0x3F))) = 0x80 + x mod 64.
Proof.
  intros Hx. change 0x3F with (Z.ones 6). rewrite land_low by lia.
  change (2 ^ 6) with 64.
  rewrite (lor_const_low 0x80 6); [ | lia | lia | reflexivity | divmod ].
  apply byteval_mkbyte. divmod.
Qed.

Lemma lead_byte_arith k n x :
  0 <= n -> 0 <= k -> k mod 2 ^ n = 0 -> 0 <= x < 2 ^ n -> k + x < 256 ->
  byteval (mkbyte (Z.lor k x)) = k + x.
Proof.
  intros. rewrite (lor_const_low k n) by assumption.
  apply byteval_mkbyte. lia.
Qed.

Lemma lead2_arith r :
  0x80 <= r <= 0x7FF ->
  byteval (mkbyte (Z.lor 0xC0 (Z.shiftr r 6))) = 0xC0 + r / 64.
Proof.
  intros Hr. rewrite Z.shiftr_div_pow2 by lia. change (2 ^ 6) with 64.
  apply (lead_byte_arith 0xC0 6); try reflexivity; try lia; divmod.
Qed.

Lemma lead3_arith r :
  0x800 <= r <= 0xFFFF ->
  byteval (mkbyte (Z.lor 0xE0 (Z.shiftr r 12))) = 0xE0 + r / 4096.
Proof.
  intros Hr. rewrite Z.shiftr_div_pow2 by lia. change (2 ^ 12) with 4096.
  apply (lead_byte_arith 0xE0 4); try reflexivity; try lia; divmod.
Qed.

Lemma lead4_arith r :
  0x10000 <= r <= 0x10FFFF ->
  byteval (mkbyte (Z.lor 0xF0 (Z.shiftr r 18))) = 0xF0 + r / 262144.
Proof.
  intros Hr. rewrite Z.shiftr_div_pow2 by lia. change (2 ^ 18) with 262144.
  apply (lead_byte_arith 0xF0 3); try reflexivity; try lia; divmod.
Qed.

Lemma cont_shift_arith r n :
  0 <= r -> 0 <= n ->
  byteval (mkbyte (Z.lor 0x80 (Z.land (Z.shiftr r n) 0x3F)))
  = 0x80 + (r / 2 ^ n) mod 64.
Proof.
  intros Hr Hn. rewrite Z.shiftr_div_pow2 by lia.
  apply cont_byte_arith. apply Z.div_pos; [lia|].
  apply Z.pow_pos_nonneg; lia.
Qed.

(** Decoding a well-formed sequence of each width. *)
Lemma decode_1 c t :
  byteval c < 0x80 ->
  GoUtf8.decodeRunes (c :: t) = byteval c :: GoUtf8.decodeRunes t.
Proof.
  intros H. cbn [GoUtf8.decodeRunes]. unfold GoUtf8.RuneSelf.
  destruct (Z.ltb_spec (byteval c) 0x80); [reflexivity|lia].
Qed.

Lemma accepts_intro b0 b1 :
  0x80 <= b1 <= 0xBF ->
  (b0 = 0xE0 -> 0xA0 <= b1) -> (b0 = 0xF0 -> 0x90 <= b1) ->
  (b0 = 0xED -> b1 <= 0x9F) -> (b0 = 0xF4 -> b1 <= 0x8F) ->
  GoUtf8.accepts b0 b1 = true.
Proof.
  intros. unfold GoUtf8.accepts, GoUtf8.acceptLo, GoUtf8.acceptHi.
  apply andb_true_iff. rewrite !Z.leb_le. zbool.
Qed.

Lemma isCont_intro b : 0x80 <= b <= 0xBF -> GoUtf8.isCont b = true.
Proof.
  intros. unfold GoUtf8.isCont. apply andb_true_iff.
  rewrite !Z.leb_le. lia.
Qed.

Lemma between_true lo hi x : lo <= x <= hi -> (lo <=? x) && (x <=? hi) = true.
Proof. intros. apply andb_true_iff. rewrite !Z.leb_le. lia. Qed.

Lemma between_false lo hi x :
  x < lo \/ hi < x -> (lo <=? x) && (x <=? hi) = false.
Proof. intros. apply andb_false_iff. rewrite !Z.leb_gt. lia. Qed.

Lemma decode_2 c0 c1 t :
  0xC2 <= byteval c0 <= 0xDF -> 0x80 <= byteval c1 <= 0xBF ->
  GoUtf8.decodeRunes (c0 :: c1 :: t)
  = GoUtf8.rune2 (byteval c0) (byteval c1) :: GoUtf8.decodeRunes t.
Proof.
  intros H0 H1. cbn [GoUtf8.decodeRunes]. unfold GoUtf8.RuneSelf.
  destruct (Z.ltb_spec (byteval c0) 0x80); [lia|].
  rewrite between_true by lia.
  rewrite accepts_intro by lia. reflexivity.
Qed.

Lemma decode_3 c0 c1 c2 t :
  0xE0 <= byteval c0 <= 0xEF -> 0x80 <= byteval c1 <= 0xBF ->
  (byteval c0 = 0xE0 -> 0xA0 <= byteval c1) ->
  (byteval c0 = 0xED -> byteval c1 <= 0x9F) ->
  0x80 <= byteval c2 <= 0xBF ->
  GoUtf8.decodeRunes (c0 :: c1 :: c2 :: t)
  = GoUtf8.rune3 (byteval c0) (byteval c1) (byteval c2)
    :: GoUtf8.decodeRunes t.
Proof.
  intros H0 H1 HE0 HED H2. cbn [GoUtf8.decodeRunes]. unfold GoUtf8.RuneSelf.
  destruct (Z.ltb_spec (byteval c0) 0x80); [lia|].
  rewrite (between_false 0xC2) by lia. rewrite between_true by lia.
  rewrite accepts_intro, isCont_intro by lia. reflexivity.
Qed.

Lemma decode_4 c0 c1 c2 c3 t :
  0xF0 <= byteval c0 <= 0xF4 -> 0x80 <= byteval c1 <= 0xBF ->
  (byteval c0 = 0xF0 -> 0x90 <= byteval c1) ->
  (byteval c0 = 0xF4 -> byteval c1 <= 0x8F) ->
  0x80 <= byteval c2 <= 0xBF -> 0x80 <= byteval c3 <= 0xBF ->
  GoUtf8.decodeRunes (c0 :: c1 :: c2 :: c3 :: t)
  = GoUtf8.rune4 (byteval c0) (byteval c1) (byteval c2) (byteval c3)
    :: GoUtf8.decodeRunes t.
Proof.
  intros H0 H1 HF0 HF4 H2 H3. cbn [GoUtf8.decodeRunes].
  unfold GoUtf8.RuneSelf.
  destruct (Z.ltb_spec (byteval c0) 0x80); [lia|].
  rewrite (between_false 0xC2), (between_false 0xE0) by lia.
  rewrite between_true by lia.
  rewrite accepts_intro, !isCont_intro by lia. reflexivity.
Qed.

(** The four shapes of [EncodeRune] on valid runes. *)
Lemma EncodeRune_1 r : 0 <= r < 0x80 -> GoUtf8.EncodeRune r = [mkbyte r].
Proof.
  intros H. unfold GoUtf8.EncodeRune, GoUtf8.RuneSelf.
  rewrite (proj2 (Z.leb_le 0 r)), (proj2 (Z.ltb_lt r 0x80)) by lia.
  reflexivity.
Qed.

Lemma EncodeRune_2 r :
  0x80 <= r <= 0x7FF ->
  GoUtf8.EncodeRune r
  = [ mkbyte (Z.lor 0xC0 (Z.shiftr r 6));
      mkbyte (Z.lor 0x80 (Z.land r 0x3F)) ].
Proof.
  intros H. unfold GoUtf8.EncodeRune, GoUtf8.RuneSelf.
  rewrite (proj2 (Z.leb_le 0 r)), (proj2 (Z.ltb_ge r 0x80)) by lia.
  rewrite (proj2 (Z.leb_le r 0x7FF)) by lia. reflexivity.
Qed.

Lemma EncodeRune_3 r :
  0x800 <= r <= 0xFFFF -> ~ (0xD800 <= r <= 0xDFFF) ->
  GoUtf8.EncodeRune r = GoUtf8.encode3 r.
Proof.
  intros H Hs. unfold GoUtf8.EncodeRune, GoUtf8.RuneSelf, GoUtf8.MaxRune.
  rewrite (proj2 (Z.leb_le 0 r)), (proj2 (Z.ltb_ge r 0x80)) by lia.
  rewrite (proj2 (Z.leb_gt r 0x7FF)) by lia.
  rewrite (proj2 (Z.ltb_ge r 0)), (proj2 (Z.ltb_ge 0x10FFFF r)) by lia.
  rewrite (between_false 0xD800) by lia.
  rewrite (proj2 (Z.leb_le r 0xFFFF)) by lia. reflexivity.
Qed.

Lemma EncodeRune_4 r :
  0x10000 <= r <= 0x10FFFF -> GoUtf8.EncodeRune r = GoUtf8.encode4 r.
Proof.
  intros H. unfold GoUtf8.EncodeRune, GoUtf8.RuneSelf, GoUtf8.MaxRune.
  rewrite (proj2 (Z.leb_le 0 r)), (proj2 (Z.ltb_ge r 0x80)) by lia.
  rewrite (proj2 (Z.leb_gt r 0x7FF)) by lia.
  rewrite (proj2 (Z.ltb_ge r 0)), (proj2 (Z.ltb_ge 0x10FFFF r)) by lia.
  rewrite (between_false 0xD800) by lia.
  rewrite (proj2 (Z.leb_gt r 0xFFFF)) by lia. reflexivity.
Qed.

Lemma decode_encode r rest :
  GoUtf8.ValidRune r ->
  GoUtf8.decodeRunes (GoUtf8.EncodeRune r ++ rest)
  = r :: GoUtf8.decodeRunes rest.
Proof.
  intros Hr. unfold GoUtf8.ValidRune, GoUtf8.MaxRune in Hr.
  destruct (Z_lt_le_dec r 0x80) as [H1|H1].
  { rewrite EncodeRune_1 by lia. cbn [app].
    rewrite decode_1; rewrite byteval_mkbyte by lia; [reflexivity|lia]. }
  destruct (Z_le_gt_dec r 0x7FF) as [H2|H2].
  { rewrite EncodeRune_2 by lia. cbn [app].
    pose proof (lead2_arith r ltac:(lia)) as E0.
    pose proof (cont_shift_arith r 0 ltac:(lia) ltac:(lia)) as E1.
    rewrite Z.shiftr_0_r, Z.pow_0_r, Z.div_1_r in E1.
    rewrite decode_2; rewrite ?E0, ?E1; try divmod.
    rewrite rune2_arith by divmod. f_equal. divmod. }
  destruct (Z_le_gt_dec r 0xFFFF) as [H3|H3].
  { rewrite EncodeRune_3 by lia. unfold GoUtf8.encode3. cbn [app].
    pose proof (lead3_arith r ltac:(lia)) as E0.
    pose proof (cont_shift_arith r 6 ltac:(lia) ltac:(lia)) as E1.
    pose proof (cont_shift_arith r 0 ltac:(lia) ltac:(lia)) as E2.
    rewrite Z.shiftr_0_r, Z.pow_0_r, Z.div_1_r in E2.
    change (2 ^ 6) with 64 in E1.
    rewrite decode_3; rewrite ?E0, ?E1, ?E2; try divmod.
    rewrite rune3_arith by divmod. f_equal. divmod. }
  rewrite EncodeRune_4 by lia. unfold GoUtf8.encode4. cbn [app].
  pose proof (lead4_arith r ltac:(lia)) as E0.
  pose proof (cont_shift_arith r 12 ltac:(lia) ltac:(lia)) as E1.
  pose proof (cont_shift_arith r 6 ltac:(lia) ltac:(lia)) as E2.
  pose proof (cont_shift_arith r 0 ltac:(lia) ltac:(lia)) as E3.
  rewrite Z.shiftr_0_r, Z.pow_0_r, Z.div_1_r in E3.
  change (2 ^ 6) with 64 in E2. change (2 ^ 12) with 4096 in E1.
  rewrite decode_4; rewrite ?E0, ?E1, ?E2, ?E3; try divmod.
  rewrite rune4_arith by divmod. f_equal. divmod.
Qed.

(** Bytes of an encoding: an ASCII rune is its own byte, and every other
    rune is encoded with bytes from [0x80] up. *)
Lemma EncodeRune_bytes r c :
  GoUtf8.ValidRune r -> c ∈ GoUtf8.EncodeRune r ->
  byteval c = r /\ r < 0x80 \/ 0x80 <= byteval c.
Proof.
  intros Hr Hc. unfold GoUtf8.ValidRune, GoUtf8.MaxRune in Hr.
  destruct (Z_lt_le_dec r 0x80) as [H1|H1].
  { rewrite EncodeRune_1 in Hc by lia. apply list_elem_of_singleton in Hc.
    subst c. left. rewrite byteval_mkbyte by lia. lia. }
  right.
  pose proof (cont_shift_arith r 0 ltac:(lia) ltac:(lia)) as E0.
  rewrite Z.shiftr_0_r, Z.pow_0_r, Z.div_1_r in E0.
  pose proof (cont_shift_arith r 6 ltac:(lia) ltac:(lia)) as E6.
  pose proof (cont_shift_arith r 12 ltac:(lia) ltac:(lia)) as E12.
  destruct (Z_le_gt_dec r 0x7FF) as [H2|H2].
  { rewrite EncodeRune_2 in Hc by lia.
    pose proof (lead2_arith r ltac:(lia)) as E.
    set_unfold in Hc. destruct Hc as [->|[->|[]]]; rewrite ?E, ?E0; divmod. }
  destruct (Z_le_gt_dec r 0xFFFF) as [H3|H3].
  { rewrite EncodeRune_3 in Hc by lia. unfold GoUtf8.encode3 in Hc.
    pose proof (lead3_arith r ltac:(lia)) as E.
    set_unfold in Hc.
    destruct Hc as [->|[->|[->|[]]]]; rewrite ?E, ?E0, ?E6; divmod. }
  rewrite EncodeRune_4 in Hc by lia. unfold GoUtf8.encode4 in Hc.
  pose proof (lead4_arith r ltac:(lia)) as E.
  set_unfold in Hc.
  destruct Hc as [->|[->|[->|[->|[]]]]]; rewrite ?E, ?E0, ?E6, ?E12; divmod.
Qed.

(** ** Package [strings]: suffixes, separators *)

Lemma HasSuffix_true s suffix :
  HasSuffix s suffix = true <-> exists p, s = p ++ suffix.
Proof.
  unfold HasSuffix. rewrite andb_true_iff, Nat.leb_le, bool_decide_eq_true.
  split.
  - intros [Hlen Hdrop]. exists (take (length s - length suffix) s).
    transitivity (take (length s - length suffix) s
                  ++ drop (length s - length suffix) s);
      [symmetry; apply take_drop | f_equal; exact Hdrop].
  - intros [p ->]. rewrite length_app. split; [lia|].
    replace (length p + length suffix - length suffix)%nat with (length p)
      by lia.
    apply drop_app_length.
Qed.

Lemma TrimSuffix_app p suffix : TrimSuffix (p ++ suffix) suffix = p.
Proof.
  unfold TrimSuffix.
  rewrite (proj2 (HasSuffix_true (p ++ suffix) suffix)) by eauto.
  rewrite length_app.
  replace (length p + length suffix - length suffix)%nat with (length p)
    by lia.
  apply take_app_length.
Qed.

Lemma TrimSuffix_none s suffix :
  HasSuffix s suffix = false -> TrimSuffix s suffix = s.
Proof. intros H. unfold TrimSuffix. now rewrite H. Qed.

Lemma stripCsv_app p : SpecWords.stripCsv (p ++ str ".csv") = p.
Proof.
  induction p as [|c p IH].
  - reflexivity.
  - cbn [app SpecWords.stripCsv]. rewrite IH.
    rewrite bool_decide_eq_false_2; [reflexivity|].
    intros H. apply (f_equal length) in H.
    rewrite length_cons, length_app in H. simpl in H. lia.
Qed.

Lemma stripCsv_none s :
  HasSuffix s (str ".csv") = false -> SpecWords.stripCsv s = s.
Proof.
  induction s as [|c t IH]; intros H; [reflexivity|].
  cbn [SpecWords.stripCsv].
  destruct (bool_decide_reflect (c :: t = str ".csv")) as [E|E].
  - rewrite E in H. discriminate H.
  - f_equal. apply IH.
    destruct (HasSuffix t (str ".csv")) eqn:Ht; [|reflexivity].
    apply HasSuffix_true in Ht as [p ->].
    rewrite <- H. symmetry. apply HasSuffix_true. now exists (c :: p).
Qed.

(** [TrimSuffix] with [.csv] is the specification's stripping. *)
Lemma TrimSuffix_stripCsv s : TrimSuffix s (str ".csv") = SpecWords.stripCsv s.
Proof.
  destruct (HasSuffix s (str ".csv")) eqn:H.
  - apply HasSuffix_true in H as [p ->].
    now rewrite TrimSuffix_app, stripCsv_app.
  - now rewrite TrimSuffix_none, stripCsv_none.
Qed.

Lemma HasPrefix_byte c d t : HasPrefix (d :: t) [c] = bool_decide (d = c).
Proof.
  unfold HasPrefix. cbn [length take Nat.leb andb].
  destruct (bool_decide_reflect (d = c)) as [->|Hne].
  - now apply bool_decide_eq_true_2.
  - apply bool_decide_eq_false_2. congruence.
Qed.

Lemma Index_byte_absent s c : c ∉ s -> Index s [c] = None.
Proof.
  induction s as [|d t IH]; intros Hc; [reflexivity|].
  cbn [Index]. rewrite HasPrefix_byte.
  apply not_elem_of_cons in Hc as [Hd Ht].
  rewrite bool_decide_eq_false_2 by congruence.
  now rewrite IH.
Qed.

Lemma Index_byte_first pre c post :
  c ∉ pre -> Index (pre ++ c :: post) [c] = Some (length pre).
Proof.
  induction pre as [|d pre IH]; intros Hc.
  - cbn [app Index]. rewrite HasPrefix_byte.
    now rewrite bool_decide_eq_true_2.
  - apply not_elem_of_cons in Hc as [Hd Hpre].
    cbn [app Index]. rewrite HasPrefix_byte.
    rewrite bool_decide_eq_false_2 by congruence.
    now rewrite IH.
Qed.

Lemma split_at_first (c : ascii) (s : gostring) :
  c ∈ s -> exists pre post, s = pre ++ c :: post /\ c ∉ pre.
Proof.
  induction s as [|d t IH]; intros Hc; [now apply elem_of_nil in Hc|].
  destruct (decide (d = c)) as [->|Hne].
  - exists [], t. split; [reflexivity|apply not_elem_of_nil].
  - apply elem_of_cons in Hc as [->|Ht]; [congruence|].
    destruct (IH Ht) as (pre & post & -> & Hpre).
    exists (d :: pre), post. split; [reflexivity|].
    apply not_elem_of_cons. split; [congruence|assumption].
Qed.

Lemma genSplit_nonempty fuel s sep : genSplit fuel s sep <> [].
Proof. destruct fuel; cbn; [|destruct (Index s sep)]; discriminate. Qed.

Lemma Split_nonempty s sep : Split s sep <> [].
Proof. apply genSplit_nonempty. Qed.

Lemma lastSegment_no_slash s :
  SpecWords.slash ∉ s -> SpecWords.lastSegment s = s.
Proof.
  destruct s as [|c t]; intros H; [reflexivity|].
  cbn [SpecWords.lastSegment]. now rewrite bool_decide_eq_false_2.
Qed.

Lemma lastSegment_app pre post :
  SpecWords.lastSegment (pre ++ SpecWords.slash :: post)
  = SpecWords.lastSegment post.
Proof.
  induction pre as [|d pre IH].
  - cbn [app SpecWords.lastSegment].
    rewrite bool_decide_eq_true_2 by apply list_elem_of_here. reflexivity.
  - cbn [app SpecWords.lastSegment].
    rewrite bool_decide_eq_true_2; [exact IH|].
    apply list_elem_of_further, elem_of_app. right. apply list_elem_of_here.
Qed.

Lemma nth_last {A} (l : list A) d : nth (length l - 1) l d = List.last l d.
Proof.
  induction l as [|x [|y l] IH]; [reflexivity..|].
  cbn [length] in *. rewrite Nat.sub_succ, Nat.sub_0_r in *.
  exact IH.
Qed.

(** The last part of [Split s "/"] is the specification's last segment. *)
Lemma genSplit_last fuel s :
  (length s <= fuel)%nat ->
  List.last (genSplit fuel s (str "/")) [] = SpecWords.lastSegment s.
Proof.
  revert s. induction fuel as [|fuel IH]; intros s Hlen.
  - destruct s; [reflexivity|simpl in Hlen; lia].
  - cbn [genSplit].
    destruct (decide (SpecWords.slash ∈ s)) as [Hin|Hout].
    + destruct (split_at_first _ _ Hin) as (pre & post & -> & Hpre).
      change (str "/") with [SpecWords.slash].
      rewrite Index_byte_first by assumption.
      rewrite lastSegment_app.
      change (length [SpecWords.slash]) with 1%nat.
      replace (drop (length pre + 1) (pre ++ SpecWords.slash :: post))
        with post.
      2:{ rewrite drop_app_ge by lia.
          replace (length pre + 1 - length pre)%nat with 1%nat by lia.
          reflexivity. }
      rewrite <- IH.
      2:{ rewrite length_app in Hlen. simpl in Hlen. lia. }
      change (str "/") with [SpecWords.slash].
      pose proof (genSplit_nonempty fuel post [SpecWords.slash]) as Hne.
      destruct (genSplit fuel post [SpecWords.slash]); [congruence|].
      reflexivity.
    + change (str "/") with [SpecWords.slash].
      rewrite Index_byte_absent by assumption.
      now rewrite lastSegment_no_slash.
Qed.

Lemma Split_last_segment s :
  nth (length (Split s (str "/")) - 1) (Split s (str "/")) []
  = SpecWords.lastSegment s.
Proof. rewrite nth_last. now apply genSplit_last. Qed.

(** ** The name sanitizer *)

Section SanitizerFacts.
Context {T : RangeTables}.

Lemma alnumOrUnderscore_valid r :
  GoUtf8.ValidRune r -> GoUtf8.ValidRune (alnumOrUnderscore r).
Proof.
  intros Hr. unfold alnumOrUnderscore.
  destruct (_ || _); [exact Hr|]. left. lia.
Qed.

Lemma alnumOrUnderscore_idem r :
  alnumOrUnderscore (alnumOrUnderscore r) = alnumOrUnderscore r.
Proof.
  unfold alnumOrUnderscore at 2.
  destruct (GoUnicode.IsLetter r || GoUnicode.IsNumber r) eqn:E.
  - unfold alnumOrUnderscore. now rewrite E.
  - unfold alnumOrUnderscore. now destruct (_ || _).
Qed.

(** An ASCII rune the mapping lets through is a letter or a digit. *)
Lemma alnumOrUnderscore_ascii r :
  0 <= r -> alnumOrUnderscore r < 0x80 ->
  alnumOrUnderscore r = 0x5F
  \/ 0x30 <= alnumOrUnderscore r <= 0x39
  \/ 0x41 <= alnumOrUnderscore r <= 0x5A
  \/ 0x61 <= alnumOrUnderscore r <= 0x7A.
Proof.
  unfold alnumOrUnderscore.
  destruct (GoUnicode.IsLetter r || GoUnicode.IsNumber r) eqn:E;
    [|intros _ _; now left].
  intros H0 Hr. right. revert E.
  unfold GoUnicode.IsLetter, GoUnicode.IsNumber, GoUnicode.between,
    GoUnicode.MaxLatin1.
  rewrite (proj2 (Z.leb_le 0 r)), (proj2 (Z.leb_le r 0xFF)) by lia.
  cbn [andb].
  unfold GoUnicode.latin1Letter, GoUnicode.latin1Number,
    GoUnicode.between.
  rewrite !orb_true_iff, !andb_true_iff, !Z.leb_le, !Z.eqb_eq. lia.
Qed.

Lemma flat_map_ext_Forall {A B} (P : A -> Prop) (f g : A -> list B) l :
  Forall P l -> (forall a, P a -> f a = g a) -> flat_map f l = flat_map g l.
Proof.
  intros Hl Hfg. induction Hl as [|a l Ha Hl IH]; [reflexivity|].
  cbn [flat_map]. now rewrite IH, Hfg.
Qed.

(** [strings.Map] with the sanitizer's mapping never drops a rune. *)
Lemma Map_alnumOrUnderscore s :
  Map alnumOrUnderscore s
  = flat_map (fun c => GoUtf8.EncodeRune (alnumOrUnderscore c))
             (GoUtf8.decodeRunes s).
Proof.
  unfold Map.
  apply (flat_map_ext_Forall GoUtf8.ValidRune);
    [apply decodeRunes_valid|].
  intros r Hr. cbn zeta.
  pose proof (alnumOrUnderscore_valid r Hr) as Hv.
  rewrite (proj2 (Z.leb_le 0 _)); [reflexivity|].
  unfold GoUtf8.ValidRune in Hv. lia.
Qed.

Lemma decode_flat_encode rs :
  Forall GoUtf8.ValidRune rs ->
  GoUtf8.decodeRunes (flat_map GoUtf8.EncodeRune rs) = rs.
Proof.
  induction 1 as [|r rs Hr Hrs IH]; [reflexivity|].
  cbn [flat_map]. now rewrite decode_encode, IH.
Qed.

Lemma flat_map_map {A B C} (f : A -> B) (g : B -> list C) l :
  flat_map g (map f l) = flat_map (fun a => g (f a)) l.
Proof. induction l as [|a l IH]; [reflexivity|]. cbn. now rewrite IH. Qed.

(** Decoding the mapped string gives the mapped runes. *)
Lemma decode_Map s :
  GoUtf8.decodeRunes (Map alnumOrUnderscore s)
  = map alnumOrUnderscore (GoUtf8.decodeRunes s).
Proof.
  rewrite Map_alnumOrUnderscore, <- flat_map_map.
  apply decode_flat_encode.
  pose proof (decodeRunes_valid s) as Hv.
  induction Hv as [|r rs Hr Hrs IH]; constructor;
    auto using alnumOrUnderscore_valid.
Qed.

Lemma Map_idem s :
  Map alnumOrUnderscore (Map alnumOrUnderscore s) = Map alnumOrUnderscore s.
Proof.
  rewrite (Map_alnumOrUnderscore (Map _ _)), decode_Map, flat_map_map.
  rewrite Map_alnumOrUnderscore.
  apply flat_map_ext. intros r. now rewrite alnumOrUnderscore_idem.
Qed.

(** Every byte of a mapped string is an ASCII letter, digit or
    underscore, or a byte of a multi-byte encoding. *)
Lemma Map_bytes s c :
  c ∈ Map alnumOrUnderscore s ->
  byteval c = 0x5F \/ 0x30 <= byteval c <= 0x39
  \/ 0x41 <= byteval c <= 0x5A \/ 0x61 <= byteval c <= 0x7A
  \/ 0x80 <= byteval c.
Proof.
  rewrite Map_alnumOrUnderscore, list_elem_of_In, in_flat_map.
  intros (r & Hr & Hc).
  pose proof (decodeRunes_valid s) as Hv.
  rewrite Forall_forall in Hv. apply list_elem_of_In, Hv in Hr.
  apply list_elem_of_In in Hc.
  apply EncodeRune_bytes in Hc; [|now apply alnumOrUnderscore_valid].
  destruct Hc as [[Hc Hlt]|Hc]; [|lia].
  assert (H0 : 0 <= r) by (unfold GoUtf8.ValidRune in Hr; lia).
  pose proof (alnumOrUnderscore_ascii r H0 Hlt). lia.
Qed.

Lemma Map_no_byte s c :
  byteval c = 0x2E \/ byteval c = 0x2F -> c ∉ Map alnumOrUnderscore s.
Proof. intros Hc Hin. apply Map_bytes in Hin. lia. Qed.

Lemma Map_no_csv_suffix s :
  HasSuffix (Map alnumOrUnderscore s) (str ".csv") = false.
Proof.
  destruct (HasSuffix _ _) eqn:H; [|reflexivity].
  apply HasSuffix_true in H as [p Hp].
  exfalso. apply (Map_no_byte s "."%char); [now left|].
  rewrite Hp. apply elem_of_app. right. apply list_elem_of_here.
Qed.
End SanitizerFacts.

(** C4 (as amended).  For every input string, the name sanitizer returns
    the result of stripping one trailing [.csv], taking the last
    [/]-separated segment, and replacing with an underscore every
    character that is neither a letter nor a number (Unicode categories
    L and N; the numbers include characters that are not digits). *)
Theorem sqlNameFromString_refines_spec `{T : RangeTables} (s : gostring) :
  sqlNameFromString s = SpecWords.sanitize SpecWords.letterOrNumber s.
Proof.
  unfold sqlNameFromString, SpecWords.sanitize.
  rewrite TrimSuffix_stripCsv, Split_last_segment.
  apply Map_alnumOrUnderscore.
Qed.

(** C4, counterexample to the claim as written ("not a letter or a
    digit"): the one-character name U+00BD is a number but not a digit;
    the sanitizer keeps it, where the claim's wording turns it into an
    underscore. *)
Lemma sqlNameFromString_keeps_non_digit_number :
  @sqlNameFromString Latin1Only oneHalf = oneHalf
  /\ SpecWords.sanitize (@SpecWords.letterOrDigit Latin1Only) oneHalf
     = str "_".
Proof. split; vm_compute; reflexivity. Qed.

(** A sanitized name is a fixed point of the sanitizer. *)
Lemma sqlNameFromString_fixed `{T : RangeTables} (s : gostring) :
  sqlNameFromString (sqlNameFromString s) = sqlNameFromString s.
Proof.
  unfold sqlNameFromString at 2.
  set (seg := nth _ _ _).
  unfold sqlNameFromString.
  rewrite TrimSuffix_none by apply Map_no_csv_suffix.
  rewrite Split_last_segment.
  rewrite lastSegment_no_slash by (apply Map_no_byte; now right).
  apply Map_idem.
Qed.

(** C5.  The name sanitizer is idempotent: sanitizing the sanitized form
    of any string yields the sanitized form again. *)
Theorem sqlNameFromString_idempotent `{T : RangeTables} (s : gostring) :
  sqlNameFromString (sqlNameFromString s) = sqlNameFromString s.
Proof. apply sqlNameFromString_fixed. Qed.

(** ** Output writers *)

Lemma fold_left_join_prefix (sep : gostring) (l : list gostring)
    (a b : gostring) :
  fold_left (fun acc s => acc ++ sep ++ s) l (a ++ b)
  = a ++ fold_left (fun acc s => acc ++ sep ++ s) l b.
Proof.
  revert b. induction l as [|x l IH]; intros b; [reflexivity|].
  cbn [fold_left]. rewrite <- app_assoc. apply IH.
Qed.

Lemma Join_cons2 a b l sep :
  Join (a :: b :: l) sep = a ++ sep ++ Join (b :: l) sep.
Proof.
  unfold Join. cbn [fold_left].
  now rewrite !fold_left_join_prefix.
Qed.

Lemma Join_tab_tabSeparated ss : Join ss tab = tabSeparated ss.
Proof.
  induction ss as [|a [|b l] IH]; [reflexivity..|].
  rewrite Join_cons2, IH. reflexivity.
Qed.

Lemma PlainTextWriter_Write_plainTextRow (buffered : gostring)
    (ss : list gostring) :
  PlainTextWriter_Write buffered ss = buffered ++ plainTextRow ss.
Proof.
  unfold PlainTextWriter_Write, Fprintln, plainTextRow.
  now rewrite Join_tab_tabSeparated.
Qed.

(** C8.  In plain-text output mode, each output row is exactly its
    fields joined with a single tab character and terminated with a
    newline; the fields are written as they are, whatever they
    contain. *)
Theorem PlainTextWriter_Write_row `{CsvCodec} (buffered : gostring)
    (ss : list gostring) :
  PlainTextWriter_Write buffered ss = buffered ++ plainTextRow ss
  /\ Write (PlainTextWriter buffered) ss
     = PlainTextWriter (buffered ++ plainTextRow ss).
Proof.
  split; [apply PlainTextWriter_Write_plainTextRow|].
  cbn [Write]. now rewrite PlainTextWriter_Write_plainTextRow.
Qed.

(** ** The query executor *)

Ltac eval_tests :=
  repeat match goal with
  | |- context [eqs ?a ?b] =>
    let v := eval vm_compute in (eqs a b) in
    match v with
    | true => change (eqs a b) with true
    | false => change (eqs a b) with false
    end
  | |- context [HasSuffix ?a ?b] =>
    let v := eval vm_compute in (HasSuffix a b) in
    match v with
    | true => change (HasSuffix a b) with true
    | false => change (HasSuffix a b) with false
    end
  | |- context [HasPrefix ?a ?b] =>
    let v := eval vm_compute in (HasPrefix a b) in
    match v with
    | true => change (HasPrefix a b) with true
    | false => change (HasPrefix a b) with false
    end
  end;
  cbn [orb andb negb].

Section ExecutorFacts.
Context {T : RangeTables} {C : CsvCodec} {E : SqlEngine}.

Lemma buffer_Write w ss : buffer (Write w ss) = buffer w ++ rowBytes w ss.
Proof.
  destruct w as [b|b]; cbn [Write buffer rowBytes]; [reflexivity|].
  apply PlainTextWriter_Write_plainTextRow.
Qed.

Lemma rowBytes_Write w ss : rowBytes (Write w ss) = rowBytes w.
Proof. now destruct w. Qed.

Lemma buffer_fold_Write rows w :
  buffer (fold_left Write rows w)
  = buffer w ++ flat_map (rowBytes w) rows.
Proof.
  revert w. induction rows as [|r rows IH]; intros w.
  - cbn. now rewrite app_nil_r.
  - cbn [fold_left flat_map]. rewrite IH, buffer_Write, rowBytes_Write.
    now rewrite app_assoc.
Qed.

Lemma writeRows_all_scanned w values σ :
  writeRows w (map Val values) σ
  = Returns (fold_left Write (map asStrings values) w) σ.
Proof.
  revert w. induction values as [|v values IH]; intros w; [reflexivity|].
  cbn [map writeRows fold_left]. apply IH.
Qed.

Lemma executeQuery_scanned (db query : gostring) (σ : State)
    (d : DB) (columns : list gostring) (values : list (list NullString)) :
  Query (database db σ) query
  = (d, Val (mkRows (Val columns) (map Val values))) ->
  executeQuery db query σ
  = writeStdout
      (buffer (fold_left Write (outputRows (HeadersOn σ) columns values)
                 (if WritePlainText σ then NewPlainTextWriter
                  else NewCSVWriter)))
      (setDatabase db d σ).
Proof.
  intros HQ.
  unfold executeQuery, getWriter. unfold bind, dbQuery, get, ret.
  rewrite HQ. cbv beta iota. cbn [Columns scans].
  replace (WritePlainText (setDatabase db d σ)) with (WritePlainText σ)
    by reflexivity.
  unfold outputRows.
  destruct (WritePlainText σ); cbv beta iota;
    (replace (HeadersOn (setDatabase db d σ)) with (HeadersOn σ)
      by reflexivity);
    destruct (HeadersOn σ); rewrite writeRows_all_scanned; reflexivity.
Qed.

(** C7.  Header emission is on by default and [--no-headers] turns it
    off; a query whose rows all scan writes, when header emission is
    on, the column names as the first output row before any data row,
    and, when it is off, no column-name row, so that the first output
    row is the first data row. *)
Theorem executeQuery_header_row (db query : gostring) (σ : State)
    (d : DB) (columns : list gostring) (values : list (list NullString)) :
  Query (database db σ) query
  = (d, Val (mkRows (Val columns) (map Val values))) ->
  (forall fs input dbs, HeadersOn (initialState fs input dbs) = true)
  /\ (forall rest tableName,
         mainLoop (str "--no-headers" :: rest) db tableName σ
         = mainLoop rest db tableName
             (mkState (files σ) (stdin σ) (stdout σ) (logged σ)
                      (databases σ) false (Replacing σ)
                      (WritePlainText σ)))
  /\ exists σ',
       executeQuery db query σ = Returns tt σ'
       /\ stdout σ'
          = stdout σ
            ++ flat_map
                 (rowBytes (if WritePlainText σ then NewPlainTextWriter
                            else NewCSVWriter))
                 (outputRows (HeadersOn σ) columns values)
       /\ (HeadersOn σ = true ->
           outputRows (HeadersOn σ) columns values
           = columns :: map asStrings values)
       /\ (HeadersOn σ = false ->
           outputRows (HeadersOn σ) columns values
           = map asStrings values).
Proof.
  intros HQ. split; [reflexivity|]. split.
  { intros rest tableName. cbn [mainLoop]. eval_tests. reflexivity. }
  eexists. split; [apply (executeQuery_scanned _ _ _ _ _ _ HQ)|].
  split; [|split; intros ->; reflexivity].
  cbn [stdout setDatabase]. rewrite buffer_fold_Write.
  now destruct (WritePlainText σ).
Qed.

End ExecutorFacts.

(** ** The CSV ingester *)

Lemma fold_left_snoc_map {A B} (f : A -> B) (l : list A) (acc : list B) :
  fold_left (fun vs v => vs ++ [f v]) l acc = acc ++ map f l.
Proof.
  revert acc. induction l as [|x l IH]; intros acc; cbn.
  - now rewrite app_nil_r.
  - now rewrite IH, <- app_assoc.
Qed.

Lemma fold_left_snoc_const {A B} (b : B) (l : list A) (acc : list B) :
  fold_left (fun vs _ => vs ++ [b]) l acc = acc ++ repeat b (length l).
Proof.
  rewrite (fold_left_snoc_map (fun _ => b)). f_equal.
  induction l as [|x l IH]; cbn; [reflexivity|now rewrite IH].
Qed.

(** The two loops that build the values of an insert. *)
Lemma insertValues_eq (fieldCount : nat) (record : list gostring) :
  insertValues fieldCount record
  = map Some record ++ repeat None (fieldCount - length record).
Proof.
  unfold insertValues.
  rewrite fold_left_snoc_const, fold_left_snoc_map, length_seq.
  reflexivity.
Qed.

Lemma insertValues_length (fieldCount : nat) (record : list gostring) :
  length (insertValues fieldCount record)
  = Nat.max fieldCount (length record).
Proof.
  rewrite insertValues_eq, length_app, length_map, repeat_length. lia.
Qed.

(** [strings.Contains] holds exactly of the strings in which the
    text occurs. *)
Lemma HasPrefix_take s sub :
  HasPrefix s sub = true -> s = sub ++ drop (length sub) s.
Proof.
  unfold HasPrefix. rewrite andb_true_iff.
  intros [_ Htake]. apply bool_decide_eq_true in Htake.
  transitivity (take (length sub) s ++ drop (length sub) s);
    [symmetry; apply take_drop|now rewrite Htake].
Qed.

Lemma Index_Some_split s sub i :
  Index s sub = Some i ->
  s = take i s ++ sub ++ drop (i + length sub) s.
Proof.
  revert i. induction s as [|c s IH]; intros i.
  - cbn [Index]. destruct (HasPrefix [] sub) eqn:Hp; [|discriminate].
    intros [= <-]. now apply HasPrefix_take.
  - cbn [Index]. destruct (HasPrefix (c :: s) sub) eqn:Hp.
    + intros [= <-]. now apply HasPrefix_take.
    + destruct (Index s sub) as [j|] eqn:Hj; [|discriminate].
      intros [= <-]. cbn [take drop app Nat.add]. f_equal. now apply IH.
Qed.

Lemma HasPrefix_app_self s x : HasPrefix (s ++ x) s = true.
Proof.
  unfold HasPrefix. apply andb_true_iff. split.
  - apply Nat.leb_le. rewrite length_app. lia.
  - apply bool_decide_eq_true. apply take_app_length.
Qed.

Lemma Index_app_is_Some before sub after :
  is_Some (Index (before ++ sub ++ after) sub).
Proof.
  induction before as [|c before IH].
  - cbn [app]. destruct (sub ++ after) as [|c r] eqn:E.
    + apply app_eq_nil in E as [-> _]. cbn. eauto.
    + rewrite <- E. unfold Index.
      destruct (sub ++ after) eqn:E';
        rewrite <- E', HasPrefix_app_self; eauto.
  - cbn [app Index].
    destruct (HasPrefix (c :: before ++ sub ++ after) sub); [eauto|].
    destruct IH as [i ->]. cbn. eauto.
Qed.

Lemma Contains_hasSubstring s sub :
  hasSubstring s sub <-> Contains s sub = true.
Proof.
  unfold Contains, hasSubstring. split.
  - intros (before & after & ->). apply bool_decide_eq_true.
    apply Index_app_is_Some.
  - intros H. apply bool_decide_eq_true in H as [i Hi].
    exists (take i s), (drop (i + length sub) s).
    now apply Index_Some_split.
Qed.

Section IngesterFacts.
Context {T : RangeTables} {C : CsvCodec} {E : SqlEngine}.

Lemma database_setDatabase db d σ : database db (setDatabase db d σ) = d.
Proof.
  unfold database, setDatabase. cbn [databases].
  now rewrite lookup_insert_eq.
Qed.

Lemma setDatabase_setDatabase db d d' σ :
  setDatabase db d' (setDatabase db d σ) = setDatabase db d' σ.
Proof.
  unfold setDatabase. cbn. now rewrite insert_insert_eq.
Qed.

(** A source without records: the first record is indexed before
    anything else happens. *)
Lemma createTableFromReader_empty db tableName input fileName σ :
  ReadAll input = Val [] ->
  createTableFromReader db tableName input fileName σ
  = Panics (IndexOutOfRange 0 0) σ.
Proof.
  intros HR. unfold createTableFromReader. rewrite HR. reflexivity.
Qed.

Lemma createTableFromReader_read_error db tableName input fileName σ e :
  ReadAll input = Err e ->
  createTableFromReader db tableName input fileName σ
  = Fatal (MsgReadCSV fileName e) σ.
Proof.
  intros HR. unfold createTableFromReader. rewrite HR. reflexivity.
Qed.

Lemma createTableFromReader_drop_error db tableName input fileName σ
    header records d e :
  ReadAll input = Val (header :: records) ->
  Replacing σ = true ->
  Exec (database db σ) (dropTableStmt tableName) [] = (d, Some e) ->
  createTableFromReader db tableName input fileName σ
  = Fatal (MsgDropTable tableName e) (setDatabase db d σ).
Proof.
  intros HR Hrep HX. unfold createTableFromReader. rewrite HR.
  cbn [lookup list_lookup]. unfold bind at 1. unfold get at 1.
  rewrite Hrep. unfold bind at 1. unfold bind at 1. unfold dbExec at 1.
  rewrite HX. reflexivity.
Qed.

(** From the [create table] statement on. *)
Lemma createTableFromReader_from_create db tableName input fileName σ
    header records σ1 d2 err :
  ReadAll input = Val (header :: records) ->
  stateAtCreate db tableName σ = Some σ1 ->
  Exec (database db σ1)
       (createTableStmt tableName (mapStrings header sqlNameFromString)) []
  = (d2, err) ->
  createTableFromReader db tableName input fileName σ
  = (do _ <- match err with
             | Some e =>
               if Contains e (str "already exists")
               then Printf (MsgTableExists tableName)
               else Fatalf (MsgCreateTable tableName e)
             | None => ret tt
             end ;;
     insertRecords db
       (insertStmt tableName (mapStrings header sqlNameFromString)
                   (length (mapStrings header sqlNameFromString)))
       (length (mapStrings header sqlNameFromString)) records)
      (setDatabase db d2 σ1).
Proof.
  intros HR H1 HX. unfold createTableFromReader. rewrite HR.
  cbn [lookup list_lookup drop]. unfold bind at 1. unfold get at 1.
  unfold stateAtCreate in H1.
  destruct (Replacing σ) eqn:Hrep.
  - unfold bind at 1. unfold bind at 1. unfold dbExec at 1.
    destruct (Exec (database db σ) (dropTableStmt tableName) [])
      as [d [e|]] eqn:HD; [discriminate H1|].
    injection H1 as <-. unfold ret at 1.
    unfold bind at 1. unfold dbExec at 1. rewrite HX. reflexivity.
  - injection H1 as <-. unfold bind at 1. unfold ret at 1.
    unfold bind at 1. unfold dbExec at 1. rewrite HX. reflexivity.
Qed.

(** The first insert that fails ends the process. *)
Lemma insertRecords_first_error db stmt fieldCount pre record post
    σ σp d e :
  insertRecords db stmt fieldCount pre σ = Returns tt σp ->
  Exec (database db σp) stmt (insertValues fieldCount record)
  = (d, Some e) ->
  insertRecords db stmt fieldCount (pre ++ record :: post) σ
  = Fatal (MsgInsert e) (setDatabase db d σp).
Proof.
  revert σ. induction pre as [|r pre IH]; intros σ Hpre HX.
  - injection Hpre as <-. cbn [app insertRecords].
    unfold bind, dbExec. rewrite HX. reflexivity.
  - cbn [app insertRecords] in *. unfold bind, dbExec in *.
    destruct (Exec (database db σ) stmt (insertValues fieldCount r))
      as [d' [e'|]]; [discriminate Hpre|].
    now apply IH.
Qed.

(** The insert loop only ever returns or ends by [log.Fatalf]. *)
Lemma insertRecords_outcome db stmt fieldCount records σ :
  (exists σ', insertRecords db stmt fieldCount records σ = Returns tt σ')
  \/ (exists e σ',
         insertRecords db stmt fieldCount records σ
         = Fatal (MsgInsert e) σ').
Proof.
  revert σ. induction records as [|r records IH]; intros σ.
  - left. now exists σ.
  - cbn [insertRecords]. unfold bind, dbExec.
    destruct (Exec (database db σ) stmt (insertValues fieldCount r))
      as [d' [e'|]]; [right; now eexists _, _|].
    apply IH.
Qed.

End IngesterFacts.

Section IngesterClaims.
Context {T : RangeTables} {C : CsvCodec}.

(** C10.  A CSV source that parses to zero records makes the ingester
    index the first record of an empty list: the run ends in a
    run-time panic (index 0 out of range, exit status 2), not in a
    [log.Fatalf] message; so it is with an empty standard input. *)
Theorem createTableFromReader_no_records_panics {E : SqlEngine}
    (db tableName input fileName : gostring) (σ : State)
    (rest : list gostring) :
  ReadAll input = Val [] ->
  createTableFromReader db tableName input fileName σ
  = Panics (IndexOutOfRange 0 0) σ
  /\ exitStatus (createTableFromReader db tableName input fileName σ) = 2
  /\ (stdin σ = input ->
      mainLoop (str "stdin" :: rest) db tableName σ
      = Panics (IndexOutOfRange 0 0)
          (mkState (files σ) [] (stdout σ) (logged σ) (databases σ)
                   (HeadersOn σ) (Replacing σ) (WritePlainText σ))).
Proof.
  intros HR. split; [|split].
  - now apply createTableFromReader_empty.
  - now rewrite createTableFromReader_empty.
  - intros Hin. cbn [mainLoop]. eval_tests.
    unfold bind at 1. unfold readStdin at 1.
    unfold bind at 1. rewrite Hin.
    now rewrite createTableFromReader_empty.
Qed.

(** C6 (as amended).  Every I/O, parse or database error during
    ingestion ends the process by [log.Fatalf] -- a file that cannot
    be opened, a source that cannot be read, a failing drop, a failing
    create, the first failing insert -- with one exception: a
    [create table] error whose message contains [already exists].
    That error is logged as a warning and followed by the inserts of
    the data rows, whether or not the replace flag is set: the code
    does not look at the flag there. *)
Theorem ingestion_error_policy {E : SqlEngine}
    (db tableName fileName input : gostring) (σ : State) :
  (files σ !! fileName = None ->
   exists e, createTableFromCSV db tableName fileName σ
             = Fatal (MsgOpenCSV fileName e) σ)
  /\ (forall e, ReadAll input = Err e ->
        createTableFromReader db tableName input fileName σ
        = Fatal (MsgReadCSV fileName e) σ)
  /\ forall header records,
       ReadAll input = Val (header :: records) ->
       let fieldNames := mapStrings header sqlNameFromString in
       let fieldCount := length fieldNames in
       let stmt := insertStmt tableName fieldNames fieldCount in
       (forall d e,
           Replacing σ = true ->
           Exec (database db σ) (dropTableStmt tableName) [] = (d, Some e) ->
           createTableFromReader db tableName input fileName σ
           = Fatal (MsgDropTable tableName e) (setDatabase db d σ))
       /\ (forall σ1 d2 err,
             stateAtCreate db tableName σ = Some σ1 ->
             Exec (database db σ1) (createTableStmt tableName fieldNames) []
             = (d2, err) ->
             match err with
             | None =>
               createTableFromReader db tableName input fileName σ
               = insertRecords db stmt fieldCount records
                   (setDatabase db d2 σ1)
             | Some e =>
               (hasSubstring e (str "already exists") ->
                createTableFromReader db tableName input fileName σ
                = insertRecords db stmt fieldCount records
                    (logWarning (MsgTableExists tableName)
                                (setDatabase db d2 σ1)))
               /\ (~ hasSubstring e (str "already exists") ->
                   createTableFromReader db tableName input fileName σ
                   = Fatal (MsgCreateTable tableName e)
                           (setDatabase db d2 σ1))
             end)
       /\ (forall σ0 pre record post σp d e,
             insertRecords db stmt fieldCount pre σ0 = Returns tt σp ->
             Exec (database db σp) stmt (insertValues fieldCount record)
             = (d, Some e) ->
             insertRecords db stmt fieldCount (pre ++ record :: post) σ0
             = Fatal (MsgInsert e) (setDatabase db d σp)).
Proof.
  split; [|split].
  - intros Hf. eexists. unfold createTableFromCSV, bind, readFile.
    rewrite Hf. reflexivity.
  - intros e. apply createTableFromReader_read_error.
  - intros header records HR fieldNames fieldCount stmt.
    split; [|split].
    + intros d e Hrep HX.
      eapply createTableFromReader_drop_error; eassumption.
    + intros σ1 d2 err H1 HX.
      rewrite (createTableFromReader_from_create _ _ _ _ _ _ _ _ _ _
                 HR H1 HX).
      destruct err as [e|]; [|reflexivity].
      split.
      * intros Hsub. apply Contains_hasSubstring in Hsub.
        now rewrite Hsub.
      * intros Hsub.
        destruct (Contains e (str "already exists")) eqn:Hc;
          [|reflexivity].
        exfalso. now apply Hsub, Contains_hasSubstring.
    + intros σ0 pre record post σp d e.
      apply insertRecords_first_error.
Qed.

End IngesterClaims.

(** ** The argument dispatcher *)

Section DispatcherFacts.
Context {T : RangeTables} {C : CsvCodec} {E : SqlEngine}.

Ltac step_bind H :=
  unfold bind at 1; unfold bind at 1 in H;
  match type of H with
  | match ?m with _ => _ end = _ =>
    destruct m as [? ?|? ?|? ?]; [|discriminate H..]
  end.

(** Tokens processed to the end of the loop are processed in the same
    way when more tokens follow. *)
Lemma mainLoop_app pre rest :
  forall db tableName σ db' tableName' σ',
    mainLoop pre db tableName σ = Returns (db', tableName') σ' ->
    mainLoop (pre ++ rest) db tableName σ
    = mainLoop rest db' tableName' σ'.
Proof.
  remember (length pre) as n eqn:Hn. revert pre Hn.
  induction n as [n IH] using lt_wf_ind.
  intros pre Hn db tableName σ db' tableName' σ' Hrun.
  destruct pre as [|arg pre].
  { cbn in Hrun. injection Hrun as <- <- <-. reflexivity. }
  cbn [length] in Hn.
  assert (IH1 : forall db tableName σ,
             mainLoop pre db tableName σ = Returns (db', tableName') σ' ->
             mainLoop (pre ++ rest) db tableName σ
             = mainLoop rest db' tableName' σ').
  { intros. eapply (IH (length pre)); [lia|reflexivity|eassumption]. }
  cbn [app mainLoop] in *.
  repeat match goal with
  | H : context [if ?b then _ else _] |- _ =>
    destruct b eqn:?
  end.
  all: try discriminate Hrun.
  all: try (step_bind Hrun; now apply IH1).
  all: try (step_bind Hrun; step_bind Hrun; now apply IH1).
  - destruct pre as [|dbName pre]; [discriminate Hrun|].
    cbn [app]. eapply (IH (length pre)); [cbn in Hn; lia|reflexivity|].
    exact Hrun.
  - destruct pre as [|name pre]; [discriminate Hrun|].
    cbn [app]. eapply (IH (length pre)); [cbn in Hn; lia|reflexivity|].
    exact Hrun.
Qed.

End DispatcherFacts.

Section DispatcherClaims.
Context {T : RangeTables} {C : CsvCodec} {E : SqlEngine}.

Lemma mainLoop_unknown tok rest db tableName σ :
  matchesNoRule tok = true ->
  mainLoop (tok :: rest) db tableName σ = Fatal (MsgUnknownArgument tok) σ.
Proof.
  unfold matchesNoRule. rewrite negb_true_iff, !orb_false_iff.
  intros ((((((((((((H1 & H2) & H3) & H4) & H5) & H6) & H7) & H8) & H9)
             & H10) & H11) & H12) & H13).
  cbn [mainLoop].
  rewrite H1, H2, H3, H4, H5, H6, H7, H8, H9, H10, H11, H12, H13.
  reflexivity.
Qed.

Lemma main_returns prog args σ σ' :
  main (prog :: args) σ = Returns tt σ' ->
  exists db tableName,
    mainLoop args (str "file::memory:") [] σ = Returns (db, tableName) σ'.
Proof.
  unfold main, bind. change (drop 1 (prog :: args)) with args. cbv beta.
  destruct (mainLoop args (str "file::memory:") [] σ)
    as [[db tableName] σ1|? ?|? ?]; [|discriminate..].
  unfold ret. intros Heq. injection Heq as <-. now exists db, tableName.
Qed.

(** C9 (as amended).  When the dispatcher reaches a token that matches
    no rule -- the tokens before it having been processed to the end,
    so that it is not the value consumed by a preceding [--db] or
    [--table] -- the process exits at that token with the unknown
    argument message and status 1, in the state the earlier tokens
    left: no later token is processed. *)
Theorem unknown_argument_is_fatal (prog : gostring)
    (pre : list gostring) (tok : gostring) (post : list gostring)
    (σ σ' : State) :
  matchesNoRule tok = true ->
  main (prog :: pre) σ = Returns tt σ' ->
  main (prog :: pre ++ tok :: post) σ = Fatal (MsgUnknownArgument tok) σ'
  /\ exitStatus (main (prog :: pre ++ tok :: post) σ) = 1.
Proof.
  intros Htok Hpre.
  destruct (main_returns _ _ _ _ Hpre) as (db & tableName & Hloop).
  assert (Hrun : main (prog :: pre ++ tok :: post) σ
                 = Fatal (MsgUnknownArgument tok) σ').
  { unfold main, bind.
    change (drop 1 (prog :: pre ++ tok :: post)) with (pre ++ tok :: post).
    cbv beta. rewrite (mainLoop_app _ _ _ _ _ _ _ _ Hloop).
    now rewrite mainLoop_unknown. }
  split; [exact Hrun|]. now rewrite Hrun.
Qed.

End DispatcherClaims.

(** C9, counterexample to the claim as written: the value of [--table]
    matches no rule of the dispatcher, and the run ends normally with
    status 0. *)
Lemma table_value_matches_no_rule :
  matchesNoRule (str "t") = true
  /\ In (str "t") [str "csv2sql"; str "--table"; str "t"]
  /\ exitStatus
       (@main Latin1Only Reference.csv Reference.sql
          [str "csv2sql"; str "--table"; str "t"]
          (@initialState Reference.sql ∅ [] ∅)) = 0.
Proof.
  split; [vm_compute; reflexivity|]. split; [right; right; now left|].
  vm_compute. reflexivity.
Qed.

(** C2 (the code departs from the claim).  With the arguments
    [--table t stdin x.csv], the override set by [--table] is used for
    standard input and, not being reset by the [stdin] case, again for
    [x.csv]: both sources end up in table [t] (the second ingestion
    finding the table in place), and no table [x] is created. *)
Theorem stdin_keeps_table_override :
  let run :=
    @main Latin1Only Reference.csv Reference.sql
      [str "csv2sql"; str "--table"; str "t"; str "stdin"; str "x.csv"]
      (@initialState Reference.sql
         {[ str "x.csv" := str "a" ++ newline ++ str "2" ++ newline ]}
         (str "a" ++ newline ++ str "1" ++ newline) ∅) in
  exitStatus run = 0
  /\ database (E:=Reference.sql) (str "file::memory:") (finalState run)
     = {[ str "t" := Reference.mkTable [str "a"]
                       [[Some (str "1")]; [Some (str "2")]] ]}
  /\ logged (finalState run) = [MsgTableExists (str "t")].
Proof.
  cbv zeta. split; [vm_compute; reflexivity|].
  split; vm_compute; reflexivity.
Qed.

(** ** The reference engine reads the program's statements *)

Module ReferenceFacts.
Import Reference.

Lemma tokens_word_app w xs s :
  forallb isIdChar xs = true -> tokens w (xs ++ s) = tokens (w ++ xs) s.
Proof.
  revert w. induction xs as [|x xs IH]; intros w Hxs.
  - now rewrite app_nil_r.
  - cbn [forallb] in Hxs. apply andb_true_iff in Hxs as [Hx Hxs].
    cbn [app tokens]. rewrite Hx, IH by assumption.
    now rewrite <- app_assoc.
Qed.

Lemma tokens_break w s1 c s2 :
  isIdChar c = false ->
  tokens w (s1 ++ c :: s2) = tokens w (s1 ++ [c]) ++ tokens [] s2.
Proof.
  intros Hc. revert w. induction s1 as [|a s1 IH]; intros w.
  - cbn [app tokens]. rewrite Hc. cbn [flush]. rewrite app_nil_r.
    now rewrite <- !app_assoc.
  - cbn [app tokens]. destruct (isIdChar a); [apply IH|].
    rewrite IH, <- !app_assoc. reflexivity.
Qed.

Lemma tokens_trailing_space w s :
  tokens w (s ++ [" "%char]) = tokens w s.
Proof.
  revert w. induction s as [|a s IH]; intros w.
  - cbn. now rewrite !app_nil_r.
  - cbn [app tokens]. destruct (isIdChar a); [apply IH|].
    now rewrite IH.
Qed.

Lemma tokens_identifier t s c :
  isIdentifier t = true -> isIdChar c = false ->
  tokens [] (t ++ c :: s) = TWord t :: tokens [] (c :: s).
Proof.
  unfold isIdentifier. rewrite andb_true_iff. intros [Hid Hname] Hc.
  rewrite tokens_word_app by assumption. cbn [app tokens].
  rewrite Hc. destruct t; [discriminate Hname|]. reflexivity.
Qed.

Lemma isIdentifier_isName t : isIdentifier t = true -> isName t = true.
Proof. unfold isIdentifier. now rewrite andb_true_iff. Qed.

Lemma tokens_comma w s :
  tokens w (str ", " ++ s) = flush w ++ TSym "," :: tokens [] s.
Proof. reflexivity. Qed.

Lemma tokens_close w s :
  tokens w (")"%char :: s) = flush w ++ TSym ")" :: tokens [] s.
Proof. reflexivity. Qed.

(** The column list: names and commas, then the parenthesis. *)
Lemma tokens_names names tail :
  Forall (fun n => forallb isIdChar n = true) names ->
  tokens [] (Join names (str ", ") ++ ")"%char :: tail)
  = namesTokens names ++ tokens [] tail.
Proof.
  induction names as [|n [|n2 l] IH]; intros Hn.
  - reflexivity.
  - inversion_clear Hn as [|? ? Hid _].
    change (Join [n] (str ", ")) with n.
    change (namesTokens [n]) with (flush n ++ [TSym ")"]).
    rewrite tokens_word_app, tokens_close by assumption.
    cbn [app]. now rewrite <- app_assoc.
  - inversion_clear Hn as [|? ? Hid Hrest].
    rewrite Join_cons2.
    change (namesTokens (n :: n2 :: l))
      with (flush n ++ [TSym ","] ++ namesTokens (n2 :: l)).
    rewrite <- !app_assoc, tokens_word_app, tokens_comma by assumption.
    cbn [app]. rewrite (IH Hrest). now rewrite <- ?app_assoc.
Qed.

Lemma parseNames_word_close n rest :
  parseNames (TWord n :: TSym ")" :: rest)
  = if isName n then Some ([n], rest) else None.
Proof. cbn [parseNames]. now destruct (isName n). Qed.

Lemma parseNames_word_comma n rest :
  parseNames (TWord n :: TSym "," :: rest)
  = if isName n
    then match parseNames rest with
         | Some (ns, rest') => Some (n :: ns, rest')
         | None => None
         end
    else None.
Proof. cbn [parseNames]. now destruct (isName n). Qed.

Lemma okNames_cons2 n n2 l :
  okNames (n :: n2 :: l) = isName n && okNames (n2 :: l).
Proof. reflexivity. Qed.

Lemma parseNames_namesTokens names rest :
  parseNames (namesTokens names ++ rest)
  = if okNames names then Some (names, rest) else None.
Proof.
  induction names as [|n [|n2 l] IH].
  - reflexivity.
  - change (namesTokens [n]) with (flush n ++ [TSym ")"]).
    change (okNames [n]) with (isName n && true).
    rewrite andb_true_r.
    destruct n as [|c n]; [reflexivity|].
    cbn [flush app]. apply parseNames_word_close.
  - change (namesTokens (n :: n2 :: l))
      with (flush n ++ [TSym ","] ++ namesTokens (n2 :: l)).
    rewrite okNames_cons2.
    destruct n as [|c n]; [reflexivity|].
    cbn [flush]. rewrite <- !app_assoc. cbn [app].
    rewrite parseNames_word_comma, IH.
    destruct (isName (c :: n)), (okNames (n2 :: l)); reflexivity.
Qed.

Lemma parse_drop t :
  parse [TWord (str "drop"); TWord (str "table"); TWord (str "if");
         TWord (str "exists"); TWord t]
  = if isName t then Some (DropTableIfExists t) else None.
Proof. reflexivity. Qed.

Lemma parse_create t rest :
  parse (TWord (str "create") :: TWord (str "table") :: TWord t
         :: TSym "(" :: rest)
  = if isName t
    then match parseNames rest with
         | Some (cols, []) => Some (CreateTable t cols)
         | _ => None
         end
    else None.
Proof. cbn [parse]. now destruct (isName t). Qed.

Lemma parse_insert t rest :
  parse (TWord (str "insert") :: TWord (str "into") :: TWord t
         :: TSym "(" :: rest)
  = if isName t
    then match parseNames rest with
         | Some (cols, TWord k3 :: TSym open' :: rest') =>
           if isKeyword k3 "values" && bool_decide (open' = "("%char)
           then InsertInto t cols <$> parseParams rest'
           else None
         | _ => None
         end
    else None.
Proof. cbn [parse]. now destruct (isName t). Qed.

Lemma tokens_drop_prefix s :
  tokens [] (str "drop table if exists " ++ s)
  = [TWord (str "drop"); TWord (str "table"); TWord (str "if");
     TWord (str "exists")] ++ tokens [] s.
Proof. reflexivity. Qed.

Lemma tokens_create_prefix s :
  tokens [] (str "create table " ++ s)
  = [TWord (str "create"); TWord (str "table")] ++ tokens [] s.
Proof. reflexivity. Qed.

Lemma tokens_insert_prefix s :
  tokens [] (str "insert into " ++ s)
  = [TWord (str "insert"); TWord (str "into")] ++ tokens [] s.
Proof. reflexivity. Qed.

Lemma tokens_open w s :
  tokens w (str " (" ++ s) = flush w ++ TSym "(" :: tokens [] s.
Proof. reflexivity. Qed.

Lemma tokens_values s :
  tokens [] (str " values (" ++ s)
  = TWord (str "values") :: TSym "(" :: tokens [] s.
Proof. reflexivity. Qed.

Lemma tokens_identifier_alone t :
  isIdentifier t = true -> tokens [] t = [TWord t].
Proof.
  unfold isIdentifier. rewrite andb_true_iff. intros [Hid Hname].
  rewrite <- (app_nil_r t) at 1. rewrite tokens_word_app by assumption.
  destruct t; [discriminate Hname|]. reflexivity.
Qed.

Lemma flush_identifier t : isIdentifier t = true -> flush t = [TWord t].
Proof.
  intros H. apply isIdentifier_isName in H. now destruct t.
Qed.

(** The table name in a statement: the word it consists of. *)
Lemma tableWord_Some t w :
  tableWord t = Some w -> tokens [] t = [TWord w] /\ isName w = true.
Proof.
  unfold tableWord.
  destruct (tokens [] t) as [|[w'|c] [|tok rest]]; try discriminate.
  destruct (isName w') eqn:Hn; [|discriminate]. now intros [= <-].
Qed.

Lemma tableWord_identifier t :
  isIdentifier t = true -> tableWord t = Some t.
Proof.
  intros Ht. unfold tableWord.
  rewrite tokens_identifier_alone by assumption.
  now rewrite (isIdentifier_isName _ Ht).
Qed.

Lemma tokens_table_open t s :
  tokens [] (t ++ str " (" ++ s) = tokens [] t ++ TSym "(" :: tokens [] s.
Proof.
  change (str " (" ++ s) with (" "%char :: "("%char :: s).
  rewrite (tokens_break [] t " "%char) by reflexivity.
  now rewrite tokens_trailing_space.
Qed.

(** What the engine makes of the three statements of the ingester. *)
Lemma exec_drop d t w args :
  tableWord t = Some w ->
  exec d (dropTableStmt t) args = (delete (lower w) d, None).
Proof.
  intros Ht. apply tableWord_Some in Ht as [Htok Hname].
  unfold exec, dropTableStmt.
  rewrite tokens_drop_prefix, Htok.
  cbn [app]. now rewrite parse_drop, Hname.
Qed.

Lemma exec_create d t w names args :
  tableWord t = Some w ->
  Forall (fun n => forallb isIdChar n = true) names ->
  exec d (createTableStmt t names) args
  = if okNames names then run d (CreateTable w names) args
    else syntaxError d.
Proof.
  intros Ht Hn. apply tableWord_Some in Ht as [Htok Hname].
  unfold exec, createTableStmt.
  rewrite tokens_create_prefix, tokens_table_open, Htok.
  cbn [app].
  change (str ")") with [")"%char].
  rewrite tokens_names by assumption.
  cbn [app]. rewrite parse_create, Hname.
  change (tokens [] []) with (@nil Token).
  rewrite parseNames_namesTokens.
  now destruct (okNames names).
Qed.

Lemma exec_insert d t w names fieldCount args :
  tableWord t = Some w ->
  Forall (fun n => forallb isIdChar n = true) names ->
  exec d (insertStmt t names fieldCount) args
  = if okNames names
    then match parseParams
                 (tokens [] (TrimRight (Repeat (str "?, ") fieldCount)
                                       (str ", ") ++ str ")")) with
         | Some params => run d (InsertInto w names params) args
         | None => syntaxError d
         end
    else syntaxError d.
Proof.
  intros Ht Hn. apply tableWord_Some in Ht as [Htok Hname].
  unfold exec, insertStmt.
  rewrite tokens_insert_prefix, tokens_table_open, Htok.
  cbn [app].
  change (str ") values (" ++ ?x) with (")"%char :: str " values (" ++ x).
  rewrite tokens_names, tokens_values by assumption.
  cbn [app]. rewrite parse_insert, Hname.
  rewrite parseNames_namesTokens.
  destruct (okNames names); [|reflexivity].
  change (isKeyword (str "values") "values" && bool_decide ("("%char = "("%char))
    with true. cbn iota.
  now destruct (parseParams _).
Qed.

(** Sanitized names are words of the tokenizer. *)
Lemma sanitized_word `{T : RangeTables} s :
  forallb isIdChar (sqlNameFromString s) = true.
Proof.
  apply forallb_forall. intros c Hc. apply list_elem_of_In in Hc.
  unfold sqlNameFromString in Hc. apply Map_bytes in Hc.
  pose proof (byteval_range c) as Hb.
  unfold isIdChar, GoUnicode.between.
  rewrite !orb_true_iff, !andb_true_iff, !Z.leb_le, !Z.eqb_eq. lia.
Qed.

Lemma sanitized_words `{T : RangeTables} header :
  Forall (fun n => forallb isIdChar n = true)
         (mapStrings header sqlNameFromString).
Proof.
  unfold mapStrings. apply Forall_forall. intros n Hn.
  apply list_elem_of_In, in_map_iff in Hn as (cell & <- & _).
  apply sanitized_word.
Qed.

End ReferenceFacts.

(** ** Ingesting twice *)

Section IngestionRuns.
Context {T : RangeTables} {C : CsvCodec} {E : SqlEngine}.

Lemma insertRecords_preserves db stmt fieldCount records σ σ' :
  insertRecords db stmt fieldCount records σ = Returns tt σ' ->
  logged σ' = logged σ /\ Replacing σ' = Replacing σ.
Proof.
  revert σ. induction records as [|r records IH]; intros σ Hrun.
  - injection Hrun as <-. now split.
  - cbn [insertRecords] in Hrun. unfold bind, dbExec in Hrun.
    destruct (Exec (database db σ) stmt (insertValues fieldCount r))
      as [d [e|]]; [discriminate Hrun|].
    apply IH in Hrun. exact Hrun.
Qed.

(** An ingestion that returns has read a header, passed the drop (in
    replace mode), created the table or found it in place, and
    inserted every record. *)
Lemma createTableFromReader_returns db tableName input fileName σ σ' :
  createTableFromReader db tableName input fileName σ = Returns tt σ' ->
  exists header records σc d2 err,
    ReadAll input = Val (header :: records)
    /\ stateAtCreate db tableName σ = Some σc
    /\ Exec (database db σc)
            (createTableStmt tableName
               (mapStrings header sqlNameFromString)) [] = (d2, err)
    /\ (forall e, err = Some e ->
                  Contains e (str "already exists") = true)
    /\ insertRecords db
         (insertStmt tableName (mapStrings header sqlNameFromString)
            (length (mapStrings header sqlNameFromString)))
         (length (mapStrings header sqlNameFromString)) records
         (afterCreate tableName err (setDatabase db d2 σc))
       = Returns tt σ'.
Proof.
  intros Hrun.
  destruct (ReadAll input) as [[|header records]|e] eqn:HR.
  - rewrite createTableFromReader_empty in Hrun by assumption.
    discriminate Hrun.
  - destruct (stateAtCreate db tableName σ) as [σc|] eqn:Hc.
    + destruct (Exec (database db σc)
                  (createTableStmt tableName
                     (mapStrings header sqlNameFromString)) [])
        as [d2 err] eqn:HX.
      rewrite (createTableFromReader_from_create _ _ _ _ _ _ _ _ _ _
                 HR Hc HX) in Hrun.
      exists header, records, σc, d2, err.
      split; [reflexivity|]. split; [reflexivity|]. split; [exact HX|].
      unfold bind at 1 in Hrun.
      destruct err as [e|].
      * destruct (Contains e (str "already exists")) eqn:Hex;
          [|discriminate Hrun].
        split; [now intros ? [= <-]|]. exact Hrun.
      * split; [discriminate|]. exact Hrun.
    + unfold stateAtCreate in Hc.
      destruct (Replacing σ) eqn:Hrep; [|discriminate Hc].
      destruct (Exec (database db σ) (dropTableStmt tableName) [])
        as [d [e|]] eqn:HD; [|discriminate Hc].
      rewrite (createTableFromReader_drop_error _ _ _ _ _ _ _ _ _
                 HR Hrep HD) in Hrun.
      discriminate Hrun.
  - rewrite (createTableFromReader_read_error _ _ _ _ _ _ HR) in Hrun.
    discriminate Hrun.
Qed.

(** And conversely. *)
Lemma createTableFromReader_runs db tableName input fileName σ
    header records σc d2 err :
  ReadAll input = Val (header :: records) ->
  stateAtCreate db tableName σ = Some σc ->
  Exec (database db σc)
       (createTableStmt tableName (mapStrings header sqlNameFromString)) []
  = (d2, err) ->
  (forall e, err = Some e -> Contains e (str "already exists") = true) ->
  createTableFromReader db tableName input fileName σ
  = insertRecords db
      (insertStmt tableName (mapStrings header sqlNameFromString)
         (length (mapStrings header sqlNameFromString)))
      (length (mapStrings header sqlNameFromString)) records
      (afterCreate tableName err (setDatabase db d2 σc)).
Proof.
  intros HR Hc HX Herr.
  rewrite (createTableFromReader_from_create _ _ _ _ _ _ _ _ _ _
             HR Hc HX).
  unfold bind at 1. destruct err as [e|]; [|reflexivity].
  now rewrite (Herr e eq_refl).
Qed.

End IngestionRuns.

(** ** The reference engine stores what the ingester sends *)

Lemma HasPrefix_app s x : HasPrefix (s ++ x) s = true.
Proof.
  unfold HasPrefix. apply andb_true_iff. split.
  - apply Nat.leb_le. rewrite length_app. lia.
  - apply bool_decide_eq_true. apply take_app_length.
Qed.

Lemma Index_is_Some_app a s sub :
  is_Some (Index s sub) -> is_Some (Index (a ++ s) sub).
Proof.
  intros Hs. induction a as [|c a IH]; [exact Hs|].
  cbn [app Index]. destruct (HasPrefix (c :: a ++ s) sub); [eauto|].
  destruct IH as [i ->]. cbn. eauto.
Qed.

Lemma Contains_app a sub b : Contains (a ++ sub ++ b) sub = true.
Proof.
  unfold Contains. apply bool_decide_eq_true, Index_is_Some_app.
  destruct (sub ++ b) as [|c r] eqn:E.
  - apply app_eq_nil in E as [-> _]. cbn. eauto.
  - rewrite <- E. unfold Index.
    destruct (sub ++ b) eqn:E'; rewrite <- E', HasPrefix_app; eauto.
Qed.

Module ReferenceRuns.
Import Reference ReferenceFacts.

Lemma already_exists_text t :
  Contains (str "table " ++ t ++ str " already exists")
           (str "already exists") = true.
Proof.
  change (str " already exists")
    with ([" "%char] ++ str "already exists" ++ []).
  rewrite !app_assoc, <- (app_assoc _ (str "already exists") []).
  apply Contains_app.
Qed.

Lemma exec_create_accepted d t w names d2 err :
  tableWord t = Some w ->
  Forall (fun n => forallb isIdChar n = true) names ->
  exec d (createTableStmt t names) [] = (d2, err) ->
  (forall e, err = Some e -> Contains e (str "already exists") = true) ->
  okNames names = true
  /\ match d !! lower w with
     | Some _ =>
       d2 = d
       /\ err = Some (str "table " ++ w ++ str " already exists")
     | None =>
       d2 = <[lower w := mkTable names []]> d /\ err = None
       /\ hasDuplicates names = false
     end.
Proof.
  intros Ht Hn HX Herr. rewrite (exec_create _ _ w) in HX by assumption.
  destruct (okNames names).
  - split; [reflexivity|]. cbn [run] in HX.
    destruct (d !! lower w) as [tb|].
    + injection HX as <- <-. now split.
    + destruct (hasDuplicates names).
      * injection HX as <- <-.
        specialize (Herr _ eq_refl). discriminate Herr.
      * injection HX as <- <-. now repeat split.
  - injection HX as <- <-. specialize (Herr _ eq_refl).
    discriminate Herr.
Qed.

(** The columns decide whether an insert is accepted, not the rows
    already there. *)
Lemma run_insert_again d t names params args d' tb d2 tb2 :
  d !! lower t = Some tb ->
  run d (InsertInto t names params) args = (d', None) ->
  d2 !! lower t = Some tb2 -> columns tb2 = columns tb ->
  run d2 (InsertInto t names params) args
  = (<[lower t := mkTable (columns tb)
                    (rows tb2 ++ [storedRow (columns tb) names args])]> d2,
     None).
Proof.
  intros Hd Hrun Hd2 Hcols. cbn [run] in *. rewrite Hd in Hrun.
  rewrite Hd2, Hcols.
  destruct (negb (length names =? params)%nat); [discriminate Hrun|].
  destruct (negb (forallb _ names)); [discriminate Hrun|].
  destruct (length args <? params)%nat; [discriminate Hrun|].
  reflexivity.
Qed.

Section Inserts.
Context {T : RangeTables} {C : CsvCodec}.

Lemma insertRecords_again db t w names fieldCount records
    (σ σ' σ2 : @State sql) tb tb2 :
  tableWord t = Some w ->
  Forall (fun n => forallb isIdChar n = true) names ->
  (database db σ : gmap gostring Table) !! lower w = Some tb ->
  insertRecords db (insertStmt t names fieldCount) fieldCount records σ
  = Returns tt σ' ->
  (database db σ2 : gmap gostring Table) !! lower w = Some tb2 ->
  columns tb2 = columns tb ->
  exists σ2',
    insertRecords db (insertStmt t names fieldCount) fieldCount
                  records σ2 = Returns tt σ2'
    /\ database db σ2'
       = <[lower w :=
             mkTable (columns tb)
               (rows tb2
                ++ map (fun r => storedRow (columns tb) names
                                   (insertValues fieldCount r))
                       records)]>
           (database db σ2 : gmap gostring Table)
    /\ logged σ2' = logged σ2 /\ Replacing σ2' = Replacing σ2.
Proof.
  intros Ht Hn. revert σ σ2 tb tb2.
  induction records as [|r records IH];
    intros σ σ2 tb tb2 Hd Hrun Hd2 Hcols.
  - exists σ2. split; [reflexivity|]. split; [|now split].
    cbn [map]. rewrite app_nil_r, <- Hcols.
    destruct tb2 as [c2 r2]. cbn [columns rows].
    symmetry.
    exact (insert_id (database db σ2 : gmap gostring Table) _ _ Hd2).
  - cbn [insertRecords] in *. unfold bind at 1 in Hrun.
    unfold dbExec at 1 in Hrun. unfold bind at 1. unfold dbExec at 1.
    change (@Exec sql) with exec in *.
    rewrite (exec_insert _ _ w) in Hrun by assumption.
    rewrite (exec_insert _ _ w) by assumption.
    destruct (okNames names); [|discriminate Hrun].
    destruct (parseParams _) as [params|]; [|discriminate Hrun].
    destruct (run (database db σ) (InsertInto w names params)
                  (insertValues fieldCount r)) as [d' [e|]] eqn:Hr;
      [discriminate Hrun|].
    pose proof (run_insert_again _ _ _ _ _ _ _ _ _ Hd Hr Hd
                  eq_refl) as Hd'.
    rewrite Hr in Hd'. injection Hd' as ->.
    rewrite (run_insert_again _ _ _ _ _ _ _ _ _ Hd Hr Hd2 Hcols).
    match type of Hrun with
    | insertRecords _ _ _ _ ?s1 = _ =>
      match goal with
      | |- exists _, insertRecords _ _ _ _ ?s2 = _ /\ _ =>
        destruct (IH s1 s2
                    (mkTable (columns tb)
                       (rows tb ++ [storedRow (columns tb) names
                                      (insertValues fieldCount r)]))
                    (mkTable (columns tb)
                       (rows tb2 ++ [storedRow (columns tb) names
                                       (insertValues fieldCount r)])))
          as (σ2' & Hrun2 & Hdb & Hlog & Hrep)
      end
    end.
    + rewrite database_setDatabase.
      apply (lookup_insert_eq (M:=gmap gostring)).
    + exact Hrun.
    + rewrite database_setDatabase.
      apply (lookup_insert_eq (M:=gmap gostring)).
    + reflexivity.
    + exists σ2'. split; [exact Hrun2|]. split; [|now split].
      rewrite Hdb, database_setDatabase. cbn [columns rows map].
      rewrite (insert_insert_eq (M:=gmap gostring)), <- app_assoc.
      reflexivity.
Qed.

End Inserts.

Lemma position_self names i c :
  NoDup (map lower names) -> names !! i = Some c ->
  position c names = Some i.
Proof.
  intros Hnd Hi. unfold position.
  assert (Hfind : list_find (fun n => lower n = lower c) names
                  = Some (i, c)).
  { apply list_find_Some. split; [exact Hi|]. split; [reflexivity|].
    intros j y Hj Hlt Heq.
    change (map lower names) with (lower <$> names) in Hnd.
    assert (j = i); [|lia].
    apply (NoDup_lookup _ _ _ (lower c) Hnd);
      rewrite list_lookup_fmap; [rewrite Hj|rewrite Hi]; cbn;
      congruence. }
  now rewrite Hfind.
Qed.

(** Into a table created with the statement's own columns, an insert
    stores its first arguments, one per column. *)
Lemma storedRow_self names (args : list (option gostring)) :
  hasDuplicates names = false ->
  (length names <= length args)%nat ->
  storedRow names names args = take (length names) args.
Proof.
  intros Hdup Hlen. unfold hasDuplicates in Hdup.
  apply negb_false_iff, bool_decide_eq_true in Hdup.
  apply list_eq. intros i. unfold storedRow.
  change (map ?f names) with (f <$> names).
  rewrite list_lookup_fmap.
  destruct (names !! i) as [c|] eqn:Hi; cbn [fmap option_fmap option_map].
  - rewrite (position_self _ _ _ Hdup Hi).
    assert (Hlt : (i < length names)%nat)
      by (apply lookup_lt_is_Some; eauto).
    rewrite lookup_take_lt by assumption.
    destruct (lookup_lt_is_Some_2 args i ltac:(lia)) as [a Ha].
    now rewrite Ha.
  - apply lookup_ge_None in Hi. symmetry. now apply lookup_take_ge.
Qed.

End ReferenceRuns.

Module IngestingTwice.
Import Reference ReferenceFacts ReferenceRuns.

Section Runs.
Context {T : RangeTables} {C : CsvCodec}.

Lemma ingested_padded names records :
  hasDuplicates names = false ->
  ingested names names (length names) records
  = paddedRows (length names) records.
Proof.
  intros Hdup. unfold ingested, paddedRows. apply map_ext. intros r.
  apply storedRow_self; [exact Hdup|].
  rewrite insertValues_length. lia.
Qed.

(** The inserts of one ingestion, and the same inserts run on
    another state in which the table has the same columns. *)
Lemma inserts_then_again db t w names records (σi σ1 σj : @State sql)
    tb tb2 :
  tableWord t = Some w ->
  Forall (fun n => forallb isIdChar n = true) names ->
  (database db σi : gmap gostring Table) !! lower w = Some tb ->
  insertRecords db (insertStmt t names (length names)) (length names)
                records σi = Returns tt σ1 ->
  (database db σj : gmap gostring Table) !! lower w = Some tb2 ->
  columns tb2 = columns tb ->
  (database db σ1
   = <[lower w := mkTable (columns tb)
                    (rows tb ++ ingested (columns tb) names
                                  (length names) records)]>
       (database db σi : gmap gostring Table)
   /\ logged σ1 = logged σi /\ Replacing σ1 = Replacing σi)
  /\ exists σ2,
       insertRecords db (insertStmt t names (length names))
                     (length names) records σj = Returns tt σ2
       /\ database db σ2
          = <[lower w := mkTable (columns tb)
                           (rows tb2 ++ ingested (columns tb) names
                                          (length names) records)]>
              (database db σj : gmap gostring Table)
       /\ logged σ2 = logged σj /\ Replacing σ2 = Replacing σj.
Proof.
  intros Ht Hn Hi Hrun Hj Hcols. split.
  - destruct (insertRecords_again db t w names (length names) records
                σi σ1 σi tb tb Ht Hn Hi Hrun Hi eq_refl)
      as (σ1' & Hrun' & Hdb & Hlog & Hrep).
    rewrite Hrun in Hrun'. injection Hrun' as <-. now repeat split.
  - exact (insertRecords_again db t w names (length names) records
             σi σ1 σj tb tb2 Ht Hn Hi Hrun Hj Hcols).
Qed.

Lemma replace_twice db t w input fileName (σ σ1 : @State sql) :
  tableWord t = Some w ->
  Replacing σ = true ->
  createTableFromReader db t input fileName σ = Returns tt σ1 ->
  exists header records σ2,
    ReadAll input = Val (header :: records)
    /\ createTableFromReader db t input fileName σ1 = Returns tt σ2
    /\ database db σ1
       = <[lower w :=
             mkTable (mapStrings header sqlNameFromString)
               (paddedRows
                  (length (mapStrings header sqlNameFromString))
                  records)]>
           (database db σ : gmap gostring Table)
    /\ database db σ2 = database db σ1
    /\ logged σ2 = logged σ1.
Proof.
  intros Ht Hrep Hrun.
  destruct (createTableFromReader_returns _ _ _ _ _ _ Hrun)
    as (header & records & σc & d2 & err & HR & Hc & HX & Herr & Hins).
  exists header, records.
  set (names := mapStrings header sqlNameFromString) in *.
  pose proof (sanitized_words header) as Hn. fold names in Hn.
  (* the drop and the create of the first run *)
  unfold stateAtCreate in Hc. rewrite Hrep in Hc.
  change (@Exec sql) with exec in Hc, HX.
  rewrite (exec_drop _ _ w) in Hc by assumption. injection Hc as <-.
  rewrite database_setDatabase in HX.
  destruct (exec_create_accepted _ _ _ _ _ _ Ht Hn HX Herr) as [Hok Hcase].
  rewrite (lookup_delete_eq (M:=gmap gostring)) in Hcase.
  destruct Hcase as (-> & -> & Hdup).
  cbn [afterCreate] in Hins. rewrite setDatabase_setDatabase in Hins.
  rewrite (insert_delete_eq (M:=gmap gostring)) in Hins.
  destruct (insertRecords_preserves _ _ _ _ _ _ Hins) as [Hlog1 Hrep1].
  cbn [Replacing setDatabase] in Hrep1. rewrite Hrep in Hrep1.
  (* the second run, up to its inserts *)
  assert (Hsecond :
            createTableFromReader db t input fileName σ1
            = insertRecords db (insertStmt t names (length names))
                (length names) records
                (setDatabase (E:=sql) db
                   (<[lower w := mkTable names []]>
                      (database db σ1 : gmap gostring Table)) σ1)).
  { rewrite (createTableFromReader_runs (E:=sql) db t input fileName σ1
               header records
               (setDatabase (E:=sql) db
                  (delete (lower w)
                     (database db σ1 : gmap gostring Table)) σ1)
               (<[lower w := mkTable names []]>
                  (delete (lower w)
                     (database db σ1 : gmap gostring Table)))
               None HR).
    - cbn [afterCreate]. rewrite setDatabase_setDatabase.
      now rewrite (insert_delete_eq (M:=gmap gostring)).
    - unfold stateAtCreate. rewrite Hrep1.
      change (@Exec sql) with exec. now rewrite (exec_drop _ _ w).
    - rewrite database_setDatabase. change (@Exec sql) with exec.
      fold names. rewrite (exec_create _ _ w), Hok by assumption.
      cbn [run]. rewrite (lookup_delete_eq (M:=gmap gostring)), Hdup.
      reflexivity.
    - discriminate. }
  (* the inserts of both runs *)
  destruct (inserts_then_again db t w names records
              (setDatabase (E:=sql) db
                 (<[lower w := mkTable names []]>
                    (database db σ : gmap gostring Table)) σ)
              σ1
              (setDatabase (E:=sql) db
                 (<[lower w := mkTable names []]>
                    (database db σ1 : gmap gostring Table)) σ1)
              (mkTable names []) (mkTable names []) Ht Hn)
    as ((Hdb1 & _ & _) & σ2 & Hrun2 & Hdb2 & Hlog2 & _);
    [ rewrite database_setDatabase;
      apply (lookup_insert_eq (M:=gmap gostring))
    | exact Hins
    | rewrite database_setDatabase;
      apply (lookup_insert_eq (M:=gmap gostring))
    | reflexivity | ].
  cbn [columns rows app] in Hdb1, Hdb2.
  rewrite database_setDatabase in Hdb1, Hdb2.
  rewrite (insert_insert_eq (M:=gmap gostring)) in Hdb1, Hdb2.
  rewrite ingested_padded in Hdb1, Hdb2 by assumption.
  exists σ2. split; [exact HR|]. split; [now rewrite Hsecond|].
  split; [exact Hdb1|]. split; [|exact Hlog2].
  rewrite Hdb2, Hdb1. apply (insert_insert_eq (M:=gmap gostring)).
Qed.

(** A second ingestion without the replace flag, after the inserts
    of a first one. *)
Lemma again_without_replace db t w input fileName header records
    (σi σ1 : @State sql) tbc :
  tableWord t = Some w ->
  ReadAll input = Val (header :: records) ->
  okNames (mapStrings header sqlNameFromString) = true ->
  (database db σi : gmap gostring Table) !! lower w = Some tbc ->
  Replacing σi = false ->
  insertRecords db
    (insertStmt t (mapStrings header sqlNameFromString)
       (length (mapStrings header sqlNameFromString)))
    (length (mapStrings header sqlNameFromString)) records σi
  = Returns tt σ1 ->
  exists σ2,
    createTableFromReader db t input fileName σ1 = Returns tt σ2
    /\ database db σ1
       = <[lower w :=
             mkTable (columns tbc)
               (rows tbc
                ++ ingested (columns tbc)
                     (mapStrings header sqlNameFromString)
                     (length (mapStrings header sqlNameFromString))
                     records)]>
           (database db σi : gmap gostring Table)
    /\ database db σ2
       = <[lower w :=
             mkTable (columns tbc)
               (rows tbc
                ++ ingested (columns tbc)
                     (mapStrings header sqlNameFromString)
                     (length (mapStrings header sqlNameFromString))
                     records
                ++ ingested (columns tbc)
                     (mapStrings header sqlNameFromString)
                     (length (mapStrings header sqlNameFromString))
                     records)]>
           (database db σi : gmap gostring Table)
    /\ logged σ1 = logged σi
    /\ logged σ2 = logged σ1 ++ [MsgTableExists t].
Proof.
  intros Ht HR Hok Hi Hrepi Hins.
  set (names := mapStrings header sqlNameFromString) in *.
  pose proof (sanitized_words header) as Hn. fold names in Hn.
  set (added := ingested (columns tbc) names (length names) records).
  set (tb1 := mkTable (columns tbc) (rows tbc ++ added)).
  (* the state in which the second run inserts *)
  set (σj := @logWarning sql (MsgTableExists t)
               (setDatabase (E:=sql) db (database db σ1) σ1)).
  destruct (inserts_then_again db t w names records σi σ1 σj tbc tb1
              Ht Hn Hi Hins)
    as ((Hdb1 & Hlog1 & Hrep1) & σ2 & Hrun2 & Hdb2 & Hlog2 & _).
  { unfold σj.
    change (database db (logWarning _ ?s)) with (database db s).
    rewrite database_setDatabase.
    destruct (insertRecords_again db t w names (length names) records
                σi σ1 σi tbc tbc Ht Hn Hi Hins Hi eq_refl)
      as (σ1' & Hrun' & Hdb & _).
    rewrite Hins in Hrun'. injection Hrun' as <-.
    rewrite Hdb. apply (lookup_insert_eq (M:=gmap gostring)). }
  { reflexivity. }
  fold added in Hdb1, Hdb2. fold tb1 in Hdb1.
  assert (Hl1 : (database db σ1 : gmap gostring Table) !! lower w
                = Some tb1).
  { rewrite Hdb1. apply (lookup_insert_eq (M:=gmap gostring)). }
  exists σ2. split; [|split; [exact Hdb1|split; [|split]]].
  - rewrite (createTableFromReader_runs (E:=sql) db t input fileName σ1
               header records σ1 (database db σ1)
               (Some (str "table " ++ w ++ str " already exists")) HR).
    + exact Hrun2.
    + unfold stateAtCreate. now rewrite Hrep1, Hrepi.
    + change (@Exec sql) with exec. fold names.
      rewrite (exec_create _ _ w), Hok by assumption.
      cbn [run]. now rewrite Hl1.
    + intros e [= <-]. apply already_exists_text.
  - rewrite Hdb2. unfold σj.
    change (database db (logWarning _ ?s)) with (database db s).
    rewrite database_setDatabase, Hdb1. cbn [columns rows tb1].
    rewrite (insert_insert_eq (M:=gmap gostring)), <- app_assoc.
    reflexivity.
  - exact Hlog1.
  - rewrite Hlog2. reflexivity.
Qed.

Lemma accumulate_twice db t w input fileName (σ σ1 : @State sql) :
  tableWord t = Some w ->
  Replacing σ = false ->
  createTableFromReader db t input fileName σ = Returns tt σ1 ->
  exists header records σ2 cols old,
    ReadAll input = Val (header :: records)
    /\ createTableFromReader db t input fileName σ1 = Returns tt σ2
    /\ database db σ1
       = <[lower w :=
             mkTable cols
               (old ++ ingested cols
                         (mapStrings header sqlNameFromString)
                         (length (mapStrings header sqlNameFromString))
                         records)]>
           (database db σ : gmap gostring Table)
    /\ database db σ2
       = <[lower w :=
             mkTable cols
               (old
                ++ ingested cols
                     (mapStrings header sqlNameFromString)
                     (length (mapStrings header sqlNameFromString))
                     records
                ++ ingested cols
                     (mapStrings header sqlNameFromString)
                     (length (mapStrings header sqlNameFromString))
                     records)]>
           (database db σ : gmap gostring Table)
    /\ logged σ2 = logged σ1 ++ [MsgTableExists t]
    /\ match (database db σ : gmap gostring Table) !! lower w with
       | Some tb0 => cols = columns tb0 /\ old = rows tb0
       | None =>
         cols = mapStrings header sqlNameFromString /\ old = []
         /\ ingested cols (mapStrings header sqlNameFromString)
              (length (mapStrings header sqlNameFromString)) records
            = paddedRows
                (length (mapStrings header sqlNameFromString)) records
       end.
Proof.
  intros Ht Hrep Hrun.
  destruct (createTableFromReader_returns _ _ _ _ _ _ Hrun)
    as (header & records & σc & d2 & err & HR & Hc & HX & Herr & Hins).
  exists header, records.
  set (names := mapStrings header sqlNameFromString) in *.
  pose proof (sanitized_words header) as Hn. fold names in Hn.
  unfold stateAtCreate in Hc. rewrite Hrep in Hc. injection Hc as <-.
  change (@Exec sql) with exec in HX.
  destruct (exec_create_accepted _ _ _ _ _ _ Ht Hn HX Herr) as [Hok Hcase].
  destruct ((database db σ : gmap gostring Table) !! lower w)
    as [tb0|] eqn:Hl.
  - (* the table was there: a warning, then the inserts *)
    destruct Hcase as (-> & ->). cbn [afterCreate] in Hins.
    destruct (again_without_replace db t w input fileName header records
                (@logWarning sql (MsgTableExists t)
                   (setDatabase (E:=sql) db (database db σ) σ))
                σ1 tb0 Ht HR Hok
                ltac:(change (database db (logWarning _ ?s))
                        with (database db s);
                      rewrite database_setDatabase; exact Hl)
                Hrep Hins)
      as (σ2 & Hrun2 & Hdb1 & Hdb2 & Hlog1 & Hlog2).
    change (database db (logWarning _ ?s)) with (database db s)
      in Hdb1, Hdb2.
    rewrite database_setDatabase in Hdb1, Hdb2.
    exists σ2, (columns tb0), (rows tb0). now repeat split.
  - (* the table is created, then the inserts *)
    destruct Hcase as (-> & -> & Hdup). cbn [afterCreate] in Hins.
    destruct (again_without_replace db t w input fileName header records
                (setDatabase (E:=sql) db
                   (<[lower w := mkTable names []]>
                      (database db σ : gmap gostring Table)) σ)
                σ1 (mkTable names []) Ht HR Hok
                ltac:(rewrite database_setDatabase;
                      apply (lookup_insert_eq (M:=gmap gostring)))
                Hrep Hins)
      as (σ2 & Hrun2 & Hdb1 & Hdb2 & Hlog1 & Hlog2).
    rewrite database_setDatabase in Hdb1, Hdb2.
    rewrite (insert_insert_eq (M:=gmap gostring)) in Hdb1, Hdb2.
    exists σ2, names, []. cbn [columns rows] in Hdb1, Hdb2.
    split; [exact HR|]. split; [exact Hrun2|]. split; [exact Hdb1|].
    split; [exact Hdb2|]. split; [exact Hlog2|].
    split; [reflexivity|]. split; [reflexivity|].
    now apply ingested_padded.
Qed.

End Runs.

End IngestingTwice.

(** ** The theorems at concrete inputs *)

Lemma returns_of_exitStatus {S} (r : Result S unit) :
  exitStatus r = 0 -> r = Returns tt (finalState r).
Proof. destruct r as [[] σ| |]; [reflexivity|discriminate..]. Qed.

Lemma executeQuery_header_row_witness :
  let σ := @initialState Reference.sql ∅ []
             {[ str "file::memory:" :=
                  {[ str "t" := Reference.mkTable [str "a"; str "b"]
                                  [[Some (str "1"); None]] ]} ]} in
  @Query Reference.sql (database (str "file::memory:") σ)
         (str "select * from t")
  = ({[ str "t" := Reference.mkTable [str "a"; str "b"]
                     [[Some (str "1"); None]] ]},
     Val (mkRows (Val [str "a"; str "b"])
            (map Val [[mkNullString (str "1") true;
                       mkNullString [] false]])))
  /\ exists σ',
       @executeQuery Reference.csv Reference.sql
         (str "file::memory:") (str "select * from t") σ = Returns tt σ'
       /\ stdout σ' = str "a,b" ++ newline ++ str "1," ++ newline.
Proof.
  cbv zeta.
  assert (HQ : @Query Reference.sql
                 (database (str "file::memory:")
                    (@initialState Reference.sql ∅ []
                       {[ str "file::memory:" :=
                            {[ str "t" :=
                                 Reference.mkTable [str "a"; str "b"]
                                   [[Some (str "1"); None]] ]} ]}))
                 (str "select * from t")
               = ({[ str "t" := Reference.mkTable [str "a"; str "b"]
                                  [[Some (str "1"); None]] ]},
                  Val (mkRows (Val [str "a"; str "b"])
                         (map Val [[mkNullString (str "1") true;
                                    mkNullString [] false]]))))
    by (vm_compute; reflexivity).
  split; [exact HQ|].
  destruct (@executeQuery_header_row Latin1Only Reference.csv Reference.sql
              _ _ _ _ _ _ HQ)
    as (_ & _ & σ' & Hrun & Hout & _).
  exists σ'. split; [exact Hrun|]. rewrite Hout.
  vm_compute. reflexivity.
Defined.

Lemma unknown_argument_is_fatal_witness :
  matchesNoRule (str "--bogus") = true
  /\ @main Latin1Only Reference.csv Reference.sql
       (str "csv2sql" :: [str "--replace"] ++ str "--bogus" :: [str "stdin"])
       (@initialState Reference.sql ∅ [] ∅)
     = Fatal (MsgUnknownArgument (str "--bogus"))
         (finalState
            (@main Latin1Only Reference.csv Reference.sql
               [str "csv2sql"; str "--replace"]
               (@initialState Reference.sql ∅ [] ∅))).
Proof.
  split; [vm_compute; reflexivity|].
  apply (@unknown_argument_is_fatal Latin1Only Reference.csv Reference.sql
           (str "csv2sql") [str "--replace"] (str "--bogus") [str "stdin"]
           (@initialState Reference.sql ∅ [] ∅)
           (finalState
              (@main Latin1Only Reference.csv Reference.sql
                 [str "csv2sql"; str "--replace"]
                 (@initialState Reference.sql ∅ [] ∅)))).
  - vm_compute. reflexivity.
  - apply returns_of_exitStatus. vm_compute. reflexivity.
Defined.

Lemma createTableFromReader_no_records_panics_witness :
  @ReadAll Reference.csv [] = Val []
  /\ @createTableFromReader Latin1Only Reference.csv Reference.sql
       (str "file::memory:") (str "stdin") [] (str "stdin")
       (@initialState Reference.sql ∅ [] ∅)
     = Panics (IndexOutOfRange 0 0) (@initialState Reference.sql ∅ [] ∅).
Proof.
  assert (HR : @ReadAll Reference.csv [] = Val [])
    by (vm_compute; reflexivity).
  split; [exact HR|].
  apply (@createTableFromReader_no_records_panics Latin1Only Reference.csv
           Reference.sql (str "file::memory:") (str "stdin") []
           (str "stdin") (@initialState Reference.sql ∅ [] ∅) [] HR).
Defined.

(* ===================================================================== *)
(** * Further properties of the program *)
(* ===================================================================== *)

(** ** The name sanitizer, continued *)

Section SanitizerMore.
Context {T : RangeTables}.

Lemma sqlNameFromString_eq (s : gostring) :
  sqlNameFromString s
  = Map alnumOrUnderscore (SpecWords.lastSegment (SpecWords.stripCsv s)).
Proof.
  unfold sqlNameFromString.
  now rewrite TrimSuffix_stripCsv, Split_last_segment.
Qed.

(** X1.  A sanitized name holds nothing but underscores, ASCII letters
    and digits, and bytes of the encodings of runes outside ASCII: no
    dot, slash, blank, quote, comma or parenthesis survives. *)
Theorem sqlNameFromString_nameBytes (s : gostring) :
  forallb nameByte (sqlNameFromString s) = true.
Proof.
  apply forallb_forall. intros c Hc. apply list_elem_of_In in Hc.
  unfold sqlNameFromString in Hc. apply Map_bytes in Hc.
  unfold nameByte, wordByte, GoUnicode.between.
  rewrite !orb_true_iff, !andb_true_iff, !Z.leb_le, !Z.eqb_eq. lia.
Qed.

Lemma wordByte_range c :
  wordByte c = true ->
  byteval c < 0x80 /\ byteval c <> 0x2E /\ byteval c <> 0x2F
  /\ alnumOrUnderscore (byteval c) = byteval c.
Proof.
  unfold wordByte, GoUnicode.between.
  rewrite !orb_true_iff, !andb_true_iff, !Z.leb_le, !Z.eqb_eq.
  intros Hc. split; [lia|]. split; [lia|]. split; [lia|].
  unfold alnumOrUnderscore.
  destruct (GoUnicode.IsLetter (byteval c) || GoUnicode.IsNumber (byteval c))
    eqn:E; [reflexivity|].
  apply orb_false_iff in E as [EL EN].
  unfold GoUnicode.IsLetter, GoUnicode.IsNumber, GoUnicode.between,
    GoUnicode.MaxLatin1 in EL, EN.
  rewrite (proj2 (Z.leb_le 0 _)), (proj2 (Z.leb_le _ 0xFF)) in EL, EN
    by lia.
  cbn [andb] in EL, EN.
  unfold GoUnicode.latin1Letter, GoUnicode.latin1Number,
    GoUnicode.between in EL, EN.
  rewrite !orb_false_iff, !andb_false_iff, !Z.leb_gt, !Z.eqb_neq in EL, EN.
  lia.
Qed.

Lemma Map_word (s : gostring) :
  forallb wordByte s = true -> Map alnumOrUnderscore s = s.
Proof.
  rewrite Map_alnumOrUnderscore.
  induction s as [|c s IH]; intros Hs; [reflexivity|].
  cbn [forallb] in Hs. apply andb_true_iff in Hs as [Hc Hs].
  destruct (wordByte_range c Hc) as (Hlt & _ & _ & Hkeep).
  pose proof (byteval_range c) as Hb.
  rewrite decode_1 by assumption. cbn [flat_map].
  rewrite Hkeep, EncodeRune_1, mkbyte_byteval, IH by (assumption || lia).
  reflexivity.
Qed.

Lemma word_no_byte (s : gostring) c :
  forallb wordByte s = true -> wordByte c = false -> c ∉ s.
Proof.
  intros Hs Hc Hin. rewrite forallb_forall in Hs.
  apply list_elem_of_In, Hs in Hin. congruence.
Qed.

Lemma word_no_csv_suffix (s : gostring) :
  forallb wordByte s = true -> HasSuffix s (str ".csv") = false.
Proof.
  intros Hs. destruct (HasSuffix s (str ".csv")) eqn:H; [|reflexivity].
  apply HasSuffix_true in H as [p Hp]. exfalso.
  apply (word_no_byte s "."%char Hs); [reflexivity|].
  rewrite Hp. apply elem_of_app. right. apply list_elem_of_here.
Qed.

(** X2.  A name made of ASCII letters, digits and underscores is its
    own sanitized form, and such a name followed by [.csv] sanitizes to
    the name: the table of [orders_2024.csv] is [orders_2024]. *)
Theorem sqlNameFromString_word (s : gostring) :
  forallb wordByte s = true ->
  sqlNameFromString s = s /\ sqlNameFromString (s ++ str ".csv") = s.
Proof.
  intros Hs.
  assert (Hseg : SpecWords.lastSegment s = s).
  { apply lastSegment_no_slash. now apply word_no_byte. }
  split.
  - rewrite sqlNameFromString_eq, stripCsv_none, Hseg
      by now apply word_no_csv_suffix.
    now apply Map_word.
  - rewrite sqlNameFromString_eq, stripCsv_app, Hseg. now apply Map_word.
Qed.

Lemma no_slash_suffix (dir f : gostring) :
  SpecWords.slash ∉ f ->
  HasSuffix f (str ".csv") = false ->
  HasSuffix (dir ++ SpecWords.slash :: f) (str ".csv") = false.
Proof.
  intros Hf Hno.
  destruct (HasSuffix (dir ++ SpecWords.slash :: f) (str ".csv")) eqn:H;
    [|reflexivity].
  apply HasSuffix_true in H as [q Hq]. exfalso.
  apply (f_equal (@rev ascii)) in Hq.
  rewrite !rev_app_distr in Hq. cbn [rev app] in Hq.
  rewrite <- app_assoc in Hq. cbn [app str list_ascii_of_string rev] in Hq.
  assert (Hrev : f = rev (rev f)) by now rewrite rev_involutive.
  destruct (rev f) as [|a [|b [|c [|d r]]]]; cbn [app] in Hq;
    try discriminate Hq.
  injection Hq as -> -> -> -> _.
  rewrite Hrev in Hno. cbn [rev] in Hno. rewrite <- !app_assoc in Hno.
  cbn [app] in Hno.
  change ["."%char; "c"%char; "s"%char; "v"%char] with (str ".csv") in Hno.
  rewrite (proj2 (HasSuffix_true _ _)) in Hno by eauto. discriminate Hno.
Qed.

(** X3.  The sanitized name of a path depends on its last segment
    only: directories play no part, so that equally named files of
    different directories get the same table name. *)
Theorem sqlNameFromString_ignores_directory (dir f : gostring) :
  SpecWords.slash ∉ f ->
  sqlNameFromString (dir ++ str "/" ++ f) = sqlNameFromString f.
Proof.
  intros Hf. rewrite !sqlNameFromString_eq. f_equal.
  change (str "/" ++ f) with (SpecWords.slash :: f).
  destruct (HasSuffix f (str ".csv")) eqn:H.
  - apply HasSuffix_true in H as [p ->].
    change (dir ++ SpecWords.slash :: p ++ str ".csv")
      with (dir ++ (SpecWords.slash :: p) ++ str ".csv").
    rewrite app_assoc, !stripCsv_app. apply lastSegment_app.
  - rewrite !stripCsv_none by (assumption || now apply no_slash_suffix).
    apply lastSegment_app.
Qed.

(** X4.  A path that ends in a slash has an empty last segment and
    sanitizes to the empty name. *)
Theorem sqlNameFromString_trailing_slash (p : gostring) :
  sqlNameFromString (p ++ str "/") = [].
Proof.
  rewrite sqlNameFromString_eq.
  change (str "/") with (SpecWords.slash :: []).
  rewrite stripCsv_none.
  - now rewrite lastSegment_app.
  - apply no_slash_suffix; [apply not_elem_of_nil|reflexivity].
Qed.

End SanitizerMore.

Lemma sqlNameFromString_word_witness :
  forallb wordByte (str "orders_2024") = true
  /\ @sqlNameFromString Latin1Only (str "orders_2024") = str "orders_2024"
  /\ @sqlNameFromString Latin1Only (str "orders_2024" ++ str ".csv")
     = str "orders_2024".
Proof.
  split; [reflexivity|].
  apply (@sqlNameFromString_word Latin1Only (str "orders_2024")).
  reflexivity.
Defined.

Lemma sqlNameFromString_ignores_directory_witness :
  (SpecWords.slash ∉ str "a.csv")
  /\ @sqlNameFromString Latin1Only (str "data/in" ++ str "/" ++ str "a.csv")
     = @sqlNameFromString Latin1Only (str "a.csv").
Proof.
  assert (H : SpecWords.slash ∉ str "a.csv").
  { intros Hin. apply list_elem_of_In in Hin. cbn in Hin.
    repeat destruct Hin as [Hin|Hin]; try discriminate Hin. exact Hin. }
  split; [exact H|].
  apply (@sqlNameFromString_ignores_directory Latin1Only). exact H.
Defined.

(** ** Output writers, continued *)

Lemma genSplit_Join_byte (c : ascii) (l : list gostring) :
  forall (a : gostring) (fuel : nat),
    Forall (fun f => c ∉ f) (a :: l) ->
    (length l <= fuel)%nat ->
    genSplit fuel (Join (a :: l) [c]) [c] = a :: l.
Proof.
  induction l as [|b l IH]; intros a fuel Hall Hfuel.
  - apply Forall_cons in Hall as [Ha _]. cbn [Join fold_left].
    destruct fuel; cbn [genSplit]; [reflexivity|].
    now rewrite Index_byte_absent.
  - apply Forall_cons in Hall as [Ha Hl].
    destruct fuel as [|fuel]; [cbn in Hfuel; lia|].
    rewrite Join_cons2. cbn [genSplit app].
    rewrite Index_byte_first by assumption.
    rewrite take_app_length.
    replace (length a + length [c])%nat with (S (length a))
      by (cbn [length]; lia).
    change (a ++ c :: Join (b :: l) [c])
      with (a ++ [c] ++ Join (b :: l) [c]).
    rewrite app_assoc.
    replace (S (length a)) with (length (a ++ [c]))
      by (rewrite length_app; cbn [length]; lia).
    rewrite drop_app_length. f_equal.
    apply IH; [assumption|cbn [length] in Hfuel; lia].
Qed.

Lemma Join_length_ge (a : gostring) (l : list gostring) (c : ascii) :
  (length l <= length (Join (a :: l) [c]))%nat.
Proof.
  revert a. induction l as [|b l IH]; intros a; [cbn [length]; lia|].
  rewrite Join_cons2, !length_app. specialize (IH b).
  cbn [length] in *. lia.
Qed.

Lemma Split_Join_byte (c : ascii) (l : list gostring) :
  l <> [] ->
  Forall (fun f => c ∉ f) l ->
  Split (Join l [c]) [c] = l.
Proof.
  intros Hne Hall. destruct l as [|a l]; [congruence|].
  unfold Split. apply genSplit_Join_byte; [assumption|].
  apply Join_length_ge.
Qed.

(** X5.  A plain-text row can be read back: when there is at least one
    field and no field holds a tab, splitting the written line at the
    tabs yields the fields again. *)
Theorem PlainTextWriter_Write_splits_back (buffered : gostring)
    (fields : list gostring) :
  fields <> [] ->
  Forall (fun f => "009"%char ∉ f) fields ->
  PlainTextWriter_Write buffered fields
  = buffered ++ Join fields tab ++ newline
  /\ Split (Join fields tab) tab = fields.
Proof.
  intros Hne Hall. split; [reflexivity|].
  now apply Split_Join_byte.
Qed.

Lemma PlainTextWriter_Write_splits_back_witness :
  [str "1"; str ""; str "a b"] <> []
  /\ Forall (fun f => "009"%char ∉ f) [str "1"; str ""; str "a b"]
  /\ PlainTextWriter_Write (str "x") [str "1"; str ""; str "a b"]
     = str "x" ++ Join [str "1"; str ""; str "a b"] tab ++ newline
  /\ Split (Join [str "1"; str ""; str "a b"] tab) tab
     = [str "1"; str ""; str "a b"].
Proof.
  assert (Hne : [str "1"; str ""; str "a b"] <> []) by discriminate.
  assert (Hall : Forall (fun f => "009"%char ∉ f)
                   [str "1"; str ""; str "a b"]).
  { repeat constructor; intros Hin; apply list_elem_of_In in Hin;
      cbn in Hin; repeat destruct Hin as [Hin|Hin];
      try discriminate Hin; exact Hin. }
  split; [exact Hne|]. split; [exact Hall|].
  apply (PlainTextWriter_Write_splits_back (str "x") _ Hne Hall).
Defined.

(** ** The statements of the ingester *)

Lemma Repeat_snoc (s : gostring) (n : nat) :
  Repeat s (S n) = Repeat s n ++ s.
Proof.
  induction n as [|n IH]; cbn [Repeat] in *.
  - now rewrite app_nil_r.
  - now rewrite IH at 1; rewrite app_assoc.
Qed.

Lemma TrimRight_placeholder (body : gostring) :
  TrimRight (body ++ str "?, ") (str ", ") = body ++ str "?".
Proof.
  unfold TrimRight. rewrite rev_app_distr.
  change (rev (str "?, ")) with [" "%char; ","%char; "?"%char].
  cbn [app dropWhile].
  change (inCutset (str ", ") " "%char) with true.
  change (inCutset (str ", ") ","%char) with true.
  change (inCutset (str ", ") "?"%char) with false.
  cbv iota. cbn [rev]. now rewrite rev_involutive.
Qed.

Lemma Join_placeholders (n : nat) :
  Join (repeat (str "?") (S n)) (str ", ")
  = Repeat (str "?, ") n ++ str "?".
Proof.
  induction n as [|n IH]; [reflexivity|].
  change (repeat (str "?") (S (S n)))
    with (str "?" :: str "?" :: repeat (str "?") n).
  rewrite Join_cons2.
  change (str "?" :: repeat (str "?") n) with (repeat (str "?") (S n)).
  rewrite IH. cbn [Repeat]. now rewrite <- !app_assoc.
Qed.

(** X6.  The insert statement has one placeholder per column of the
    header: [fieldCount] question marks with comma and blank between
    neighbours and nothing after the last, none when there is no
    column. *)
Theorem insertStmt_placeholders (tableName : gostring)
    (fieldNames : list gostring) (fieldCount : nat) :
  insertStmt tableName fieldNames fieldCount
  = str "insert into " ++ tableName ++ str " ("
    ++ Join fieldNames (str ", ") ++ str ") values ("
    ++ Join (repeat (str "?") fieldCount) (str ", ") ++ str ")".
Proof.
  unfold insertStmt. do 5 f_equal.
  destruct fieldCount as [|n]; [reflexivity|].
  now rewrite Repeat_snoc, TrimRight_placeholder, Join_placeholders.
Qed.

(** ** What the actions of the program leave alone *)

Section Frames.
Context {T : RangeTables} {C : CsvCodec} {E : SqlEngine}.
Context {X : Type} (f : State -> X).

Lemma keeps_bind {A B} (m : M A) (k : A -> M B) :
  keeps f m -> (forall a, keeps f (k a)) -> keeps f (bind m k).
Proof.
  intros Hm Hk σ. unfold bind. specialize (Hm σ).
  destruct (m σ) as [a σ1|msg σ1|p σ1]; cbn [finalState] in *;
    [|assumption..].
  now rewrite Hk.
Qed.

Lemma keeps_ret {A} (a : A) : keeps f (ret a).
Proof. now intros σ. Qed.

Lemma keeps_Fatalf {A} msg : keeps f (@Fatalf E A msg).
Proof. now intros σ. Qed.

Lemma keeps_panic {A} p : keeps f (@panic E A p).
Proof. now intros σ. Qed.

Lemma keeps_get {A} (g : State -> A) : keeps f (get g).
Proof. now intros σ. Qed.

Lemma keeps_readFile fileName : keeps f (readFile fileName).
Proof. now intros σ. Qed.

Lemma keeps_getWriter : keeps f getWriter.
Proof.
  intros σ. unfold getWriter, bind, get, ret.
  now destruct (WritePlainText σ).
Qed.

Lemma keeps_readSQLFile fileName : keeps f (readSQLFile fileName).
Proof.
  apply keeps_bind; [apply keeps_readFile|].
  intros [contents|e]; [apply keeps_ret|apply keeps_Fatalf].
Qed.

Lemma keeps_writeRows writer pending : keeps f (writeRows writer pending).
Proof.
  revert writer.
  induction pending as [|[values|e] pending IH]; intros writer;
    cbn [writeRows]; [apply keeps_ret|apply IH|apply keeps_Fatalf].
Qed.

Hypothesis f_database : forall dsn d σ, f (setDatabase dsn d σ) = f σ.
Hypothesis f_stdout : forall bytes, keeps f (writeStdout bytes).
Hypothesis f_logged : forall m, keeps f (Printf m).

Lemma keeps_dbExec dsn query args : keeps f (dbExec dsn query args).
Proof.
  intros σ. unfold dbExec.
  destruct (Exec (database dsn σ) query args) as [d e].
  apply f_database.
Qed.

Lemma keeps_dbQuery dsn query : keeps f (dbQuery dsn query).
Proof.
  intros σ. unfold dbQuery.
  destruct (Query (database dsn σ) query) as [d r].
  apply f_database.
Qed.

Lemma keeps_executeQuery db query : keeps f (executeQuery db query).
Proof.
  apply keeps_bind; [apply keeps_dbQuery|].
  intros [rows|e]; [|apply keeps_Fatalf].
  destruct (Columns rows) as [columns|e]; [|apply keeps_Fatalf].
  apply keeps_bind; [apply keeps_getWriter|]. intros writer.
  apply keeps_bind; [apply keeps_get|]. intros headersOn. cbv zeta.
  apply keeps_bind; [apply keeps_writeRows|]. intros writer'.
  apply f_stdout.
Qed.

Lemma keeps_insertRecords db stmt fieldCount records :
  keeps f (insertRecords db stmt fieldCount records).
Proof.
  induction records as [|record records IH]; cbn [insertRecords];
    [apply keeps_ret|].
  apply keeps_bind; [apply keeps_dbExec|].
  intros [e|]; [apply keeps_Fatalf|apply IH].
Qed.

Lemma keeps_createTableFromReader db tableName input fileName :
  keeps f (createTableFromReader db tableName input fileName).
Proof.
  unfold createTableFromReader.
  destruct (ReadAll input) as [records|e]; [|apply keeps_Fatalf].
  destruct (records !! 0%nat) as [header|]; [|apply keeps_panic].
  cbv zeta.
  apply keeps_bind; [apply keeps_get|]. intros replacing.
  apply keeps_bind.
  { destruct replacing; [|apply keeps_ret].
    apply keeps_bind; [apply keeps_dbExec|].
    intros [e|]; [apply keeps_Fatalf|apply keeps_ret]. }
  intros _. apply keeps_bind; [apply keeps_dbExec|]. intros err.
  apply keeps_bind; [|intros _; apply keeps_insertRecords].
  destruct err as [e|]; [|apply keeps_ret].
  destruct (Contains e (str "already exists"));
    [apply f_logged|apply keeps_Fatalf].
Qed.

Lemma keeps_createTableFromCSV db tableName fileName :
  keeps f (createTableFromCSV db tableName fileName).
Proof.
  apply keeps_bind; [apply keeps_readFile|].
  intros [csvFile|e];
    [apply keeps_createTableFromReader|apply keeps_Fatalf].
Qed.

End Frames.

(** ** The argument dispatcher, continued *)

Section DispatcherMore.
Context {T : RangeTables} {C : CsvCodec} {E : SqlEngine}.

Lemma flagsKept_refl (σ : State) : flagsKept σ σ = true.
Proof.
  unfold flagsKept. now destruct (Replacing σ), (WritePlainText σ).
Qed.

Lemma flagsKept_trans (σ1 σ2 σ3 : State) :
  flagsKept σ1 σ2 = true -> flagsKept σ2 σ3 = true ->
  flagsKept σ1 σ3 = true.
Proof.
  unfold flagsKept.
  destruct (Replacing σ1), (Replacing σ2), (Replacing σ3),
    (WritePlainText σ1), (WritePlainText σ2), (WritePlainText σ3);
    cbn; congruence.
Qed.

Lemma flagsKept_bind {A B} (m : M A) (k : A -> M B) σ :
  flagsKept σ (finalState (m σ)) = true ->
  (forall a σ1, flagsKept σ1 (finalState (k a σ1)) = true) ->
  flagsKept σ (finalState (bind m k σ)) = true.
Proof.
  intros Hm Hk. unfold bind.
  destruct (m σ) as [a σ1|msg σ1|p σ1]; cbn [finalState] in *;
    [|assumption..].
  eapply flagsKept_trans; [exact Hm|apply Hk].
Qed.

Lemma flagsKept_keeps {A} (m : M A) σ :
  keeps Replacing m -> keeps WritePlainText m ->
  flagsKept σ (finalState (m σ)) = true.
Proof.
  intros HR HW. unfold flagsKept. rewrite HR, HW. apply flagsKept_refl.
Qed.

Ltac keeps_flag :=
  first [ apply keeps_createTableFromCSV
        | apply keeps_createTableFromReader
        | apply keeps_executeQuery
        | apply keeps_readSQLFile ];
  intros; try (intros ?); reflexivity.

Lemma mainLoop_flagsKept (n : nat) :
  forall args, length args = n ->
  forall db tableName σ,
    flagsKept σ (finalState (mainLoop args db tableName σ)) = true.
Proof.
  induction n as [n IH] using lt_wf_ind.
  intros args Hn db tableName σ.
  destruct args as [|arg rest]; [apply flagsKept_refl|].
  cbn [length] in Hn.
  assert (IH1 : forall db tableName σ,
             flagsKept σ (finalState (mainLoop rest db tableName σ))
             = true).
  { intros. eapply (IH (length rest)); [lia|reflexivity]. }
  cbn [mainLoop].
  destruct (eqs arg "--plain-text" || eqs arg "--plain" || eqs arg "--text").
  { apply flagsKept_bind; [|intros; apply IH1].
    unfold flagsKept. cbn.
    destruct (Replacing σ), (WritePlainText σ); reflexivity. }
  destruct (eqs arg "--replace").
  { apply flagsKept_bind; [|intros; apply IH1].
    unfold flagsKept. cbn.
    destruct (Replacing σ), (WritePlainText σ); reflexivity. }
  destruct (eqs arg "--db").
  { destruct rest as [|dbName rest']; [apply flagsKept_refl|].
    eapply (IH (length rest')); [cbn in Hn; lia|reflexivity]. }
  destruct (eqs arg "--table").
  { destruct rest as [|name rest']; [apply flagsKept_refl|].
    eapply (IH (length rest')); [cbn in Hn; lia|reflexivity]. }
  destruct (eqs arg "--no-headers" || eqs arg "--no-header").
  { apply flagsKept_bind; [|intros; apply IH1].
    apply flagsKept_keeps; intros σ0; reflexivity. }
  destruct (eqs arg "--headers").
  { apply flagsKept_bind; [|intros; apply IH1].
    apply flagsKept_keeps; intros σ0; reflexivity. }
  destruct (HasSuffix arg (str ".csv")).
  { cbv zeta. apply flagsKept_bind; [|intros; apply IH1].
    apply flagsKept_keeps; keeps_flag. }
  destruct (HasSuffix arg (str ".sql")).
  { apply flagsKept_bind; [apply flagsKept_keeps; keeps_flag|].
    intros query σ1.
    apply flagsKept_bind; [|intros; apply IH1].
    apply flagsKept_keeps; keeps_flag. }
  destruct (eqs arg "stdin").
  { cbv zeta.
    apply flagsKept_bind;
      [apply flagsKept_keeps; intros σ0; reflexivity|].
    intros input σ1.
    apply flagsKept_bind; [|intros; apply IH1].
    apply flagsKept_keeps; keeps_flag. }
  destruct (HasPrefix arg (str "select")).
  { apply flagsKept_bind; [|intros; apply IH1].
    apply flagsKept_keeps; keeps_flag. }
  apply flagsKept_refl.
Qed.

(** X7.  No token clears the replace flag or the plain-text flag: a
    flag that is set stays set in every later state of the run,
    however the run ends. *)
Theorem flags_never_cleared (osArgs : list gostring) (σ : State) :
  flagsKept σ (finalState (main osArgs σ)) = true.
Proof.
  unfold main. apply flagsKept_bind; [|intros; apply flagsKept_refl].
  now apply (mainLoop_flagsKept (length (drop 1 osArgs))).
Qed.

(** X8.  Token lists compose: when the tokens [pre] are processed to
    the end of the loop, the tokens [pre ++ post] are processed as
    [post] is from the state, the database handle and the table name
    override that [pre] leaves. *)
Theorem mainLoop_composes (pre post : list gostring)
    (db tableName db' tableName' : gostring) (σ σ' : State) :
  mainLoop pre db tableName σ = Returns (db', tableName') σ' ->
  mainLoop (pre ++ post) db tableName σ
  = mainLoop post db' tableName' σ'.
Proof. apply mainLoop_app. Qed.

(** X9.  [--db] and [--table] as the last token, with no value after
    them, end the process with the message that an argument is
    required, in the state the earlier tokens left. *)
Theorem option_requires_argument (prog : gostring) (pre : list gostring)
    (σ σ' : State) :
  main (prog :: pre) σ = Returns tt σ' ->
  main (prog :: pre ++ [str "--db"]) σ = Fatal MsgDbRequiresArgument σ'
  /\ main (prog :: pre ++ [str "--table"]) σ
     = Fatal MsgTableRequiresArgument σ'.
Proof.
  intros Hpre.
  destruct (main_returns _ _ _ _ Hpre) as (db & tableName & Hloop).
  split; unfold main, bind.
  - change (drop 1 (prog :: pre ++ [str "--db"]))
      with (pre ++ [str "--db"]).
    cbv beta. now rewrite (mainLoop_app _ _ _ _ _ _ _ _ Hloop).
  - change (drop 1 (prog :: pre ++ [str "--table"]))
      with (pre ++ [str "--table"]).
    cbv beta. now rewrite (mainLoop_app _ _ _ _ _ _ _ _ Hloop).
Qed.

(** X10.  [--db name] opens [name] with one [.db] at its end: the
    name itself when it ends in [.db], the name followed by [.db]
    otherwise; the handle that was open before plays no part in what
    follows. *)
Theorem db_option_opens (name : gostring) (rest : list gostring)
    (db tableName : gostring) (σ : State) :
  mainLoop (str "--db" :: name :: rest) db tableName σ
  = mainLoop rest (TrimSuffix name (str ".db") ++ str ".db") tableName σ.
Proof.
  cbn [mainLoop]. eval_tests.
  destruct (HasSuffix name (str ".db")) eqn:H.
  - apply HasSuffix_true in H as [p ->]. now rewrite TrimSuffix_app.
  - now rewrite TrimSuffix_none.
Qed.

Ltac not_a_flag H :=
  repeat match goal with
  | |- context [eqs ?a ?flag] =>
    let Eq := fresh "Eq" in
    destruct (eqs a flag) eqn:Eq;
    [ exfalso; unfold eqs in Eq; apply bool_decide_eq_true in Eq;
      rewrite Eq in H; vm_compute in H; discriminate H
    | ]
  end;
  cbn [orb].

Lemma bind_ext {A B} (m : M A) (k k' : A -> M B) σ :
  (forall a σ1, k a σ1 = k' a σ1) -> bind m k σ = bind m k' σ.
Proof. intros Hk. unfold bind. now destruct (m σ). Qed.

(** A token that ends in [.csv] is ingested as a file. *)
Lemma mainLoop_csv arg rest db tableName σ :
  HasSuffix arg (str ".csv") = true ->
  mainLoop (arg :: rest) db tableName σ
  = (do _ <- createTableFromCSV db
               (if bool_decide (tableName = [])
                then sqlNameFromString arg else tableName) arg ;;
     mainLoop rest db []) σ.
Proof.
  intros H. cbn [mainLoop]. not_a_flag H. now rewrite H.
Qed.

(** X11.  A table name given by [--table] applies to the next CSV
    file only, and is used as it is, not sanitized: the file after
    that one gets the name derived from its own path. *)
Theorem table_override_applies_once (t a b : gostring)
    (rest : list gostring) (db tableName : gostring) (σ : State) :
  t <> [] ->
  HasSuffix a (str ".csv") = true ->
  HasSuffix b (str ".csv") = true ->
  mainLoop (str "--table" :: t :: a :: b :: rest) db tableName σ
  = (do _ <- createTableFromCSV db t a ;;
     do _ <- createTableFromCSV db (sqlNameFromString b) b ;;
     mainLoop rest db []) σ.
Proof.
  intros Ht Ha Hb.
  change (mainLoop (str "--table" :: t :: a :: b :: rest) db tableName σ)
    with (mainLoop (a :: b :: rest) db t σ).
  rewrite (mainLoop_csv a), bool_decide_eq_false_2 by assumption.
  apply bind_ext. intros _ σ1.
  now rewrite (mainLoop_csv b) by assumption.
Qed.

(** X12.  A token that ends in [.csv] or [.sql] is taken for a file
    name whatever else it looks like -- a query text with such an end
    is not executed -- and when no such file exists the process ends
    with the message of the failed open or read, the state
    unchanged. *)
Theorem missing_file_is_fatal (arg : gostring) (rest : list gostring)
    (db tableName : gostring) (σ : State) :
  files σ !! arg = None ->
  HasSuffix arg (str ".csv") || HasSuffix arg (str ".sql") = true ->
  exists e,
    mainLoop (arg :: rest) db tableName σ
    = Fatal (if HasSuffix arg (str ".csv") then MsgOpenCSV arg e
             else MsgReadSQLFile arg e) σ.
Proof.
  intros Hfile Hsuffix. eexists.
  destruct (HasSuffix arg (str ".csv")) eqn:Hcsv.
  - rewrite mainLoop_csv by assumption.
    unfold createTableFromCSV, bind, readFile. cbv beta.
    rewrite Hfile. reflexivity.
  - cbn [orb] in Hsuffix. cbn [mainLoop]. not_a_flag Hsuffix.
    rewrite Hcsv, Hsuffix.
    unfold readSQLFile, bind, readFile. cbv beta.
    rewrite Hfile. reflexivity.
Qed.

(** X13.  Standard input can be ingested once: after a [stdin] token
    that was processed to the end, a second [stdin] token finds the
    input at its end, hence no records, and the run ends in the
    run-time panic of the index into the empty record list. *)
Theorem stdin_only_once (rest : list gostring)
    (db tableName db' tableName' : gostring) (σ σ' : State) :
  ReadAll [] = Val [] ->
  mainLoop [str "stdin"] db tableName σ = Returns (db', tableName') σ' ->
  mainLoop (str "stdin" :: str "stdin" :: rest) db tableName σ
  = Panics (IndexOutOfRange 0 0) σ'.
Proof.
  intros Hempty Hrun.
  change (str "stdin" :: str "stdin" :: rest)
    with ([str "stdin"] ++ str "stdin" :: rest).
  rewrite (mainLoop_app _ _ _ _ _ _ _ _ Hrun).
  assert (Hin : stdin σ' = []).
  { cbn [mainLoop] in Hrun. revert Hrun. eval_tests. cbv zeta.
    unfold bind at 1. unfold readStdin at 1. unfold bind at 1.
    set (name := if bool_decide (tableName = []) then _ else _).
    set (σ0 := mkState _ _ _ _ _ _ _ _).
    pose proof (keeps_createTableFromReader stdin
                  (fun _ _ _ => eq_refl) (fun _ _ => eq_refl)
                  db name (stdin σ) (str "stdin") σ0)
      as Hkeep.
    destruct (createTableFromReader db name (stdin σ) (str "stdin") σ0)
      as [u σ1|msg σ1|p σ1]; [|discriminate..].
    unfold ret. intros [= _ _ <-]. exact Hkeep. }
  cbn [mainLoop]. eval_tests. cbv zeta.
  unfold bind at 1. unfold readStdin at 1. unfold bind at 1.
  rewrite Hin, createTableFromReader_empty by assumption.
  f_equal. destruct σ'. cbn in Hin. now subst.
Qed.

End DispatcherMore.

Lemma returns_of_exitStatus_with {S A} (r : Result S A) :
  exitStatus r = 0 -> exists a σ, r = Returns a σ.
Proof. destruct r; [eauto|discriminate..]. Qed.

Lemma mainLoop_composes_witness :
  @mainLoop Latin1Only Reference.csv Recorder.sql
    [str "--table"; str "t"] (str "d") []
    (@initialState Recorder.sql ∅ [] ∅)
  = Returns (str "d", str "t") (@initialState Recorder.sql ∅ [] ∅)
  /\ @mainLoop Latin1Only Reference.csv Recorder.sql
       ([str "--table"; str "t"] ++ [str "--replace"]) (str "d") []
       (@initialState Recorder.sql ∅ [] ∅)
     = @mainLoop Latin1Only Reference.csv Recorder.sql
         [str "--replace"] (str "d") (str "t")
         (@initialState Recorder.sql ∅ [] ∅).
Proof.
  assert (H : @mainLoop Latin1Only Reference.csv Recorder.sql
                [str "--table"; str "t"] (str "d") []
                (@initialState Recorder.sql ∅ [] ∅)
              = Returns (str "d", str "t")
                        (@initialState Recorder.sql ∅ [] ∅))
    by reflexivity.
  split; [exact H|].
  apply (@mainLoop_composes Latin1Only Reference.csv Recorder.sql
           _ [str "--replace"] _ _ _ _ _ _ H).
Defined.

Lemma option_requires_argument_witness :
  @main Latin1Only Reference.csv Recorder.sql
    [str "csv2sql"; str "--replace"] (@initialState Recorder.sql ∅ [] ∅)
  = Returns tt (@mkState Recorder.sql ∅ [] [] [] ∅ true true false)
  /\ @main Latin1Only Reference.csv Recorder.sql
       (str "csv2sql" :: [str "--replace"] ++ [str "--db"])
       (@initialState Recorder.sql ∅ [] ∅)
     = Fatal MsgDbRequiresArgument
             (@mkState Recorder.sql ∅ [] [] [] ∅ true true false)
  /\ @main Latin1Only Reference.csv Recorder.sql
       (str "csv2sql" :: [str "--replace"] ++ [str "--table"])
       (@initialState Recorder.sql ∅ [] ∅)
     = Fatal MsgTableRequiresArgument
             (@mkState Recorder.sql ∅ [] [] [] ∅ true true false).
Proof.
  assert (H : @main Latin1Only Reference.csv Recorder.sql
                [str "csv2sql"; str "--replace"]
                (@initialState Recorder.sql ∅ [] ∅)
              = Returns tt
                  (@mkState Recorder.sql ∅ [] [] [] ∅ true true false))
    by reflexivity.
  split; [exact H|].
  apply (@option_requires_argument Latin1Only Reference.csv Recorder.sql
           (str "csv2sql") [str "--replace"] _ _ H).
Defined.

Lemma table_override_applies_once_witness :
  str "t" <> []
  /\ HasSuffix (str "a.csv") (str ".csv") = true
  /\ HasSuffix (str "dir/b.csv") (str ".csv") = true
  /\ @mainLoop Latin1Only Reference.csv Recorder.sql
       [str "--table"; str "t"; str "a.csv"; str "dir/b.csv"]
       (str "d") [] (@initialState Recorder.sql ∅ [] ∅)
     = (do _ <- createTableFromCSV (T:=Latin1Only) (C:=Reference.csv)
                  (str "d") (str "t") (str "a.csv") ;;
        do _ <- createTableFromCSV (T:=Latin1Only) (C:=Reference.csv)
                  (str "d")
                  (@sqlNameFromString Latin1Only (str "dir/b.csv"))
                  (str "dir/b.csv") ;;
        mainLoop (T:=Latin1Only) (C:=Reference.csv) [] (str "d") [])
         (@initialState Recorder.sql ∅ [] ∅).
Proof.
  assert (Ht : str "t" <> []) by discriminate.
  assert (Ha : HasSuffix (str "a.csv") (str ".csv") = true)
    by reflexivity.
  assert (Hb : HasSuffix (str "dir/b.csv") (str ".csv") = true)
    by reflexivity.
  split; [exact Ht|]. split; [exact Ha|]. split; [exact Hb|].
  apply (@table_override_applies_once Latin1Only Reference.csv
           Recorder.sql _ _ _ [] (str "d") [] _ Ht Ha Hb).
Defined.

Lemma missing_file_is_fatal_witness :
  files (@initialState Reference.sql ∅ [] ∅) !! str "select 1 as a.sql"
  = None
  /\ HasSuffix (str "select 1 as a.sql") (str ".csv")
     || HasSuffix (str "select 1 as a.sql") (str ".sql") = true
  /\ exists e,
       @mainLoop Latin1Only Reference.csv Reference.sql
         [str "select 1 as a.sql"] (str "d") []
         (@initialState Reference.sql ∅ [] ∅)
       = Fatal (if HasSuffix (str "select 1 as a.sql") (str ".csv")
                then MsgOpenCSV (str "select 1 as a.sql") e
                else MsgReadSQLFile (str "select 1 as a.sql") e)
               (@initialState Reference.sql ∅ [] ∅).
Proof.
  assert (Hf : files (@initialState Reference.sql ∅ [] ∅)
               !! str "select 1 as a.sql" = None)
    by apply lookup_empty.
  assert (Hs : HasSuffix (str "select 1 as a.sql") (str ".csv")
               || HasSuffix (str "select 1 as a.sql") (str ".sql") = true)
    by reflexivity.
  split; [exact Hf|]. split; [exact Hs|].
  apply (@missing_file_is_fatal Latin1Only Reference.csv Reference.sql
           _ [] (str "d") [] _ Hf Hs).
Defined.

Lemma stdin_only_once_witness :
  @ReadAll Reference.csv [] = Val []
  /\ exitStatus
       (@mainLoop Latin1Only Reference.csv Reference.sql
          [str "stdin"] (str "d") []
          (@initialState Reference.sql ∅ (str "a,b" ++ newline) ∅)) = 0
  /\ exitStatus
       (@mainLoop Latin1Only Reference.csv Reference.sql
          [str "stdin"; str "stdin"; str "select * from stdin"]
          (str "d") []
          (@initialState Reference.sql ∅ (str "a,b" ++ newline) ∅)) = 2.
Proof.
  assert (HR : @ReadAll Reference.csv [] = Val [])
    by (vm_compute; reflexivity).
  assert (H0 : exitStatus
                 (@mainLoop Latin1Only Reference.csv Reference.sql
                    [str "stdin"] (str "d") []
                    (@initialState Reference.sql ∅
                       (str "a,b" ++ newline) ∅)) = 0)
    by (vm_compute; reflexivity).
  split; [exact HR|]. split; [exact H0|].
  destruct (returns_of_exitStatus_with _ H0) as ([db' tableName'] & σ' & Hrun).
  rewrite (@stdin_only_once Latin1Only Reference.csv Reference.sql
             [str "select * from stdin"] _ _ _ _ _ _ HR Hrun).
  reflexivity.
Defined.

(** ** The CSV ingester, continued *)

Section HeaderFlag.
Context {T : RangeTables} {C : CsvCodec} {E : SqlEngine}.
Variable b : bool.

Lemma bind_withHeadersOn {A B} (m : M A) (k : A -> M B) σ :
  m (withHeadersOn b σ) = mapState (withHeadersOn b) (m σ) ->
  (forall a σ1,
      k a (withHeadersOn b σ1) = mapState (withHeadersOn b) (k a σ1)) ->
  bind m k (withHeadersOn b σ) = mapState (withHeadersOn b) (bind m k σ).
Proof.
  intros Hm Hk. unfold bind. rewrite Hm.
  destruct (m σ); cbn [mapState]; auto.
Qed.

Lemma dbExec_withHeadersOn db query args σ :
  dbExec db query args (withHeadersOn b σ)
  = mapState (withHeadersOn b) (dbExec db query args σ).
Proof.
  unfold dbExec.
  change (database db (withHeadersOn b σ)) with (database db σ).
  now destruct (Exec (database db σ) query args).
Qed.

Lemma insertRecords_withHeadersOn db stmt fieldCount records σ :
  insertRecords db stmt fieldCount records (withHeadersOn b σ)
  = mapState (withHeadersOn b)
             (insertRecords db stmt fieldCount records σ).
Proof.
  revert σ. induction records as [|record records IH]; intros σ;
    [reflexivity|].
  cbn [insertRecords].
  apply bind_withHeadersOn; [apply dbExec_withHeadersOn|].
  intros [e|] σ1; [reflexivity|apply IH].
Qed.

Lemma createTableFromReader_withHeadersOn db tableName input fileName σ :
  createTableFromReader db tableName input fileName (withHeadersOn b σ)
  = mapState (withHeadersOn b)
             (createTableFromReader db tableName input fileName σ).
Proof.
  unfold createTableFromReader.
  destruct (ReadAll input) as [records|e]; [|reflexivity].
  destruct (records !! 0%nat) as [header|]; [|reflexivity].
  cbv zeta.
  apply bind_withHeadersOn; [reflexivity|]. intros replacing σ1.
  apply bind_withHeadersOn.
  { destruct replacing; [|reflexivity].
    apply bind_withHeadersOn; [apply dbExec_withHeadersOn|].
    now intros [e|] σ2. }
  intros _ σ2.
  apply bind_withHeadersOn; [apply dbExec_withHeadersOn|].
  intros err σ3.
  apply bind_withHeadersOn;
    [|intros _ σ4; apply insertRecords_withHeadersOn].
  destruct err as [e|]; [|reflexivity].
  now destruct (Contains e (str "already exists")).
Qed.

(** X14.  Ingestion does not look at the header flag and does not
    change it: with the flag on or off, the first record of the source
    gives the column names, the statements and the outcome are the
    same, and the flag is what it was. *)
Theorem ingestion_ignores_header_flag
    (db tableName input fileName : gostring) (σ : State) :
  createTableFromReader db tableName input fileName (withHeadersOn b σ)
  = mapState (withHeadersOn b)
             (createTableFromReader db tableName input fileName σ)
  /\ createTableFromCSV db tableName fileName (withHeadersOn b σ)
     = mapState (withHeadersOn b)
                (createTableFromCSV db tableName fileName σ).
Proof.
  split; [apply createTableFromReader_withHeadersOn|].
  unfold createTableFromCSV.
  apply bind_withHeadersOn; [reflexivity|].
  intros [csvFile|e] σ1; [|reflexivity].
  apply createTableFromReader_withHeadersOn.
Qed.

End HeaderFlag.

(** ** The query executor, continued *)

Section ExecutorMore.
Context {T : RangeTables} {C : CsvCodec} {E : SqlEngine}.

Lemma writeRows_scan_error writer values e later σ :
  writeRows writer (map Val values ++ Err e :: later) σ
  = Fatal (MsgScan e) σ.
Proof.
  revert writer.
  induction values as [|v values IH]; intros writer; [reflexivity|].
  cbn [map app writeRows]. apply IH.
Qed.

(** X15.  The three errors [executeQuery] checks end the process by
    [log.Fatalf]: a query the engine rejects and a failure to get
    the column names do so before anything is written, with the
    state of standard output as it was; the first row that fails to
    scan does so whatever rows follow it.  (Whether the iteration
    over the rows itself ended in an error is not checked by the
    code, and is not the concern of this statement.) *)
Theorem executeQuery_checked_errors (db query : gostring) (σ : State)
    (d : DB) (r : Try Rows) :
  Query (database db σ) query = (d, r) ->
  match r with
  | Err e =>
    executeQuery db query σ = Fatal (MsgQuery query e) (setDatabase db d σ)
  | Val rows =>
    match Columns rows with
    | Err e =>
      executeQuery db query σ
      = Fatal (MsgColumns query e) (setDatabase db d σ)
    | Val columns =>
      forall values e later,
        scans rows = map Val values ++ Err e :: later ->
        exists σ', executeQuery db query σ = Fatal (MsgScan e) σ'
    end
  end.
Proof.
  intros HQ.
  assert (Hrun : executeQuery db query σ
                 = match r with
                   | Err e => Fatal (MsgQuery query e) (setDatabase db d σ)
                   | Val rows =>
                     match Columns rows with
                     | Err e =>
                       Fatal (MsgColumns query e) (setDatabase db d σ)
                     | Val columns =>
                       (do writer <- getWriter ;;
                        do headersOn <- get HeadersOn ;;
                        do writer <-
                          writeRows (if headersOn then Write writer columns
                                     else writer) (scans rows) ;;
                        Flush writer) (setDatabase db d σ)
                     end
                   end).
  { unfold executeQuery. unfold bind at 1. unfold dbQuery at 1.
    rewrite HQ. destruct r as [rows|e]; [|reflexivity].
    now destruct (Columns rows). }
  destruct r as [rows|e]; [|exact Hrun].
  destruct (Columns rows) as [columns|e]; [|exact Hrun].
  intros values e later Hscans. rewrite Hrun, Hscans.
  set (σ0 := setDatabase db d σ).
  assert (Hw : getWriter σ0
               = Returns (if WritePlainText σ0 then NewPlainTextWriter
                          else NewCSVWriter) σ0).
  { unfold getWriter, bind, get, ret. now destruct (WritePlainText σ0). }
  unfold bind at 1. rewrite Hw.
  unfold bind at 1. unfold get at 1. unfold bind at 1.
  rewrite writeRows_scan_error. now exists σ0.
Qed.

End ExecutorMore.

Lemma executeQuery_checked_errors_witness :
  let σ := @initialState Faulty.sql ∅ [] ∅ in
  (@Query Faulty.sql (database (str "d") σ) (str "select 1")
   = (tt, Err (str "rejected"))
   /\ @executeQuery Reference.csv Faulty.sql (str "d") (str "select 1") σ
      = Fatal (MsgQuery (str "select 1") (str "rejected"))
              (setDatabase (E:=Faulty.sql) (str "d") tt σ))
  /\ (@Query Faulty.sql (database (str "d") σ) (str "select columns")
      = (tt, Val (mkRows (Err (str "no columns")) []))
      /\ @executeQuery Reference.csv Faulty.sql (str "d")
           (str "select columns") σ
         = Fatal (MsgColumns (str "select columns") (str "no columns"))
                 (setDatabase (E:=Faulty.sql) (str "d") tt σ))
  /\ (@Query Faulty.sql (database (str "d") σ) (str "select rows")
      = (tt, Val (mkRows (Val [str "a"])
                         [Val [mkNullString (str "1") true];
                          Err (str "bad row");
                          Val [mkNullString (str "3") true]]))
      /\ exists σ',
           @executeQuery Reference.csv Faulty.sql (str "d")
             (str "select rows") σ
           = Fatal (MsgScan (str "bad row")) σ').
Proof.
  cbv zeta.
  assert (H1 : @Query Faulty.sql
                 (database (str "d") (@initialState Faulty.sql ∅ [] ∅))
                 (str "select 1")
               = (tt, Err (str "rejected"))) by reflexivity.
  assert (H2 : @Query Faulty.sql
                 (database (str "d") (@initialState Faulty.sql ∅ [] ∅))
                 (str "select columns")
               = (tt, Val (mkRows (Err (str "no columns")) [])))
    by reflexivity.
  assert (H3 : @Query Faulty.sql
                 (database (str "d") (@initialState Faulty.sql ∅ [] ∅))
                 (str "select rows")
               = (tt, Val (mkRows (Val [str "a"])
                                  [Val [mkNullString (str "1") true];
                                   Err (str "bad row");
                                   Val [mkNullString (str "3") true]])))
    by reflexivity.
  split; [split; [exact H1|]|split; [split; [exact H2|]|split;
                                                       [exact H3|]]].
  - exact (@executeQuery_checked_errors Reference.csv Faulty.sql
             _ _ _ _ _ H1).
  - exact (@executeQuery_checked_errors Reference.csv Faulty.sql
             _ _ _ _ _ H2).
  - exact (@executeQuery_checked_errors Reference.csv Faulty.sql
             _ _ _ _ _ H3 [[mkNullString (str "1") true]] (str "bad row")
             [Val [mkNullString (str "3") true]] eq_refl).
Defined.

(** ** Ingestion, then a query, on the reference components *)

Lemma map_take_commute {A B} (f : A -> B) (n : nat) (l : list A) :
  map f (take n l) = take n (map f l).
Proof.
  revert l. induction n as [|n IH]; intros [|x l]; cbn; [reflexivity..|].
  now rewrite IH.
Qed.

Module IngestThenSelect.
Import Reference ReferenceFacts ReferenceRuns IngestingTwice.

Lemma tokens_select_prefix s :
  tokens [] (str "select * from " ++ s)
  = [TWord (str "select"); TSym "*"; TWord (str "from")] ++ tokens [] s.
Proof. reflexivity. Qed.

Lemma parse_select t :
  parse [TWord (str "select"); TSym "*"; TWord (str "from"); TWord t]
  = if isName t then Some (SelectAllFrom t) else None.
Proof. reflexivity. Qed.

Lemma query_select (d : gmap gostring Table) t tb :
  isIdentifier t = true ->
  d !! lower t = Some tb ->
  query d (str "select * from " ++ t)
  = (d, Val (mkRows (Val (columns tb))
                    (map Val (map (map scanned) (rows tb))))).
Proof.
  intros Ht Hd. unfold query.
  rewrite tokens_select_prefix, tokens_identifier_alone by assumption.
  cbn [app]. rewrite parse_select, (isIdentifier_isName _ Ht), Hd.
  now rewrite map_map.
Qed.

(** What a row of NULL-padded values looks like when it is scanned
    and written. *)
Lemma asStrings_scanned_padded (fieldCount : nat) (record : list gostring) :
  asStrings (map scanned (take fieldCount (insertValues fieldCount record)))
  = paddedFields fieldCount record.
Proof.
  unfold asStrings, paddedFields.
  rewrite insertValues_eq, map_map, map_take_commute, map_app.
  rewrite map_map, map_repeat. cbn [scanned NString].
  now rewrite map_id.
Qed.

Section Runs.
Context {T : RangeTables} {C : CsvCodec}.

(** The table an ingestion leaves, in replace mode or when the table
    did not exist. *)
Lemma ingested_table db t input fileName (σ σ1 : @State sql) :
  isIdentifier t = true ->
  Replacing σ = true
  \/ (database db σ : gmap gostring Table) !! lower t = None ->
  createTableFromReader db t input fileName σ = Returns tt σ1 ->
  exists header records,
    ReadAll input = Val (header :: records)
    /\ database db σ1
       = <[lower t :=
             mkTable (mapStrings header sqlNameFromString)
               (paddedRows
                  (length (mapStrings header sqlNameFromString))
                  records)]>
           (database db σ : gmap gostring Table).
Proof.
  intros Ht Hcase Hrun. destruct (Replacing σ) eqn:Hrep.
  - destruct (replace_twice db t t input fileName σ σ1
                (tableWord_identifier _ Ht) Hrep Hrun)
      as (header & records & σ2 & HR & _ & Hdb & _).
    now exists header, records.
  - destruct Hcase as [Hc|Hnone]; [discriminate Hc|].
    destruct (accumulate_twice db t t input fileName σ σ1
                (tableWord_identifier _ Ht) Hrep Hrun)
      as (header & records & σ2 & cols & old & HR & _ & Hdb & _ & _
          & Hshape).
    rewrite Hnone in Hshape. destruct Hshape as (-> & -> & Hpad).
    exists header, records. split; [exact HR|].
    rewrite Hdb. cbn [app]. now rewrite Hpad.
Qed.

(** X16.  On the reference components, a source ingested into a table
    that did not exist (or in replace mode) and then queried with
    [select * from] comes out as it went in, up to the form of the
    table: the sanitized header as the column-name row when header
    emission is on, then one row per record in the order of the
    source, each with as many fields as the header -- a short record
    ends in empty fields (its NULL values are written as empty
    strings), a long one is cut. *)
Theorem ingest_then_select db t input fileName (σ σ1 : @State sql) :
  isIdentifier t = true ->
  Replacing σ = true
  \/ (database db σ : gmap gostring Table) !! lower t = None ->
  createTableFromReader db t input fileName σ = Returns tt σ1 ->
  exists header records σ2,
    ReadAll input = Val (header :: records)
    /\ executeQuery db (str "select * from " ++ t) σ1 = Returns tt σ2
    /\ let names := mapStrings header sqlNameFromString in
       stdout σ2
       = stdout σ1
         ++ flat_map
              (rowBytes (if WritePlainText σ1 then NewPlainTextWriter
                         else NewCSVWriter))
              ((if HeadersOn σ1 then [names] else [])
               ++ map (paddedFields (length names)) records)
       /\ database db σ2 = database db σ1.
Proof.
  intros Ht Hcase Hrun.
  destruct (ingested_table db t input fileName σ σ1 Ht Hcase Hrun)
    as (header & records & HR & Hdb).
  set (names := mapStrings header sqlNameFromString) in *.
  set (tb := mkTable names (paddedRows (length names) records)) in *.
  assert (Htb : (database db σ1 : gmap gostring Table) !! lower t
                = Some tb).
  { rewrite Hdb. apply (lookup_insert_eq (M:=gmap gostring)). }
  pose proof (executeQuery_scanned (E:=sql) db (str "select * from " ++ t)
                σ1 (database db σ1) names
                (map (map scanned) (paddedRows (length names) records))
                (query_select _ t tb Ht Htb)) as Hq.
  exists header, records. eexists. split; [exact HR|].
  split; [exact Hq|]. cbv zeta. split.
  - cbn [stdout setDatabase]. rewrite buffer_fold_Write. f_equal.
    assert (Hrows : outputRows (HeadersOn σ1) names
                      (map (map scanned)
                           (paddedRows (length names) records))
                    = (if HeadersOn σ1 then [names] else [])
                      ++ map (paddedFields (length names)) records).
    { unfold outputRows, paddedRows. rewrite !map_map.
      rewrite (map_ext _ (paddedFields (length names)))
        by (intros r; apply asStrings_scanned_padded).
      now destruct (HeadersOn σ1). }
    rewrite Hrows. now destruct (WritePlainText σ1).
  - apply database_setDatabase.
Qed.

End Runs.

End IngestThenSelect.

Lemma ingest_then_select_witness :
  Reference.isIdentifier (str "t") = true
  /\ exists header records σ2,
       @ReadAll Reference.csv (str "a,b" ++ newline ++ str "1" ++ newline)
       = Val (header :: records)
       /\ @executeQuery Reference.csv Reference.sql (str "d")
            (str "select * from " ++ str "t")
            (finalState
               (@createTableFromReader Latin1Only Reference.csv
                  Reference.sql (str "d") (str "t")
                  (str "a,b" ++ newline ++ str "1" ++ newline)
                  (str "t.csv") (@initialState Reference.sql ∅ [] ∅)))
          = Returns tt σ2
       /\ stdout σ2 = str "a,b" ++ newline ++ str "1," ++ newline.
Proof.
  assert (Ht : Reference.isIdentifier (str "t") = true)
    by (vm_compute; reflexivity).
  split; [exact Ht|].
  assert (Hnone : Replacing (@initialState Reference.sql ∅ [] ∅) = true
                  \/ (database (str "d") (@initialState Reference.sql ∅ [] ∅)
                      : gmap gostring Reference.Table)
                     !! Reference.lower (str "t") = None)
    by (right; reflexivity).
  assert (Hrun : @createTableFromReader Latin1Only Reference.csv
                   Reference.sql (str "d") (str "t")
                   (str "a,b" ++ newline ++ str "1" ++ newline)
                   (str "t.csv") (@initialState Reference.sql ∅ [] ∅)
                 = Returns tt
                     (finalState
                        (@createTableFromReader Latin1Only Reference.csv
                           Reference.sql (str "d") (str "t")
                           (str "a,b" ++ newline ++ str "1" ++ newline)
                           (str "t.csv")
                           (@initialState Reference.sql ∅ [] ∅))))
    by (apply returns_of_exitStatus; vm_compute; reflexivity).
  destruct (IngestThenSelect.ingest_then_select _ _ _ _ _ _ Ht Hnone Hrun)
    as (header & records & σ2 & HR & Hq & Hout & _).
  exists header, records, σ2. split; [exact HR|]. split; [exact Hq|].
  rewrite Hout.
  assert (HR' : @ReadAll Reference.csv
                  (str "a,b" ++ newline ++ str "1" ++ newline)
                = Val [[str "a"; str "b"]; [str "1"]])
    by (vm_compute; reflexivity).
  rewrite HR' in HR. injection HR as <- <-.
  vm_compute. reflexivity.
Defined.

(** ** Query files, and what ingestion and queries leave alone *)

Section FilesAndFrames.
Context {T : RangeTables} {C : CsvCodec} {E : SqlEngine}.

Ltac not_a_flag H :=
  repeat match goal with
  | |- context [eqs ?a ?flag] =>
    let Eq := fresh "Eq" in
    destruct (eqs a flag) eqn:Eq;
    [ exfalso; unfold eqs in Eq; apply bool_decide_eq_true in Eq;
      rewrite Eq in H; vm_compute in H; discriminate H
    | ]
  end;
  cbn [orb].

(** X17.  A token that ends in [.sql] (and not in [.csv]) names a
    file whose whole contents are run as one query, whatever they
    are; the database handle and the table name override stay as they
    were for the tokens that follow. *)
Theorem sql_file_is_executed (arg : gostring) (rest : list gostring)
    (db tableName query : gostring) (σ : State) :
  HasSuffix arg (str ".csv") = false ->
  HasSuffix arg (str ".sql") = true ->
  files σ !! arg = Some query ->
  mainLoop (arg :: rest) db tableName σ
  = (do _ <- executeQuery db query ;; mainLoop rest db tableName) σ.
Proof.
  intros Hcsv Hsql Hfile. cbn [mainLoop]. not_a_flag Hsql.
  rewrite Hcsv, Hsql.
  unfold bind at 1. unfold readSQLFile at 1. unfold bind at 1.
  unfold readFile at 1. rewrite Hfile. reflexivity.
Qed.

(** X18.  Ingestion changes the database and the log, however it
    ends, and leaves the rest alone: it writes nothing to standard
    output (the warning that the table exists goes to the log), and
    the files and the three flags are as they were. *)
Theorem ingestion_changes_database_and_log_only
    (db tableName input fileName : gostring) (σ : State) :
  let unchanged (σ' : State) :=
    files σ' = files σ /\ stdout σ' = stdout σ
    /\ HeadersOn σ' = HeadersOn σ /\ Replacing σ' = Replacing σ
    /\ WritePlainText σ' = WritePlainText σ in
  unchanged (finalState
               (createTableFromReader db tableName input fileName σ))
  /\ unchanged (finalState (createTableFromCSV db tableName fileName σ)).
Proof.
  cbv zeta. repeat split;
    first [ apply keeps_createTableFromReader
          | apply keeps_createTableFromCSV ];
    intros; try (intros ?); reflexivity.
Qed.

(** X19.  A query changes standard output and the database and
    nothing else, however it ends: it logs nothing, and leaves
    standard input, the files and the three flags as they were. *)
Theorem executeQuery_changes_stdout_and_database_only
    (db query : gostring) (σ : State) :
  let σ' := finalState (executeQuery db query σ) in
  files σ' = files σ /\ stdin σ' = stdin σ /\ logged σ' = logged σ
  /\ HeadersOn σ' = HeadersOn σ /\ Replacing σ' = Replacing σ
  /\ WritePlainText σ' = WritePlainText σ.
Proof.
  cbv zeta. repeat split; apply keeps_executeQuery;
    intros; try (intros ?); reflexivity.
Qed.

End FilesAndFrames.

Lemma sql_file_is_executed_witness :
  HasSuffix (str "q.sql") (str ".csv") = false
  /\ HasSuffix (str "q.sql") (str ".sql") = true
  /\ files (@initialState Reference.sql
              {[ str "q.sql" := str "select * from t" ]} [] ∅)
     !! str "q.sql" = Some (str "select * from t")
  /\ @mainLoop Latin1Only Reference.csv Reference.sql
       [str "q.sql"] (str "d") (str "t")
       (@initialState Reference.sql
          {[ str "q.sql" := str "select * from t" ]} [] ∅)
     = (do _ <- executeQuery (C:=Reference.csv) (str "d")
                  (str "select * from t") ;;
        mainLoop (T:=Latin1Only) (C:=Reference.csv) [] (str "d") (str "t"))
         (@initialState Reference.sql
            {[ str "q.sql" := str "select * from t" ]} [] ∅).
Proof.
  assert (Hc : HasSuffix (str "q.sql") (str ".csv") = false)
    by reflexivity.
  assert (Hs : HasSuffix (str "q.sql") (str ".sql") = true)
    by reflexivity.
  assert (Hf : files (@initialState Reference.sql
                        {[ str "q.sql" := str "select * from t" ]} [] ∅)
               !! str "q.sql" = Some (str "select * from t"))
    by apply (lookup_singleton_eq (M:=gmap gostring)).
  split; [exact Hc|]. split; [exact Hs|]. split; [exact Hf|].
  apply (@sql_file_is_executed Latin1Only Reference.csv Reference.sql
           _ [] (str "d") (str "t") _ _ Hc Hs Hf).
Defined.

(* ===================================================================== *)
(** * Ingestion on the reference engine *)
(* ===================================================================== *)

(** The sanitizer is the function the specification words. *)
Lemma sqlNameFromString_sanitize `{T : RangeTables} (s : gostring) :
  sqlNameFromString s = SpecWords.sanitize SpecWords.letterOrNumber s.
Proof.
  unfold sqlNameFromString, SpecWords.sanitize.
  rewrite TrimSuffix_stripCsv, Split_last_segment.
  apply Map_alnumOrUnderscore.
Qed.

Lemma mapStrings_sanitize `{T : RangeTables} (header : list gostring) :
  mapStrings header sqlNameFromString
  = map (SpecWords.sanitize SpecWords.letterOrNumber) header.
Proof.
  unfold mapStrings. apply map_ext. intros s.
  apply sqlNameFromString_sanitize.
Qed.

(** ** Rows *)

Lemma lookup_repeat {A} (x : A) (n i : nat) :
  repeat x n !! i = if (i <? n)%nat then Some x else None.
Proof.
  revert i. induction n as [|n IH]; intros [|i]; cbn; try reflexivity.
  apply IH.
Qed.

Lemma lookup_insertValues (fieldCount : nat) (record : list gostring)
    (i : nat) :
  default None (insertValues fieldCount record !! i) = record !! i.
Proof.
  rewrite insertValues_eq.
  change (map Some record) with (Some <$> record).
  destruct (decide (i < length record)%nat) as [Hlt|Hge].
  - rewrite lookup_app_l by now rewrite length_fmap.
    rewrite list_lookup_fmap.
    now destruct (record !! i).
  - rewrite lookup_app_r by (rewrite length_fmap; lia).
    rewrite (proj2 (lookup_ge_None record i)) by lia.
    rewrite lookup_repeat.
    now destruct (_ <? _)%nat.
Qed.

Lemma lookup_rowOf (fieldCount : nat) (record : list gostring) (i : nat) :
  rowOf fieldCount record !! i
  = if (i <? fieldCount)%nat then Some (record !! i) else None.
Proof.
  unfold rowOf.
  change (map ?f ?l) with (f <$> l).
  rewrite list_lookup_fmap.
  destruct (i <? fieldCount)%nat eqn:Hi.
  - apply Nat.ltb_lt in Hi. now rewrite lookup_seq_lt.
  - apply Nat.ltb_ge in Hi. now rewrite lookup_seq_ge.
Qed.

Lemma rowOf_length (fieldCount : nat) (record : list gostring) :
  length (rowOf fieldCount record) = fieldCount.
Proof. unfold rowOf. now rewrite length_map, length_seq. Qed.

(** The first [fieldCount] values of an insert are the stored row. *)
Lemma take_insertValues (fieldCount : nat) (record : list gostring) :
  take fieldCount (insertValues fieldCount record)
  = rowOf fieldCount record.
Proof.
  apply list_eq. intros i. rewrite lookup_rowOf.
  destruct (i <? fieldCount)%nat eqn:Hi.
  - apply Nat.ltb_lt in Hi. rewrite lookup_take_lt by assumption.
    pose proof (lookup_insertValues fieldCount record i) as Hv.
    destruct (insertValues fieldCount record !! i) as [v|] eqn:Hl.
    + cbn in Hv. now rewrite Hv.
    + apply lookup_ge_None in Hl. rewrite insertValues_length in Hl. lia.
  - apply Nat.ltb_ge in Hi. now apply lookup_take_ge.
Qed.

Lemma rowOf_short (fieldCount : nat) (record : list gostring) :
  (length record <= fieldCount)%nat ->
  rowOf fieldCount record
  = map Some record ++ repeat None (fieldCount - length record).
Proof.
  intros Hle. rewrite <- take_insertValues, insertValues_eq.
  apply take_ge. rewrite length_app, length_map, repeat_length. lia.
Qed.

Lemma rowOf_long (fieldCount : nat) (record : list gostring) :
  (fieldCount <= length record)%nat ->
  rowOf fieldCount record = map Some (take fieldCount record).
Proof.
  intros Hle. rewrite <- take_insertValues, insertValues_eq.
  replace (fieldCount - length record)%nat with 0%nat by lia.
  cbn [repeat]. now rewrite app_nil_r, map_take_commute.
Qed.

Module Ingestion.
Import Reference ReferenceFacts ReferenceRuns IngestingTwice.

Lemma storedRow_rowInto tcols names fieldCount (record : list gostring) :
  storedRow tcols names (insertValues fieldCount record)
  = rowInto tcols names record.
Proof.
  unfold storedRow, rowInto. apply map_ext. intros c.
  destruct (position c names) as [i|]; [|reflexivity].
  apply lookup_insertValues.
Qed.

Lemma ingested_rowInto tcols names fieldCount records :
  ingested tcols names fieldCount records
  = map (rowInto tcols names) records.
Proof.
  unfold ingested. apply map_ext. intros r. apply storedRow_rowInto.
Qed.

Lemma paddedRows_rowOf fieldCount records :
  paddedRows fieldCount records = map (rowOf fieldCount) records.
Proof.
  unfold paddedRows. apply map_ext. intros r. apply take_insertValues.
Qed.

(** ** The statements the engine accepts *)

Lemma parseNames_consumed ts :
  forall cols rest,
    parseNames ts = Some (cols, rest) ->
    exists pre, ts = pre ++ rest /\ TSym "(" ∉ pre.
Proof.
  remember (length ts) as n eqn:Hn. revert ts Hn.
  induction n as [n IH] using lt_wf_ind. intros ts Hn cols rest.
  destruct ts as [|[word|c] [|sep ts']]; try discriminate.
  cbn [parseNames].
  destruct (negb (isName word)); [discriminate|].
  destruct (isSym sep ")") eqn:Hclose.
  - intros [= <- <-]. exists [TWord word; sep]. split; [reflexivity|].
    destruct sep as [?|c]; [discriminate Hclose|].
    cbn [isSym] in Hclose. apply bool_decide_eq_true in Hclose as ->.
    intros Hin. apply list_elem_of_In in Hin. cbn in Hin.
    destruct Hin as [Hin|[Hin|[]]]; discriminate Hin.
  - destruct (isSym sep ",") eqn:Hcomma; [|discriminate].
    destruct (parseNames ts') as [[ns rest']|] eqn:Hrec; [|discriminate].
    intros [= <- <-].
    destruct (IH (length ts') ltac:(subst n; cbn [length]; lia)
                 ts' eq_refl _ _ Hrec) as (pre & -> & Hpre).
    exists (TWord word :: sep :: pre). split; [reflexivity|].
    destruct sep as [?|c]; [discriminate Hcomma|].
    cbn [isSym] in Hcomma. apply bool_decide_eq_true in Hcomma as ->.
    intros Hin. apply elem_of_cons in Hin as [Hin|Hin];
      [discriminate Hin|].
    apply elem_of_cons in Hin as [Hin|Hin]; [discriminate Hin|].
    now apply Hpre.
Qed.

Lemma parseNames_open_inside before after cols :
  parseNames (before ++ TSym "(" :: after) <> Some (cols, []).
Proof.
  intros H. apply parseNames_consumed in H as (pre & Heq & Hpre).
  rewrite app_nil_r in Heq. apply Hpre. rewrite <- Heq.
  apply elem_of_app. right. apply list_elem_of_here.
Qed.

(** A [create table] statement that is accepted, or refused because
    the table exists, names one table. *)
Lemma create_names_one_table (d : gmap gostring Table) t names d2 err :
  exec d (createTableStmt t names) [] = (d2, err) ->
  (forall e, err = Some e -> Contains e (str "already exists") = true) ->
  exists w, tableWord t = Some w.
Proof.
  intros HX Herr.
  assert (Hsyntax : forall e, (d2, err) = (d, Some e) ->
                              e = str "syntax error" -> False).
  { intros e [= -> ->] ->. specialize (Herr _ eq_refl).
    vm_compute in Herr. discriminate Herr. }
  unfold exec, createTableStmt in HX.
  rewrite tokens_create_prefix, tokens_table_open in HX.
  unfold tableWord.
  destruct (tokens [] t) as [|[w|c] [|[w2|c2] rest]]; cbn [app] in HX.
  - exfalso. cbn in HX. eapply Hsyntax; [symmetry; exact HX|reflexivity].
  - rewrite parse_create in HX.
    destruct (isName w); [now exists w|].
    exfalso. eapply Hsyntax; [symmetry; exact HX|reflexivity].
  - exfalso.
    destruct rest as [|[w3|c3] [|tok rest]]; cbn in HX;
      (eapply Hsyntax; [symmetry; exact HX|reflexivity]).
  - exfalso. cbn [parse] in HX.
    destruct (negb (bool_decide (c2 = "("%char) && isName w));
      [eapply Hsyntax; [symmetry; exact HX|reflexivity]|].
    change (isKeyword (str "create") "create"
            && isKeyword (str "table") "table") with true in HX.
    cbv iota in HX.
    destruct (parseNames (rest ++ TSym "(" :: _)) as [[cols [|tok l]]|]
      eqn:Hp;
      try (eapply Hsyntax; [symmetry; exact HX|reflexivity]).
    now apply parseNames_open_inside in Hp.
  - exfalso. cbn in HX. eapply Hsyntax; [symmetry; exact HX|reflexivity].
  - exfalso. cbn in HX. eapply Hsyntax; [symmetry; exact HX|reflexivity].
  - exfalso. cbn in HX. eapply Hsyntax; [symmetry; exact HX|reflexivity].
Qed.

Lemma tokens_placeholder_comma s :
  tokens [] (str "?, " ++ s) = TSym "?" :: TSym "," :: tokens [] s.
Proof. reflexivity. Qed.

Lemma parseParams_comma rest :
  parseParams (TSym "?" :: TSym "," :: rest) = S <$> parseParams rest.
Proof. reflexivity. Qed.

Lemma parseParams_body (n : nat) :
  parseParams (tokens [] (Repeat (str "?, ") n ++ str "?)")) = Some (S n).
Proof.
  induction n as [|n IH]; [reflexivity|].
  cbn [Repeat]. rewrite <- app_assoc.
  now rewrite tokens_placeholder_comma, parseParams_comma, IH.
Qed.

(** The placeholders of the insert statement are read as one
    parameter per column. *)
Lemma parseParams_placeholders (n : nat) :
  parseParams
    (tokens [] (TrimRight (Repeat (str "?, ") (S n)) (str ", ") ++ str ")"))
  = Some (S n).
Proof.
  rewrite Repeat_snoc, TrimRight_placeholder, <- app_assoc.
  apply parseParams_body.
Qed.

Lemma position_is_Some c names : c ∈ names -> is_Some (position c names).
Proof.
  intros Hc. unfold position.
  destruct (list_find_elem_of (fun n => lower n = lower c) names c Hc
              eq_refl) as [[i y] ->].
  cbn. eauto.
Qed.

Section Runs.
Context {T : RangeTables} {C : CsvCodec}.

(** The inserts of an ingestion into a table that has the columns of
    the header go through, and add one row per record. *)
Lemma insertRecords_stores db t w names records (σ : @State sql) tb :
  tableWord t = Some w ->
  Forall (fun n => forallb isIdChar n = true) names ->
  okNames names = true ->
  (database db σ : gmap gostring Table) !! lower w = Some tb ->
  forallb (fun c => bool_decide (is_Some (position c (columns tb)))) names
  = true ->
  exists σ',
    insertRecords db (insertStmt t names (length names)) (length names)
                  records σ = Returns tt σ'.
Proof.
  intros Ht Hn Hok. revert σ tb.
  induction records as [|r records IH]; intros σ tb Hd Hpos.
  - now exists σ.
  - cbn [insertRecords]. unfold bind at 1. unfold dbExec at 1.
    change (@Exec sql) with exec.
    rewrite (exec_insert _ _ w) by assumption. rewrite Hok.
    destruct names as [|n0 names']; [discriminate Hok|].
    cbn [length]. rewrite parseParams_placeholders.
    cbn [run]. rewrite Hd, Nat.eqb_refl, Hpos. cbn [negb].
    replace (length (insertValues (S (length names')) r)
             <? S (length names'))%nat with false
      by (symmetry; apply Nat.ltb_ge; rewrite insertValues_length; lia).
    eapply IH.
    + rewrite database_setDatabase.
      apply (lookup_insert_eq (M:=gmap gostring)).
    + exact Hpos.
Qed.

(** An ingestion goes through when the engine accepts the table name
    and the header, and the table is not in the way. *)
Lemma ingestion_runs db t w input fileName (σ : @State sql)
    header records :
  ReadAll input = Val (header :: records) ->
  tableWord t = Some w ->
  okNames (mapStrings header sqlNameFromString) = true ->
  hasDuplicates (mapStrings header sqlNameFromString) = false ->
  Replacing σ = true
  \/ (database db σ : gmap gostring Table) !! lower w = None ->
  exists σ1, createTableFromReader db t input fileName σ = Returns tt σ1.
Proof.
  intros HR Ht Hok Hdup Hcase.
  set (names := mapStrings header sqlNameFromString) in *.
  pose proof (sanitized_words header) as Hn. fold names in Hn.
  assert (Hpos : forallb (fun c => bool_decide
                            (is_Some (position c names))) names = true).
  { apply forallb_forall. intros c Hc. apply bool_decide_eq_true.
    apply position_is_Some. now apply list_elem_of_In. }
  assert (Hgo : forall (σc : @State sql),
             stateAtCreate db t σ = Some σc ->
             (database db σc : gmap gostring Table) !! lower w = None ->
             exists σ1,
               createTableFromReader db t input fileName σ
               = Returns tt σ1).
  { intros σc Hc Hnone.
    rewrite (createTableFromReader_runs (E:=sql) db t input fileName σ
               header records σc
               (<[lower w := mkTable names []]>
                  (database db σc : gmap gostring Table))
               None HR Hc).
    - cbn [afterCreate]. fold names.
      eapply (insertRecords_stores db t w names records _
                (mkTable names [])); try assumption.
      rewrite database_setDatabase.
      apply (lookup_insert_eq (M:=gmap gostring)).
    - change (@Exec sql) with exec. fold names.
      rewrite (exec_create _ _ w), Hok by assumption.
      cbn [run]. now rewrite Hnone, Hdup.
    - discriminate. }
  destruct (Replacing σ) eqn:Hrep.
  - eapply Hgo.
    + unfold stateAtCreate. rewrite Hrep.
      change (@Exec sql) with exec. now rewrite (exec_drop _ _ w).
    + rewrite database_setDatabase.
      apply (lookup_delete_eq (M:=gmap gostring)).
  - destruct Hcase as [Hc|Hnone]; [discriminate Hc|].
    eapply Hgo; [|exact Hnone].
    unfold stateAtCreate. now rewrite Hrep.
Qed.

(** An ingestion that returns has named one table. *)
Lemma ingestion_names_one_table db t input fileName (σ σ1 : @State sql) :
  createTableFromReader db t input fileName σ = Returns tt σ1 ->
  exists w, tableWord t = Some w.
Proof.
  intros Hrun.
  destruct (createTableFromReader_returns _ _ _ _ _ _ Hrun)
    as (header & records & σc & d2 & err & _ & _ & HX & Herr & _).
  change (@Exec sql) with exec in HX.
  exact (create_names_one_table _ _ _ _ _ HX Herr).
Qed.

(** The table an ingestion leaves, in replace mode or when the table
    did not exist. *)
Lemma stored_table db t w input fileName (σ σ1 : @State sql)
    header records :
  ReadAll input = Val (header :: records) ->
  tableWord t = Some w ->
  createTableFromReader db t input fileName σ = Returns tt σ1 ->
  Replacing σ = true
  \/ (database db σ : gmap gostring Table) !! lower w = None ->
  database db σ1
  = <[lower w :=
        mkTable (map (SpecWords.sanitize SpecWords.letterOrNumber) header)
                (map (rowOf (length header)) records)]>
      (database db σ : gmap gostring Table).
Proof.
  intros HR Ht Hrun Hcase.
  rewrite <- mapStrings_sanitize.
  replace (length header)
    with (length (mapStrings header sqlNameFromString))
    by (unfold mapStrings; apply length_map).
  rewrite <- paddedRows_rowOf.
  destruct (Replacing σ) eqn:Hrep.
  - destruct (replace_twice db t w input fileName σ σ1 Ht Hrep Hrun)
      as (header' & records' & σ2 & HR' & _ & Hdb & _).
    rewrite HR in HR'. injection HR' as <- <-. exact Hdb.
  - destruct Hcase as [Hc|Hnone]; [discriminate Hc|].
    destruct (accumulate_twice db t w input fileName σ σ1 Ht Hrep Hrun)
      as (header' & records' & σ2 & cols & old & HR' & _ & Hdb & _ & _
          & Hshape).
    rewrite HR in HR'. injection HR' as <- <-.
    rewrite Hnone in Hshape. destruct Hshape as (-> & -> & Hpad).
    rewrite Hdb. cbn [app]. now rewrite Hpad.
Qed.

(** C1.  On the reference engine, for a CSV source whose header row
    has N columns: the table an ingestion creates has exactly N
    columns, the sanitized header cells, and every ingested row has
    exactly N values, the fields of its record in order -- a record
    shorter than the header is padded with NULL for its missing
    trailing fields (so are the values supplied to its insert), a
    longer one is stored up to its N-th field.  The ingestion goes
    through when the engine accepts the table name and the column
    names and the table is not there or the replace flag is set; and
    whenever it goes through, the table is as said. *)
Theorem createTableFromReader_columns_and_values
    (db t input fileName : gostring) (σ : @State sql)
    (header : list gostring) (records : list (list gostring)) (N : nat) :
  ReadAll input = Val (header :: records) ->
  length header = N ->
  let names := map (SpecWords.sanitize SpecWords.letterOrNumber) header in
  let stored := mkTable names (map (rowOf N) records) in
  (length (columns stored) = N
   /\ Forall (fun row => length row = N) (rows stored))
  /\ (forall record,
         insertValues N record
         = map Some record ++ repeat None (N - length record)
         /\ ((length record <= N)%nat ->
             rowOf N record
             = map Some record ++ repeat None (N - length record))
         /\ ((N <= length record)%nat ->
             rowOf N record = map Some (take N record)))
  /\ (forall w,
         tableWord t = Some w ->
         okNames names = true ->
         hasDuplicates names = false ->
         Replacing σ = true
         \/ (database db σ : gmap gostring Table) !! lower w = None ->
         exists σ',
           createTableFromReader db t input fileName σ = Returns tt σ')
  /\ (forall σ',
         createTableFromReader db t input fileName σ = Returns tt σ' ->
         exists w,
           tableWord t = Some w
           /\ (Replacing σ = true
               \/ (database db σ : gmap gostring Table) !! lower w = None ->
               database db σ'
               = <[lower w := stored]>
                   (database db σ : gmap gostring Table))).
Proof.
  intros HR HN names stored. subst N.
  split; [|split; [|split]].
  - split; [apply length_map|].
    apply Forall_forall. intros row Hrow.
    apply list_elem_of_In, in_map_iff in Hrow as (record & <- & _).
    apply rowOf_length.
  - intros record. split; [apply insertValues_eq|].
    split; [apply rowOf_short|apply rowOf_long].
  - intros w Ht Hok Hdup Hcase. unfold names in Hok, Hdup.
    rewrite <- mapStrings_sanitize in Hok, Hdup.
    exact (ingestion_runs db t w input fileName σ header records
             HR Ht Hok Hdup Hcase).
  - intros σ' Hrun.
    destruct (ingestion_names_one_table _ _ _ _ _ _ Hrun) as [w Ht].
    exists w. split; [exact Ht|]. intros Hcase.
    exact (stored_table db t w input fileName σ σ' header records
             HR Ht Hrun Hcase).
Qed.

(** C3.  On the reference engine, for a CSV source ingested twice
    under the same table name.  The first ingestion goes through when
    the engine accepts the table name and the column names and the
    table is not there or the replace flag is set.  Whenever it goes
    through, so does the second.  With the replace flag set, the
    second leaves the database as the first left it: one table of
    that name, holding the rows of the source once (the rows of the
    first ingestion, and any the table had before, are gone), and no
    warning.  Without the replace flag, the table ends with the rows
    it had before the first ingestion and both copies of the rows of
    the source, and the second ingestion logs the warning that the
    table already exists instead of ending the process. *)
Theorem ingesting_twice (db t input fileName : gostring)
    (σ : @State sql) (header : list gostring)
    (records : list (list gostring)) :
  ReadAll input = Val (header :: records) ->
  let names := map (SpecWords.sanitize SpecWords.letterOrNumber) header in
  let once := map (rowOf (length header)) records in
  (forall w,
      tableWord t = Some w ->
      okNames names = true ->
      hasDuplicates names = false ->
      Replacing σ = true
      \/ (database db σ : gmap gostring Table) !! lower w = None ->
      exists σ1,
        createTableFromReader db t input fileName σ = Returns tt σ1)
  /\ forall σ1,
       createTableFromReader db t input fileName σ = Returns tt σ1 ->
       exists w σ2,
         tableWord t = Some w
         /\ createTableFromReader db t input fileName σ1 = Returns tt σ2
         /\ (Replacing σ = true ->
             database db σ1
             = <[lower w := mkTable names once]>
                 (database db σ : gmap gostring Table)
             /\ database db σ2
                = <[lower w := mkTable names once]>
                    (database db σ : gmap gostring Table)
             /\ logged σ2 = logged σ1)
         /\ (Replacing σ = false ->
             exists cols old,
               let added := map (rowInto cols names) records in
               database db σ1
               = <[lower w := mkTable cols (old ++ added)]>
                   (database db σ : gmap gostring Table)
               /\ database db σ2
                  = <[lower w := mkTable cols (old ++ added ++ added)]>
                      (database db σ : gmap gostring Table)
               /\ logged σ2 = logged σ1 ++ [MsgTableExists t]
               /\ match (database db σ : gmap gostring Table)
                        !! lower w with
                  | Some tb0 => cols = columns tb0 /\ old = rows tb0
                  | None => cols = names /\ old = [] /\ added = once
                  end).
Proof.
  intros HR names once. split.
  - intros w Ht Hok Hdup Hcase. unfold names in Hok, Hdup.
    rewrite <- mapStrings_sanitize in Hok, Hdup.
    exact (ingestion_runs db t w input fileName σ header records
             HR Ht Hok Hdup Hcase).
  - intros σ1 Hrun.
    destruct (ingestion_names_one_table _ _ _ _ _ _ Hrun) as [w Ht].
    exists w.
    assert (Hlen : length (mapStrings header sqlNameFromString)
                   = length header)
      by (unfold mapStrings; apply length_map).
    destruct (Replacing σ) eqn:Hrep.
    + destruct (replace_twice db t w input fileName σ σ1 Ht Hrep Hrun)
        as (header' & records' & σ2 & HR' & Hrun2 & Hdb1 & Hdb2 & Hlog).
      rewrite HR in HR'. injection HR' as <- <-.
      rewrite Hlen, paddedRows_rowOf, mapStrings_sanitize in Hdb1.
      fold names once in Hdb1.
      exists σ2. split; [exact Ht|]. split; [exact Hrun2|].
      split; [|discriminate]. intros _.
      split; [exact Hdb1|]. split; [now rewrite Hdb2|exact Hlog].
    + destruct (accumulate_twice db t w input fileName σ σ1 Ht Hrep Hrun)
        as (header' & records' & σ2 & cols & old & HR' & Hrun2 & Hdb1
            & Hdb2 & Hlog & Hshape).
      rewrite HR in HR'. injection HR' as <- <-.
      rewrite !ingested_rowInto in Hdb1, Hdb2.
      rewrite mapStrings_sanitize in Hdb1, Hdb2. fold names in Hdb1, Hdb2.
      exists σ2. split; [exact Ht|]. split; [exact Hrun2|].
      split; [discriminate|]. intros _. exists cols, old. cbv zeta.
      split; [exact Hdb1|]. split; [exact Hdb2|]. split; [exact Hlog|].
      destruct ((database db σ : gmap gostring Table) !! lower w)
        as [tb0|]; [exact Hshape|].
      destruct Hshape as (-> & -> & Hpad).
      rewrite ingested_rowInto, Hlen, paddedRows_rowOf in Hpad.
      rewrite mapStrings_sanitize in Hpad. rewrite mapStrings_sanitize.
      split; [reflexivity|]. split; [reflexivity|].
      exact Hpad.
Qed.

End Runs.

End Ingestion.

(** ** The theorems of this part at concrete inputs *)

Lemma createTableFromReader_columns_and_values_witness :
  let input := str "a b,c" ++ newline ++ str "1" ++ newline
               ++ str "1,2,3" ++ newline in
  let σ := @initialState Reference.sql ∅ [] ∅ in
  @ReadAll Reference.csv input
  = Val [[str "a b"; str "c"]; [str "1"]; [str "1"; str "2"; str "3"]]
  /\ length [str "a b"; str "c"] = 2%nat
  /\ exists σ',
       @createTableFromReader Latin1Only Reference.csv Reference.sql
         (str "d") (str "t") input (str "t.csv") σ
       = Returns tt σ'
       /\ database (E:=Reference.sql) (str "d") σ'
          = {[ str "t" :=
                 Reference.mkTable [str "a_b"; str "c"]
                   [[Some (str "1"); None];
                    [Some (str "1"); Some (str "2")]] ]}.
Proof.
  cbv zeta.
  assert (HR : @ReadAll Reference.csv
                 (str "a b,c" ++ newline ++ str "1" ++ newline
                  ++ str "1,2,3" ++ newline)
               = Val [[str "a b"; str "c"]; [str "1"];
                      [str "1"; str "2"; str "3"]])
    by (vm_compute; reflexivity).
  split; [exact HR|]. split; [reflexivity|].
  destruct (@Ingestion.createTableFromReader_columns_and_values
              Latin1Only Reference.csv (str "d") (str "t") _ (str "t.csv")
              (@initialState Reference.sql ∅ [] ∅) _ _ 2%nat HR eq_refl)
    as (_ & _ & Hruns & Hstored).
  assert (Ht : tableWord (str "t") = Some (str "t"))
    by (vm_compute; reflexivity).
  assert (Hnone : (database (str "d") (@initialState Reference.sql ∅ [] ∅)
                   : gmap gostring Reference.Table)
                  !! Reference.lower (str "t") = None)
    by reflexivity.
  destruct (Hruns (str "t") Ht ltac:(vm_compute; reflexivity)
                  ltac:(vm_compute; reflexivity) (or_intror Hnone))
    as [σ' Hrun].
  exists σ'. split; [exact Hrun|].
  destruct (Hstored σ' Hrun) as (w & Hw & Hdb).
  rewrite Ht in Hw. injection Hw as <-.
  rewrite (Hdb (or_intror Hnone)). vm_compute. reflexivity.
Defined.

Lemma ingesting_twice_witness :
  let input := str "a,b" ++ newline ++ str "1,2" ++ newline in
  let fresh := @initialState Reference.sql ∅ [] ∅ in
  let replacing := @mkState Reference.sql ∅ [] [] [] ∅ true true false in
  @ReadAll Reference.csv input
  = Val [[str "a"; str "b"]; [str "1"; str "2"]]
  /\ (exists σ1 σ2,
         @createTableFromReader Latin1Only Reference.csv Reference.sql
           (str "d") (str "t") input (str "t.csv") replacing
         = Returns tt σ1
         /\ @createTableFromReader Latin1Only Reference.csv Reference.sql
              (str "d") (str "t") input (str "t.csv") σ1
            = Returns tt σ2
         /\ database (E:=Reference.sql) (str "d") σ2
            = {[ str "t" :=
                   Reference.mkTable [str "a"; str "b"]
                     [[Some (str "1"); Some (str "2")]] ]}
         /\ logged σ2 = logged σ1)
  /\ (exists σ1 σ2,
         @createTableFromReader Latin1Only Reference.csv Reference.sql
           (str "d") (str "t") input (str "t.csv") fresh
         = Returns tt σ1
         /\ @createTableFromReader Latin1Only Reference.csv Reference.sql
              (str "d") (str "t") input (str "t.csv") σ1
            = Returns tt σ2
         /\ database (E:=Reference.sql) (str "d") σ2
            = {[ str "t" :=
                   Reference.mkTable [str "a"; str "b"]
                     [[Some (str "1"); Some (str "2")];
                      [Some (str "1"); Some (str "2")]] ]}
         /\ logged σ2 = logged σ1 ++ [MsgTableExists (str "t")]).
Proof.
  cbv zeta.
  assert (HR : @ReadAll Reference.csv
                 (str "a,b" ++ newline ++ str "1,2" ++ newline)
               = Val [[str "a"; str "b"]; [str "1"; str "2"]])
    by (vm_compute; reflexivity).
  assert (Ht : tableWord (str "t") = Some (str "t"))
    by (vm_compute; reflexivity).
  split; [exact HR|]. split.
  - destruct (@Ingestion.ingesting_twice Latin1Only Reference.csv
                (str "d") (str "t") _ (str "t.csv")
                (@mkState Reference.sql ∅ [] [] [] ∅ true true false)
                _ _ HR)
      as (Hruns & Htwice).
    destruct (Hruns (str "t") Ht ltac:(vm_compute; reflexivity)
                    ltac:(vm_compute; reflexivity) (or_introl eq_refl))
      as [σ1 Hrun1].
    destruct (Htwice σ1 Hrun1) as (w & σ2 & Hw & Hrun2 & Hreplace & _).
    rewrite Ht in Hw. injection Hw as <-.
    destruct (Hreplace eq_refl) as (_ & Hdb2 & Hlog).
    exists σ1, σ2. split; [exact Hrun1|]. split; [exact Hrun2|].
    split; [|exact Hlog].
    rewrite Hdb2. vm_compute. reflexivity.
  - destruct (@Ingestion.ingesting_twice Latin1Only Reference.csv
                (str "d") (str "t") _ (str "t.csv")
                (@initialState Reference.sql ∅ [] ∅) _ _ HR)
      as (Hruns & Htwice).
    assert (Hnone : (database (str "d")
                       (@initialState Reference.sql ∅ [] ∅)
                     : gmap gostring Reference.Table)
                    !! Reference.lower (str "t") = None)
      by reflexivity.
    destruct (Hruns (str "t") Ht ltac:(vm_compute; reflexivity)
                    ltac:(vm_compute; reflexivity) (or_intror Hnone))
      as [σ1 Hrun1].
    destruct (Htwice σ1 Hrun1) as (w & σ2 & Hw & Hrun2 & _ & Hkeep).
    rewrite Ht in Hw. injection Hw as <-.
    destruct (Hkeep eq_refl)
      as (cols & old & _ & Hdb2 & Hlog & Hshape).
    vm_compute in Hshape. destruct Hshape as (-> & -> & _).
    exists σ1, σ2. split; [exact Hrun1|]. split; [exact Hrun2|].
    split; [|exact Hlog].
    rewrite Hdb2. vm_compute. reflexivity.
Defined.

Lemma ingestion_error_policy_witness :
  let input := str "a" ++ newline ++ str "1" ++ newline in
  let σ := @initialState Reference.sql ∅ []
             {[ str "d" :=
                  {[ str "t" := Reference.mkTable [str "a"]
                                  [[Some (str "0")]] ]} ]} in
  @ReadAll Reference.csv input = Val [[str "a"]; [str "1"]]
  /\ stateAtCreate (str "d") (str "t") σ = Some σ
  /\ @Exec Reference.sql (database (str "d") σ)
       (createTableStmt (str "t")
          (mapStrings [str "a"] (@sqlNameFromString Latin1Only))) []
     = (database (str "d") σ, Some (str "table t already exists"))
  /\ hasSubstring (str "table t already exists") (str "already exists")
  /\ @createTableFromReader Latin1Only Reference.csv Reference.sql
       (str "d") (str "t") input (str "t.csv") σ
     = insertRecords (str "d")
         (insertStmt (str "t")
            (mapStrings [str "a"] (@sqlNameFromString Latin1Only)) 1)
         1 [[str "1"]]
         (@logWarning Reference.sql (MsgTableExists (str "t"))
            (setDatabase (E:=Reference.sql) (str "d")
               (database (str "d") σ) σ)).
Proof.
  cbv zeta.
  set (σ := @initialState Reference.sql ∅ []
              {[ str "d" :=
                   {[ str "t" := Reference.mkTable [str "a"]
                                   [[Some (str "0")]] ]} ]}).
  assert (HR : @ReadAll Reference.csv
                 (str "a" ++ newline ++ str "1" ++ newline)
               = Val [[str "a"]; [str "1"]])
    by (vm_compute; reflexivity).
  assert (H1 : stateAtCreate (str "d") (str "t") σ = Some σ)
    by reflexivity.
  assert (HX : @Exec Reference.sql (database (str "d") σ)
                 (createTableStmt (str "t")
                    (mapStrings [str "a"] (@sqlNameFromString Latin1Only)))
                 []
               = (database (str "d") σ,
                  Some (str "table t already exists")))
    by (vm_compute; reflexivity).
  assert (Hsub : hasSubstring (str "table t already exists")
                              (str "already exists"))
    by (exists (str "table t "), []; reflexivity).
  split; [exact HR|]. split; [exact H1|]. split; [exact HX|].
  split; [exact Hsub|].
  destruct (@ingestion_error_policy Latin1Only Reference.csv Reference.sql
              (str "d") (str "t") (str "t.csv")
              (str "a" ++ newline ++ str "1" ++ newline) σ)
    as (_ & _ & Hrecords).
  destruct (Hrecords _ _ HR) as (_ & Hcreate & _).
  exact (proj1 (Hcreate σ _ _ H1 HX) Hsub).
Defined.

(** C6, counterexample to the claim as written ("when the replace
    flag is not set"), on the engine with a temporary schema.  The
    arguments [t.csv shadow.sql --replace t.csv], where [shadow.sql]
    holds [create temp table t (a)]: the first [t.csv] creates the
    table; the query file puts a temporary table of the same name in
    front of it; with the replace flag now set, the drop of the
    second [t.csv] removes the temporary table, the [create table]
    finds the first table and reports that it already exists, and the
    process does not end: the warning is logged, the row is inserted
    into the existing table, and the exit status is 0. *)
Lemma replace_mode_table_exists_is_a_warning :
  let fs : gmap gostring gostring :=
    {[ str "t.csv" := str "a" ++ newline ++ str "1" ++ newline;
       str "shadow.sql" := str "create temp table t (a)" ]} in
  let before :=
    @main Latin1Only Reference.csv Shadowed.sql
      [str "csv2sql"; str "t.csv"; str "shadow.sql"; str "--replace"]
      (@initialState Shadowed.sql fs [] ∅) in
  let run :=
    @main Latin1Only Reference.csv Shadowed.sql
      [str "csv2sql"; str "t.csv"; str "shadow.sql"; str "--replace";
       str "t.csv"]
      (@initialState Shadowed.sql fs [] ∅) in
  (exitStatus before = 0
   /\ Replacing (finalState before) = true
   /\ logged (finalState before) = [])
  /\ exitStatus run = 0
  /\ Replacing (finalState run) = true
  /\ logged (finalState run) = [MsgTableExists (str "t")]
  /\ Shadowed.mainSchema
       (database (E:=Shadowed.sql) (str "file::memory:") (finalState run))
     = {[ str "t" := Reference.mkTable [str "a"]
                       [[Some (str "1")]; [Some (str "1")]] ]}.
Proof.
  cbv zeta. repeat split; vm_compute; reflexivity.
Qed.
